(** * SimSiam on satellite tiles: a model of [tutorial_simsiam_esa.ipynb]

    The notebook is glue over PyTorch, lightly, scikit-learn and numpy.
    Library functions (the ResNet backbone, the two heads, the loss, the
    optimizer, [torch.std], [math.sqrt], [np.argsort], [Image.open], the
    shuffles) are parameters of the sections below; the notebook's own
    control flow and arithmetic is transcribed cell by cell.

    Scalars are exact rationals ([Q]): rounding of Python floats and of
    float32 tensors is not part of the model.  numpy's special values
    appear where the notebook produces them: in the division of cell 21
    ([Rescale.np_divide]) and in what cell 23 computes from its result
    ([Thumbnails]).

    The last part, [Notebook], is the whole notebook once more, as the
    sequence of calls it makes into the libraries, each of which may
    raise. *)

From Stdlib Require Import List Arith Lia Bool ZArith QArith Qminmax Qpower Qround Lqa.
From Stdlib Require Import Permutation Sorted.
From Stdlib Require String DecimalString.
Import ListNotations.

Local Open Scope Q_scope.

(** ** Cell 5: configuration *)

Module Config.

Definition num_workers : nat := 8.
Definition batch_size : nat := 128.
Definition seed : nat := 1.
Definition epochs : nat := 50.
Definition input_size : nat := 256.
Definition num_ftrs : nat := 512.
Definition out_dim : nat := 512.
Definition proj_hidden_dim : nat := 512.
Definition pred_hidden_dim : nat := 128.

End Config.

(** ** Cell 11: the SimSiam module, over tensors that carry their autograd
    history *)

Module Model.

(** The parametrised layers and parameter-free operations that can occur
    in the history of a tensor. *)
Inductive op : Type :=
| OpBackbone
| OpFlatten
| OpProjectionHead
| OpPredictionHead
| OpCriterion
| OpAdd
| OpScale
| OpNormalize
| OpStd
| OpMean.

(** An autograd graph.  [GLeaf] is a tensor without history: an input
    batch, or the result of [detach]. *)
Inductive graph : Type :=
| GLeaf
| GUn (o : op) (g : graph)
| GBin (o : op) (g1 g2 : graph).

Definition op_eqb (a b : op) : bool :=
  match a, b with
  | OpBackbone, OpBackbone | OpFlatten, OpFlatten
  | OpProjectionHead, OpProjectionHead | OpPredictionHead, OpPredictionHead
  | OpCriterion, OpCriterion | OpAdd, OpAdd | OpScale, OpScale
  | OpNormalize, OpNormalize | OpStd, OpStd | OpMean, OpMean => true
  | _, _ => false
  end.

(** [reaches o g]: a backward pass started at a tensor with history [g]
    propagates gradient into operation [o]. *)
Fixpoint reaches (o : op) (g : graph) : bool :=
  match g with
  | GLeaf => false
  | GUn o' g' => op_eqb o o' || reaches o g'
  | GBin o' g1 g2 => op_eqb o o' || reaches o g1 || reaches o g2
  end.

Section Tensors.

(** The numeric content of a tensor. *)
Variable V : Type.

(** [Tensor.flatten(start_dim=1)] on the numeric content. *)
Variable flatten_start_dim1 : V -> V.

Record tensor : Type := mkTensor {
  data : V;
  grad_fn : option graph
}.

Definition requires_grad (t : tensor) : bool :=
  match grad_fn t with Some _ => true | None => false end.

Definition history (t : tensor) : graph :=
  match grad_fn t with Some g => g | None => GLeaf end.

(** A batch as the data loader yields it: no history. *)
Definition input (v : V) : tensor := mkTensor v None.

(** Calling an [nn.Module] whose parameters require gradients: the result
    always has a history. *)
Definition call (o : op) (f : V -> V) (t : tensor) : tensor :=
  mkTensor (f (data t)) (Some (GUn o (history t))).

(** A parameter-free unary operation: the result has a history exactly
    when the argument has one. *)
Definition unary (o : op) (f : V -> V) (t : tensor) : tensor :=
  mkTensor (f (data t))
           (match grad_fn t with Some g => Some (GUn o g) | None => None end).

(** A parameter-free binary operation. *)
Definition binary (o : op) (f : V -> V -> V) (a b : tensor) : tensor :=
  mkTensor (f (data a) (data b))
           (match grad_fn a, grad_fn b with
            | None, None => None
            | _, _ => Some (GBin o (history a) (history b))
            end).

Definition flatten (t : tensor) : tensor := unary OpFlatten flatten_start_dim1 t.

(** [Tensor.detach()]: same content, no history. *)
Definition detach (t : tensor) : tensor := mkTensor (data t) None.

(** The module's three sub-modules, each as the function it currently
    computes (its weights are part of the function).  The statistics that
    batch normalisation keeps inside the backbone and the heads are library
    state and are not represented. *)
Record SimSiam : Type := mkSimSiam {
  backbone : V -> V;
  projection_head : V -> V;
  prediction_head : V -> V
}.

(** [SimSiam.forward]. *)
Definition forward (self : SimSiam) (x : tensor) : tensor * tensor :=
  (* get representations *)
  let f := flatten (call OpBackbone (backbone self) x) in
  (* get projections *)
  let z := call OpProjectionHead (projection_head self) f in
  (* get predictions *)
  let p := call OpPredictionHead (prediction_head self) z in
  (* stop gradient *)
  let z := detach z in
  (z, p).

(** The history of the prediction returned by [forward]. *)
Definition prediction_history (x : tensor) : graph :=
  GUn OpPredictionHead
      (GUn OpProjectionHead (GUn OpFlatten (GUn OpBackbone (history x)))).

Lemma forward_fst (self : SimSiam) (x : tensor) :
  fst (forward self x)
  = mkTensor (projection_head self (flatten_start_dim1 (backbone self (data x)))) None.
Proof. reflexivity. Qed.

Lemma forward_snd (self : SimSiam) (x : tensor) :
  snd (forward self x)
  = mkTensor (prediction_head self
                (projection_head self (flatten_start_dim1 (backbone self (data x)))))
             (Some (prediction_history x)).
Proof. reflexivity. Qed.

Lemma reaches_prediction_history (x : tensor) :
  reaches OpPredictionHead (prediction_history x) = true
  /\ reaches OpProjectionHead (prediction_history x) = true
  /\ reaches OpBackbone (prediction_history x) = true.
Proof. repeat split; reflexivity. Qed.

(** C1: for every batch [x], [forward] computes
    f = flatten(backbone(x)), z = projection_head(f), p = prediction_head(z)
    and returns (z, p); the returned z is detached (it has no history and
    does not require gradients), while p requires gradients and its history
    runs back through the prediction head, the projection head and the
    backbone. *)
Theorem forward_pipeline_stop_gradient (self : SimSiam) (x : tensor) :
  let f := flatten_start_dim1 (backbone self (data x)) in
  let z := projection_head self f in
  let p := prediction_head self z in
  data (fst (forward self x)) = z
  /\ data (snd (forward self x)) = p
  /\ grad_fn (fst (forward self x)) = None
  /\ requires_grad (fst (forward self x)) = false
  /\ requires_grad (snd (forward self x)) = true
  /\ grad_fn (snd (forward self x)) = Some (prediction_history x)
  /\ reaches OpPredictionHead (history (snd (forward self x))) = true
  /\ reaches OpProjectionHead (history (snd (forward self x))) = true
  /\ reaches OpBackbone (history (snd (forward self x))) = true
  /\ (forall o, reaches o (history (fst (forward self x))) = false).
Proof.
  cbv zeta. rewrite forward_fst, forward_snd. unfold requires_grad, history.
  cbn [data grad_fn].
  destruct (reaches_prediction_history x) as (Hp & Hj & Hb).
  repeat split; auto.
Qed.

End Tensors.

Arguments data {V} _.
Arguments grad_fn {V} _.
Arguments mkTensor {V} _ _.
Arguments input {V} _.
Arguments detach {V} _.
Arguments history {V} _.
Arguments requires_grad {V} _.
Arguments call {V} _ _ _.
Arguments unary {V} _ _ _.
Arguments binary {V} _ _ _ _.
Arguments backbone {V} _ _.
Arguments projection_head {V} _ _.
Arguments prediction_head {V} _ _.

End Model.

(** ** Cells 13 and 15: criterion, optimizer and the training loop *)

Module Training.
Import Model.

(** [w = 0.9], the weight of the moving averages. *)
Definition w : Q := 9 # 10.

(** Python's [max(a, b)] on two floats: [b] when [b > a], else [a]. *)
Definition py_max (a b : Q) : Q := if Qlt_le_dec a b then b else a.

(** One update of a moving average: [w * avg + (1 - w) * x]. *)
Definition moving_average (avg x : Q) : Q := w * avg + (1 - w) * x.

(** The moving average after a run of observations. *)
Definition ema (start : Q) (xs : list Q) : Q := fold_left moving_average xs start.

(** What the loop does to the world outside its variables, in order. *)
Inductive event (V : Type) : Type :=
| EvForward (x : V)
| EvBackward
| EvStep
| EvZeroGrad
| EvPrint (e : nat) (loss collapse : Q).

Arguments EvForward {V} _.
Arguments EvBackward {V}.
Arguments EvStep {V}.
Arguments EvZeroGrad {V}.
Arguments EvPrint {V} _ _ _.


(** *** Closed form and range of the moving average *)

Lemma w_power_succ (n : nat) : w ^ Z.of_nat (S n) == w * w ^ Z.of_nat n.
Proof.
  rewrite Nat2Z.inj_succ, <- Z.add_1_l.
  rewrite Qpower_plus by (unfold w; intros H; discriminate H).
  reflexivity.
Qed.

Lemma ema_constant (a L : Q) (xs : list Q) :
  Forall (fun x => x == L) xs ->
  ema a xs == w ^ Z.of_nat (length xs) * a + (1 - w ^ Z.of_nat (length xs)) * L.
Proof.
  intros H. revert a. induction H as [|x xs Hx _ IH]; intros a.
  - cbn. ring.
  - change (ema a (x :: xs)) with (ema (moving_average a x) xs).
    rewrite IH. cbn [length]. rewrite w_power_succ.
    unfold moving_average. rewrite Hx. ring.
Qed.

Section Loop.

Variable V : Type.
Variable flatten_start_dim1 : V -> V.

(** [lightly.loss.NegativeCosineSimilarity], tensor addition, scaling by a
    Python float, [Tensor.item()]. *)
Variable criterion_fn : V -> V -> V.
Variable add_fn : V -> V -> V.
Variable scale_fn : Q -> V -> V.
Variable item : V -> Q.

(** [torch.nn.functional.normalize(_, dim=1)], [torch.std(_, 0)],
    [Tensor.mean()]. *)
Variable normalize_dim1 : V -> V.
Variable std_dim0 : V -> V.
Variable mean_fn : V -> V.

(** Gradient buffers and optimizer state (momentum buffers) of
    [torch.optim.SGD]; [loss.backward()] accumulates into the buffers,
    [optimizer.step()] updates the weights, [optimizer.zero_grad()] resets
    the buffers. *)
Variables G O : Type.
Variable backward : tensor V -> G -> G.
Variable sgd_step : O -> SimSiam V -> G -> O * SimSiam V.
Variable zero_grad : G -> G.

(** [math.sqrt]. *)
Variable math_sqrt : Q -> Q.

(** [math.sqrt(out_dim)]. *)
Definition sqrt_out_dim : Q := math_sqrt (inject_Z (Z.of_nat Config.out_dim)).

(** The batches [(x0, x1)] that [dataloader_train_simsiam] yields in each
    epoch (it reshuffles and re-augments every time it is iterated). *)
Variable dataloader_train_simsiam : nat -> list (V * V).

Definition criterion (z p : tensor V) : tensor V := binary OpCriterion criterion_fn z p.
Definition tadd (a b : tensor V) : tensor V := binary OpAdd add_fn a b.
Definition tscale (c : Q) (a : tensor V) : tensor V := unary OpScale (scale_fn c) a.

Record state : Type := mkState {
  model : SimSiam V;
  grads : G;
  opt : O;
  avg_loss : Q;
  avg_output_std : Q;
  collapse_level : option Q;
  trace : list (event V)
}.

(** [avg_loss = 0.], [avg_output_std = 0.], nothing printed yet and
    [collapse_level] not yet bound. *)
Definition init (m : SimSiam V) (g : G) (o : O) : state :=
  mkState m g o 0 0 None [].

(** [loss = 0.5 * (criterion(z0, p1) + criterion(z1, p0))]. *)
Definition symmetric_loss (m : SimSiam V) (x0 x1 : V) : tensor V :=
  let zp0 := forward V flatten_start_dim1 m (input x0) in
  let zp1 := forward V flatten_start_dim1 m (input x1) in
  let z0 := fst zp0 in let p0 := snd zp0 in
  let z1 := fst zp1 in let p1 := snd zp1 in
  tscale (1 # 2) (tadd (criterion z0 p1) (criterion z1 p0)).

(** The per-dimension standard deviation of the normalised predictions of
    the first view, averaged over the dimensions. *)
Definition output_std (m : SimSiam V) (x0 : V) : Q :=
  let p0 := snd (forward V flatten_start_dim1 m (input x0)) in
  let output := detach p0 in
  let output := unary OpNormalize normalize_dim1 output in
  let output_std := unary OpStd std_dim0 output in
  let output_std := unary OpMean mean_fn output_std in
  item (data output_std).

Definition batch_events (b : V * V) : list (event V) :=
  [EvForward (fst b); EvForward (snd b); EvBackward; EvStep; EvZeroGrad].

(** The body of the inner loop, for one batch [(x0, x1)]. *)
Definition train_batch (s : state) (b : V * V) : state :=
  let x0 := fst b in
  let x1 := snd b in
  let loss := symmetric_loss (model s) x0 x1 in
  let g := backward loss (grads s) in
  let om := sgd_step (opt s) (model s) g in
  let g := zero_grad g in
  mkState (snd om) g (fst om)
          (w * avg_loss s + (1 - w) * item (data loss))
          (w * avg_output_std s + (1 - w) * output_std (model s) x0)
          (collapse_level s)
          (trace s ++ batch_events b).

Definition run_batches (s : state) (bs : list (V * V)) : state :=
  fold_left train_batch bs s.

(** [collapse_level = max(0., 1 - math.sqrt(out_dim) * avg_output_std)]. *)
Definition collapse_of (avg_std : Q) : Q := py_max 0 (1 - sqrt_out_dim * avg_std).

(** The body of the outer loop, for epoch [e]. *)
Definition train_epoch (s : state) (e : nat) : state :=
  let s' := run_batches s (dataloader_train_simsiam e) in
  let c := collapse_of (avg_output_std s') in
  mkState (model s') (grads s') (opt s') (avg_loss s') (avg_output_std s')
          (Some c) (trace s' ++ [EvPrint e (avg_loss s') c]).

Definition run_epochs (s : state) (es : list nat) : state :=
  fold_left train_epoch es s.

(** The whole cell: [for e in range(epochs): ...]. *)
Definition train (m : SimSiam V) (g : G) (o : O) : state :=
  run_epochs (init m g o) (seq 0 Config.epochs).

(** The state when epoch [e] starts, and when its [k]-th batch starts. *)
Definition epoch_start (m : SimSiam V) (g : G) (o : O) (e : nat) : state :=
  run_epochs (init m g o) (seq 0 e).

Definition batch_start (m : SimSiam V) (g : G) (o : O) (e k : nat) : state :=
  run_batches (epoch_start m g o e) (firstn k (dataloader_train_simsiam e)).

(** The values of [output_std] met by a run of batches and by a run of
    epochs, in order. *)
Fixpoint batch_stds (s : state) (bs : list (V * V)) : list Q :=
  match bs with
  | [] => []
  | b :: bs' => output_std (model s) (fst b) :: batch_stds (train_batch s b) bs'
  end.

Fixpoint epoch_stds (s : state) (es : list nat) : list Q :=
  match es with
  | [] => []
  | e :: es' =>
      batch_stds s (dataloader_train_simsiam e) ++ epoch_stds (train_epoch s e) es'
  end.

(** The values of [loss.item()] met by a run of batches and by a run of
    epochs, in order. *)
Fixpoint batch_losses (s : state) (bs : list (V * V)) : list Q :=
  match bs with
  | [] => []
  | b :: bs' =>
      item (data (symmetric_loss (model s) (fst b) (snd b)))
      :: batch_losses (train_batch s b) bs'
  end.

Fixpoint epoch_losses (s : state) (es : list nat) : list Q :=
  match es with
  | [] => []
  | e :: es' =>
      batch_losses s (dataloader_train_simsiam e) ++ epoch_losses (train_epoch s e) es'
  end.

(** The events a run of epochs adds, when only their kind is looked at. *)
Inductive tag : Type := TForward | TBackward | TStep | TZeroGrad | TPrint (e : nat).

Definition tag_of (ev : event V) : tag :=
  match ev with
  | EvForward _ => TForward
  | EvBackward => TBackward
  | EvStep => TStep
  | EvZeroGrad => TZeroGrad
  | EvPrint e _ _ => TPrint e
  end.

Definition batch_tags : list tag := [TForward; TForward; TBackward; TStep; TZeroGrad].

Definition epoch_tags (e : nat) : list tag :=
  flat_map (fun _ => batch_tags) (dataloader_train_simsiam e) ++ [TPrint e].

(** *** Unfolding the two loops *)

Lemma run_batches_app (s : state) (bs cs : list (V * V)) :
  run_batches s (bs ++ cs) = run_batches (run_batches s bs) cs.
Proof. unfold run_batches. apply fold_left_app. Qed.

Lemma run_epochs_snoc (s : state) (es : list nat) (e : nat) :
  run_epochs s (es ++ [e]) = train_epoch (run_epochs s es) e.
Proof. unfold run_epochs. rewrite fold_left_app. reflexivity. Qed.

Lemma epoch_start_S (m : SimSiam V) (g : G) (o : O) (e : nat) :
  epoch_start m g o (S e) = train_epoch (epoch_start m g o e) e.
Proof. unfold epoch_start. rewrite seq_S. apply run_epochs_snoc. Qed.

Lemma train_is_last_epoch_start (m : SimSiam V) (g : G) (o : O) :
  train m g o = epoch_start m g o Config.epochs.
Proof. unfold train, epoch_start. reflexivity. Qed.

Lemma firstn_snoc_nth_error {A : Type} (l : list A) (k : nat) (a : A) :
  nth_error l k = Some a -> firstn (S k) l = firstn k l ++ [a].
Proof.
  revert k. induction l as [|x l IH]; intros [|k] H; simpl in H; try discriminate.
  - injection H as ->. reflexivity.
  - rewrite !firstn_cons, (IH k H). reflexivity.
Qed.

Lemma batch_start_S (m : SimSiam V) (g : G) (o : O) (e k : nat) (b : V * V) :
  nth_error (dataloader_train_simsiam e) k = Some b ->
  batch_start m g o e (S k) = train_batch (batch_start m g o e k) b.
Proof.
  intros H. unfold batch_start. rewrite (firstn_snoc_nth_error _ _ _ H).
  rewrite run_batches_app. reflexivity.
Qed.

(** *** What the inner loop leaves alone, and what it accumulates *)

Lemma run_batches_collapse_level (s : state) (bs : list (V * V)) :
  collapse_level (run_batches s bs) = collapse_level s.
Proof.
  revert s. induction bs as [|b bs IH]; intros s; [reflexivity|].
  change (run_batches s (b :: bs)) with (run_batches (train_batch s b) bs).
  rewrite IH. reflexivity.
Qed.

Lemma run_batches_trace (s : state) (bs : list (V * V)) :
  trace (run_batches s bs) = trace s ++ flat_map batch_events bs.
Proof.
  revert s. induction bs as [|b bs IH]; intros s.
  - cbn. now rewrite app_nil_r.
  - change (run_batches s (b :: bs)) with (run_batches (train_batch s b) bs).
    rewrite IH. cbn [train_batch trace flat_map]. now rewrite <- app_assoc.
Qed.

Lemma run_batches_avg_output_std (s : state) (bs : list (V * V)) :
  avg_output_std (run_batches s bs) = ema (avg_output_std s) (batch_stds s bs).
Proof.
  revert s. induction bs as [|b bs IH]; intros s; [reflexivity|].
  change (run_batches s (b :: bs)) with (run_batches (train_batch s b) bs).
  rewrite IH. reflexivity.
Qed.

Lemma run_batches_avg_loss (s : state) (bs : list (V * V)) :
  avg_loss (run_batches s bs) = ema (avg_loss s) (batch_losses s bs).
Proof.
  revert s. induction bs as [|b bs IH]; intros s; [reflexivity|].
  change (run_batches s (b :: bs)) with (run_batches (train_batch s b) bs).
  rewrite IH. reflexivity.
Qed.

Lemma batch_losses_length (s : state) (bs : list (V * V)) :
  length (batch_losses s bs) = length bs.
Proof.
  revert s. induction bs as [|b bs IH]; intros s; cbn; [reflexivity|].
  now rewrite IH.
Qed.

Lemma ema_app (a : Q) (xs ys : list Q) : ema a (xs ++ ys) = ema (ema a xs) ys.
Proof. unfold ema. apply fold_left_app. Qed.

Lemma run_epochs_avg_loss (s : state) (es : list nat) :
  avg_loss (run_epochs s es) = ema (avg_loss s) (epoch_losses s es).
Proof.
  revert s. induction es as [|e es IH]; intros s; [reflexivity|].
  change (run_epochs s (e :: es)) with (run_epochs (train_epoch s e) es).
  rewrite IH. cbn [epoch_losses]. rewrite ema_app.
  cbn [train_epoch avg_loss]. now rewrite run_batches_avg_loss.
Qed.

(** What the end of an epoch hands on is what its batch loop left. *)
Lemma epoch_end_keeps_loop_state (m : SimSiam V) (g : G) (o : O) (e : nat) :
  let s_last := batch_start m g o e (length (dataloader_train_simsiam e)) in
  model (epoch_start m g o (S e)) = model s_last
  /\ grads (epoch_start m g o (S e)) = grads s_last
  /\ opt (epoch_start m g o (S e)) = opt s_last
  /\ avg_loss (epoch_start m g o (S e)) = avg_loss s_last
  /\ avg_output_std (epoch_start m g o (S e)) = avg_output_std s_last.
Proof.
  cbv zeta. rewrite epoch_start_S. unfold batch_start. rewrite firstn_all.
  repeat split.
Qed.

Lemma run_epochs_avg_output_std (s : state) (es : list nat) :
  avg_output_std (run_epochs s es) = ema (avg_output_std s) (epoch_stds s es).
Proof.
  revert s. induction es as [|e es IH]; intros s; [reflexivity|].
  change (run_epochs s (e :: es)) with (run_epochs (train_epoch s e) es).
  rewrite IH. cbn [epoch_stds]. rewrite ema_app.
  cbn [train_epoch avg_output_std]. now rewrite run_batches_avg_output_std.
Qed.

Lemma batch_events_tags (b : V * V) : map tag_of (batch_events b) = batch_tags.
Proof. reflexivity. Qed.

Lemma train_epoch_tags (s : state) (e : nat) :
  map tag_of (trace (train_epoch s e)) = map tag_of (trace s) ++ epoch_tags e.
Proof.
  cbn [train_epoch trace]. rewrite run_batches_trace, !map_app. unfold epoch_tags.
  rewrite <- app_assoc. do 2 f_equal.
  induction (dataloader_train_simsiam e) as [|b bs IH]; [reflexivity|].
  cbn [flat_map]. rewrite map_app, IH. reflexivity.
Qed.

Lemma run_epochs_tags (s : state) (es : list nat) :
  map tag_of (trace (run_epochs s es)) = map tag_of (trace s) ++ flat_map epoch_tags es.
Proof.
  revert s. induction es as [|e es IH]; intros s.
  - cbn. now rewrite app_nil_r.
  - change (run_epochs s (e :: es)) with (run_epochs (train_epoch s e) es).
    rewrite IH, train_epoch_tags. cbn [flat_map]. now rewrite <- app_assoc.
Qed.

(** The whole run, event kinds only: for each epoch in turn, five library
    calls per batch, then one print. *)
Lemma train_tags (m : SimSiam V) (g : G) (o : O) :
  map tag_of (trace (train m g o)) = flat_map epoch_tags (seq 0 Config.epochs).
Proof. unfold train. rewrite run_epochs_tags. reflexivity. Qed.

Definition is_print_tag (t : tag) : bool :=
  match t with TPrint _ => true | _ => false end.

Lemma epoch_tags_prints (e : nat) : filter is_print_tag (epoch_tags e) = [TPrint e].
Proof.
  unfold epoch_tags. rewrite filter_app.
  replace (filter is_print_tag
             (flat_map (fun _ => batch_tags) (dataloader_train_simsiam e)))
    with (@nil tag); [reflexivity|].
  induction (dataloader_train_simsiam e) as [|b bs IH]; [reflexivity|].
  cbn [flat_map]. rewrite filter_app, <- IH. reflexivity.
Qed.

Lemma prints_of_epochs (es : list nat) :
  filter is_print_tag (flat_map epoch_tags es) = map TPrint es.
Proof.
  induction es as [|e es IH]; [reflexivity|].
  cbn [flat_map map]. rewrite filter_app, IH, epoch_tags_prints. reflexivity.
Qed.

(** *** The moving averages *)

Lemma moving_average_weights (avg x : Q) :
  moving_average avg x == (9 # 10) * avg + (1 # 10) * x.
Proof. unfold moving_average, w. ring. Qed.

Lemma moving_average_nonneg (avg x : Q) : 0 <= avg -> 0 <= x -> 0 <= moving_average avg x.
Proof. intros Ha Hx. rewrite moving_average_weights. lra. Qed.

Lemma py_max_lower (a b : Q) : a <= py_max a b.
Proof. unfold py_max. destruct (Qlt_le_dec a b); lra. Qed.

Lemma py_max_upper (a b c : Q) : a <= c -> b <= c -> py_max a b <= c.
Proof. unfold py_max. destruct (Qlt_le_dec a b); lra. Qed.

Lemma py_max_is_max (a b : Q) : py_max a b = Qmax a b.
Proof.
  unfold py_max, Qmax, GenericMinMax.gmax.
  destruct (Qlt_le_dec a b) as [H | H].
  - rewrite Qlt_alt in H. rewrite H. reflexivity.
  - destruct (a ?= b) eqn:E; try reflexivity.
    rewrite <- Qlt_alt in E. exfalso. apply (Qlt_not_le _ _ E H).
Qed.

Lemma collapse_of_bounds (a : Q) : 0 <= sqrt_out_dim -> 0 <= a -> 0 <= collapse_of a <= 1.
Proof.
  intros Hs Ha. unfold collapse_of. split; [apply py_max_lower|].
  apply py_max_upper; [lra|].
  pose proof (Qmult_le_0_compat _ _ Hs Ha). lra.
Qed.

(** C2: for every batch [(x0, x1)] of every epoch, the loop runs both views
    through the model, forms
    [loss = 0.5 * (criterion(z0, p1) + criterion(z1, p0))], calls
    [backward] once, then [optimizer.step()], then [optimizer.zero_grad()],
    and moves both logging scalars by
    [avg' = 0.9 * avg + 0.1 * new].  These steps make up the whole cell:
    the first epoch starts from the initial state, where both scalars are
    0; the first batch of an epoch starts from the state the epoch started
    with; the next epoch starts with the model, the gradient buffers, the
    optimizer and both scalars that the last batch left; the cell ends
    where epoch [epochs] would start.  So the [avg_loss] at the end is the
    moving average, from 0, of the losses of all batches of all epochs. *)
Theorem training_step (m : SimSiam V) (g : G) (o : O) (e : nat) :
  (e < Config.epochs)%nat ->
  let s_last := batch_start m g o e (length (dataloader_train_simsiam e)) in
  (forall (k : nat) (x0 x1 : V),
      nth_error (dataloader_train_simsiam e) k = Some (x0, x1) ->
      let s := batch_start m g o e k in
      let s' := batch_start m g o e (S k) in
      let zp0 := forward V flatten_start_dim1 (model s) (input x0) in
      let zp1 := forward V flatten_start_dim1 (model s) (input x1) in
      let loss :=
        tscale (1 # 2)
               (tadd (criterion (fst zp0) (snd zp1)) (criterion (fst zp1) (snd zp0))) in
      let std := item (mean_fn (std_dim0 (normalize_dim1 (data (snd zp0))))) in
      trace s' = trace s ++ [EvForward x0; EvForward x1; EvBackward; EvStep; EvZeroGrad]
      /\ (opt s', model s') = sgd_step (opt s) (model s) (backward loss (grads s))
      /\ grads s' = zero_grad (backward loss (grads s))
      /\ avg_loss s' == (9 # 10) * avg_loss s + (1 # 10) * item (data loss)
      /\ avg_output_std s' == (9 # 10) * avg_output_std s + (1 # 10) * std)
  /\ avg_loss (batch_start m g o 0 0) = 0
  /\ avg_output_std (batch_start m g o 0 0) = 0
  /\ epoch_start m g o 0 = init m g o
  /\ batch_start m g o e 0 = epoch_start m g o e
  /\ model (epoch_start m g o (S e)) = model s_last
  /\ grads (epoch_start m g o (S e)) = grads s_last
  /\ opt (epoch_start m g o (S e)) = opt s_last
  /\ avg_loss (epoch_start m g o (S e)) = avg_loss s_last
  /\ avg_output_std (epoch_start m g o (S e)) = avg_output_std s_last
  /\ train m g o = epoch_start m g o Config.epochs
  /\ avg_loss (train m g o) = ema 0 (epoch_losses (init m g o) (seq 0 Config.epochs)).
Proof.
  intros _. cbv zeta. split.
  { intros k x0 x1 Hb. rewrite (batch_start_S _ _ _ _ _ _ Hb).
    set (s := batch_start m g o e k).
    cbn [train_batch trace opt model grads avg_loss avg_output_std fst snd batch_events].
    split; [reflexivity|]. split; [symmetry; apply surjective_pairing|].
    split; [reflexivity|]. split; apply moving_average_weights. }
  split; [reflexivity|]. split; [reflexivity|]. split; [reflexivity|].
  split; [reflexivity|].
  destruct (epoch_end_keeps_loop_state m g o e) as (Hm & Hg & Ho & Hl & Hs).
  split; [exact Hm|]. split; [exact Hg|]. split; [exact Ho|].
  split; [exact Hl|]. split; [exact Hs|].
  split; [exact (train_is_last_epoch_start m g o)|].
  unfold train. apply run_epochs_avg_loss.
Qed.

(** C3: in every epoch the collapse level is computed once, after the batch
    loop, as [max(0, 1 - sqrt(out_dim) * avg_output_std)] with
    [out_dim = 512]: it is 0 when [1 - sqrt(out_dim) * avg_output_std] is
    not positive and is that number otherwise; the batch loop itself never
    touches it.  [avg_output_std] is the moving average of the per-batch
    [output_std] values (mean over dimensions of the standard deviation of
    the normalised [p0]); it enters an epoch with the value the previous
    epoch left and is, at the end of the batch loop of epoch [e], the
    moving average from 0 over all batches of epochs [0..e]. *)
Theorem collapse_level_once_per_epoch (m : SimSiam V) (g : G) (o : O) (e : nat) :
  (e < Config.epochs)%nat ->
  let s := epoch_start m g o e in
  let s_loop := run_batches s (dataloader_train_simsiam e) in
  let s_end := epoch_start m g o (S e) in
  let x := 1 - math_sqrt (inject_Z (Z.of_nat Config.out_dim)) * avg_output_std s_loop in
  let c := Qmax 0 x in
  Config.out_dim = 512%nat
  /\ collapse_level s_end = Some c
  /\ (x <= 0 -> c == 0)
  /\ (0 <= x -> c == x)
  /\ trace s_end
     = trace s ++ flat_map batch_events (dataloader_train_simsiam e)
               ++ [EvPrint e (avg_loss s_loop) c]
  /\ (forall k, collapse_level (batch_start m g o e k) = collapse_level s)
  /\ avg_output_std s_loop
     = ema (avg_output_std s) (batch_stds s (dataloader_train_simsiam e))
  /\ avg_output_std s_end = avg_output_std s_loop
  /\ avg_output_std s_loop
     = ema 0 (epoch_stds (init m g o) (seq 0 e)
              ++ batch_stds s (dataloader_train_simsiam e))
  /\ filter is_print_tag (map tag_of (trace (train m g o)))
     = map TPrint (seq 0 Config.epochs).
Proof.
  intros _. cbv zeta. rewrite epoch_start_S.
  set (s := epoch_start m g o e).
  cbn [train_epoch collapse_level trace avg_output_std].
  unfold collapse_of, sqrt_out_dim. rewrite py_max_is_max.
  split; [reflexivity|]. split; [reflexivity|].
  split; [intros H; now apply Q.max_l|].
  split; [intros H; now apply Q.max_r|].
  split.
  { rewrite run_batches_trace, <- app_assoc. reflexivity. }
  split; [intros k; apply run_batches_collapse_level|].
  split; [apply run_batches_avg_output_std|].
  split; [reflexivity|]. split.
  { rewrite run_batches_avg_output_std, ema_app. f_equal.
    unfold s, epoch_start. rewrite run_epochs_avg_output_std. reflexivity. }
  rewrite train_tags. apply prints_of_epochs.
Qed.

(** *** The collapse level stays in the unit interval *)

Definition printed_in_unit (ev : event V) : Prop :=
  match ev with
  | EvPrint _ _ c => 0 <= c <= 1
  | _ => True
  end.

Definition bounded (s : state) : Prop :=
  0 <= avg_output_std s
  /\ Forall printed_in_unit (trace s)
  /\ (forall c, collapse_level s = Some c -> 0 <= c <= 1).

Section Bounds.

Hypothesis sqrt_nonneg : 0 <= sqrt_out_dim.
Hypothesis std_nonneg : forall v : V, 0 <= item (mean_fn (std_dim0 v)).

Lemma train_batch_bounded (s : state) (b : V * V) : bounded s -> bounded (train_batch s b).
Proof.
  intros (Ha & Ht & Hc). unfold bounded.
  cbn [train_batch avg_output_std trace collapse_level].
  split; [|split; [|exact Hc]].
  - apply moving_average_nonneg; [exact Ha|]. apply std_nonneg.
  - apply Forall_app. split; [exact Ht|].
    unfold batch_events. repeat (constructor; [exact I|]). constructor.
Qed.

Lemma run_batches_bounded (s : state) (bs : list (V * V)) :
  bounded s -> bounded (run_batches s bs).
Proof.
  revert s. induction bs as [|b bs IH]; intros s H; [exact H|].
  apply (IH (train_batch s b)). now apply train_batch_bounded.
Qed.

Lemma train_epoch_bounded (s : state) (e : nat) : bounded s -> bounded (train_epoch s e).
Proof.
  intros H. destruct (run_batches_bounded s (dataloader_train_simsiam e) H) as (Ha & Ht & _).
  unfold bounded. cbn [train_epoch avg_output_std trace collapse_level].
  pose proof (collapse_of_bounds _ sqrt_nonneg Ha) as Hb.
  split; [exact Ha|]. split.
  - apply Forall_app. split; [exact Ht|]. constructor; [exact Hb|constructor].
  - intros c [= <-]. exact Hb.
Qed.

Lemma run_epochs_bounded (s : state) (es : list nat) : bounded s -> bounded (run_epochs s es).
Proof.
  revert s. induction es as [|e es IH]; intros s H; [exact H|].
  apply (IH (train_epoch s e)). now apply train_epoch_bounded.
Qed.

Lemma init_bounded (m : SimSiam V) (g : G) (o : O) : bounded (init m g o).
Proof.
  unfold bounded, init. cbn [avg_output_std trace collapse_level].
  split; [lra|]. split; [constructor|]. intros c [=].
Qed.

End Bounds.

(** C9: given that [math.sqrt] and the mean of [torch.std] return
    non-negative numbers, every collapse level the loop prints lies in
    [0, 1], and so does the value bound to [collapse_level] at the end of
    every epoch; [avg_output_std] is non-negative throughout. *)
Theorem collapse_level_in_unit_interval (m : SimSiam V) (g : G) (o : O) :
  0 <= sqrt_out_dim ->
  (forall v : V, 0 <= item (mean_fn (std_dim0 v))) ->
  (forall e l c, In (EvPrint e l c) (trace (train m g o)) -> 0 <= c <= 1)
  /\ (forall e, (e < Config.epochs)%nat ->
        exists c, collapse_level (epoch_start m g o (S e)) = Some c /\ 0 <= c <= 1)
  /\ (forall e, 0 <= avg_output_std (epoch_start m g o e)).
Proof.
  intros Hs Hstd.
  assert (Hall : forall e, bounded (epoch_start m g o e)).
  { intros e. apply run_epochs_bounded; auto. apply init_bounded. }
  split; [|split].
  - intros e l c Hin. rewrite train_is_last_epoch_start in Hin.
    destruct (Hall Config.epochs) as (_ & Ht & _).
    rewrite Forall_forall in Ht. apply (Ht _ Hin).
  - intros e _. destruct (Hall (S e)) as (_ & _ & Hc).
    rewrite epoch_start_S in *. cbn [train_epoch collapse_level] in *.
    eexists. split; [reflexivity|]. apply Hc. reflexivity.
  - intros e. destruct (Hall e) as (Ha & _). exact Ha.
Qed.


(** *** More on the loop: its calls, its averages, a loader without batches *)

(** X4: while every batch has the same loss [L], the logged average moves
    from its value [a] to [0.9^n * a + (1 - 0.9^n) * L] after [n] batches;
    started at 0, it shows only the share [1 - 0.9^n] of the loss. *)
Theorem avg_loss_under_constant_loss (s : state) (bs : list (V * V)) (L : Q) :
  Forall (fun x => x == L) (batch_losses s bs) ->
  let d := w ^ Z.of_nat (length bs) in
  avg_loss (run_batches s bs) == d * avg_loss s + (1 - d) * L
  /\ (avg_loss s == 0 -> avg_loss (run_batches s bs) == (1 - d) * L).
Proof.
  intros H. cbv zeta.
  assert (E : avg_loss (run_batches s bs)
              == w ^ Z.of_nat (length bs) * avg_loss s
                 + (1 - w ^ Z.of_nat (length bs)) * L).
  { rewrite run_batches_avg_loss, <- (batch_losses_length s bs).
    now apply ema_constant. }
  split; [exact E|]. intros H0. rewrite E, H0. ring.
Qed.

(** X7: in the symmetric loss the gradient enters each criterion term
    through its prediction only: the projections are leaves of the graph
    (they come detached out of [forward]), and the backward pass of the
    loss still reaches the prediction head, the projection head and the
    backbone, through [p1] and [p0]. *)
Theorem symmetric_loss_history (m : SimSiam V) (x0 x1 : V) :
  grad_fn (symmetric_loss m x0 x1)
  = Some (GUn OpScale
            (GBin OpAdd
               (GBin OpCriterion GLeaf (prediction_history V (input x1)))
               (GBin OpCriterion GLeaf (prediction_history V (input x0)))))
  /\ reaches OpPredictionHead (history (symmetric_loss m x0 x1)) = true
  /\ reaches OpProjectionHead (history (symmetric_loss m x0 x1)) = true
  /\ reaches OpBackbone (history (symmetric_loss m x0 x1)) = true
  /\ reaches OpNormalize (history (symmetric_loss m x0 x1)) = false.
Proof. repeat split. Qed.

(** A print of an epoch that saw nothing: loss 0, collapse level 1. *)
Definition quiet_print (ev : event V) : Prop :=
  match ev with
  | EvPrint _ l c => l = 0 /\ c == 1
  | _ => False
  end.

Lemma collapse_of_zero : collapse_of 0 == 1.
Proof.
  unfold collapse_of, py_max.
  destruct (Qlt_le_dec 0 (1 - sqrt_out_dim * 0)) as [_ | H]; [ring|].
  exfalso. ring_simplify in H. revert H. apply Qlt_not_le. reflexivity.
Qed.

Lemma run_epochs_without_batches (s : state) (es : list nat) :
  (forall e, dataloader_train_simsiam e = []) ->
  avg_loss s = 0 -> avg_output_std s = 0 ->
  model (run_epochs s es) = model s
  /\ grads (run_epochs s es) = grads s
  /\ opt (run_epochs s es) = opt s
  /\ avg_loss (run_epochs s es) = 0
  /\ avg_output_std (run_epochs s es) = 0
  /\ exists prints,
       trace (run_epochs s es) = trace s ++ prints
       /\ map tag_of prints = map TPrint es
       /\ Forall quiet_print prints.
Proof.
  intros Hempty. revert s. induction es as [|e es IH]; intros s Hl Hs.
  - cbn. repeat split; try assumption. exists []. rewrite app_nil_r.
    repeat split. constructor.
  - change (run_epochs s (e :: es)) with (run_epochs (train_epoch s e) es).
    assert (Hstep : train_epoch s e
                    = mkState (model s) (grads s) (opt s) 0 0 (Some (collapse_of 0))
                              (trace s ++ [EvPrint e 0 (collapse_of 0)])).
    { unfold train_epoch. rewrite Hempty. cbn [run_batches fold_left].
      now rewrite Hl, Hs. }
    rewrite Hstep.
    edestruct IH as (Hm & Hg & Ho & Hal & Has & prints & Ht & Htags & Hq);
      [| | rewrite Hm, Hg, Ho, Hal, Has].
    + reflexivity.
    + reflexivity.
    + cbn [model grads opt]. repeat split.
      exists (EvPrint e 0 (collapse_of 0) :: prints). rewrite Ht. cbn [trace].
      rewrite <- app_assoc. split; [reflexivity|]. split; [cbn; now rewrite Htags|].
      constructor; [|exact Hq]. split; [reflexivity | apply collapse_of_zero].
Qed.

(** X8: when the training loader yields no batch (fewer images than one
    batch, with [drop_last=True]), the fifty epochs leave the model, the
    gradients and the optimizer as they were, both averages stay 0, and
    every epoch prints a loss of 0 and a collapse level of 1. *)
Theorem training_without_batches (m : SimSiam V) (g : G) (o : O) :
  (forall e, dataloader_train_simsiam e = []) ->
  model (train m g o) = m
  /\ grads (train m g o) = g
  /\ opt (train m g o) = o
  /\ avg_loss (train m g o) = 0
  /\ avg_output_std (train m g o) = 0
  /\ map tag_of (trace (train m g o)) = map TPrint (seq 0 Config.epochs)
  /\ Forall quiet_print (trace (train m g o)).
Proof.
  intros Hempty. unfold train.
  destruct (run_epochs_without_batches (init m g o) (seq 0 Config.epochs) Hempty
              eq_refl eq_refl)
    as (Hm & Hg & Ho & Hl & Hs & prints & Ht & Htags & Hq).
  rewrite Hm, Hg, Ho, Hl, Hs, Ht. cbn [init model grads opt trace app].
  repeat split; assumption.
Qed.

End Loop.

End Training.

(** ** A run of the training loop on one-number tensors *)

Module TinyRun.
Import Model Training.

(** A network on rationals: the backbone adds one, the projection head
    doubles, the prediction head subtracts three. *)
Definition net : SimSiam Q :=
  mkSimSiam Q (fun v => v + 1) (fun v => 2 * v) (fun v => v - 3).

Definition flatten_start_dim1 (v : Q) : Q := v.
Definition criterion_fn (z p : Q) : Q := - (z * p).
Definition item (v : Q) : Q := v.
Definition normalize_dim1 (v : Q) : Q := v.
Definition std_dim0 (v : Q) : Q := v * v.
Definition mean_fn (v : Q) : Q := v.

(** Gradients are summed losses; a step shifts the backbone by a tenth of
    the gradient. *)
Definition backward (loss : tensor Q) (g : Q) : Q := g + data loss.

Definition sgd_step (o : unit) (m : SimSiam Q) (g : Q) : unit * SimSiam Q :=
  (o, mkSimSiam Q (fun v => backbone m v - (1 # 10) * g)
                (projection_head m) (prediction_head m)).

Definition zero_grad (_ : Q) : Q := 0.

(** The square root, rounded down to six decimals: 22.627416 for 512. *)
Definition math_sqrt (x : Q) : Q :=
  Z.sqrt (Qnum x * 10 ^ 12 / Zpos (Qden x)) # 10 ^ 6.

Definition dataloader_train_simsiam (e : nat) : list (Q * Q) :=
  [(1, 2); (3 # 2, 1 # 2)].

Definition batch_start : nat -> nat -> state Q Q unit :=
  Training.batch_start Q flatten_start_dim1 criterion_fn Qplus Qmult item
    normalize_dim1 std_dim0 mean_fn Q unit backward sgd_step zero_grad
    math_sqrt dataloader_train_simsiam net 0 tt.

Definition epoch_start : nat -> state Q Q unit :=
  Training.epoch_start Q flatten_start_dim1 criterion_fn Qplus Qmult item
    normalize_dim1 std_dim0 mean_fn Q unit backward sgd_step zero_grad
    math_sqrt dataloader_train_simsiam net 0 tt.

(** The same run when the normalised predictions are a hundred times
    smaller, as they are for a wide output. *)
Definition normalize_small (v : Q) : Q := v * (1 # 100).

Definition epoch_start_small : nat -> state Q Q unit :=
  Training.epoch_start Q flatten_start_dim1 criterion_fn Qplus Qmult item
    normalize_small std_dim0 mean_fn Q unit backward sgd_step zero_grad
    math_sqrt dataloader_train_simsiam net 0 tt.

Lemma epochs_positive : (0 < Config.epochs)%nat.
Proof. unfold Config.epochs. lia. Qed.

Lemma std_dim0_nonneg (v : Q) : 0 <= item (mean_fn (std_dim0 v)).
Proof. unfold item, mean_fn, std_dim0. nra. Qed.

Lemma sqrt_out_dim_nonneg : 0 <= sqrt_out_dim math_sqrt.
Proof. vm_compute. discriminate. Qed.

(** The first batch of the first epoch: z0 = 4, p0 = 1, z1 = 6, p1 = 3, so
    the loss is 0.5 * (-12 - 6) = -9 and the standard deviation entry is 1.
    The second batch sees the backbone shifted by 0.9 and has the loss
    -15.24; the second epoch starts with the average these two leave,
    0.9 * -0.9 + 0.1 * -15.24 = -2.334. *)
Lemma training_step_first_batch :
  avg_loss _ _ _ (batch_start 0 1) == - (9 # 10)
  /\ avg_output_std _ _ _ (batch_start 0 1) == 1 # 10
  /\ trace _ _ _ (batch_start 0 1)
     = [EvForward 1; EvForward 2; EvBackward; EvStep; EvZeroGrad]
  /\ avg_loss _ _ _ (epoch_start 1) == - (1167 # 500).
Proof.
  destruct (training_step Q flatten_start_dim1 criterion_fn Qplus Qmult item
              normalize_dim1 std_dim0 mean_fn Q unit backward sgd_step zero_grad
              math_sqrt dataloader_train_simsiam net 0 tt 0%nat epochs_positive)
    as (Hstep & _ & _ & _ & _ & _ & _ & _ & Hn & _).
  destruct (Hstep 0%nat 1 2 eq_refl) as (Ht & _ & _ & Hl & Hs).
  unfold batch_start, epoch_start. split; [|split; [|split]].
  - rewrite Hl. vm_compute. reflexivity.
  - rewrite Hs. vm_compute. reflexivity.
  - rewrite Ht. reflexivity.
  - rewrite Hn. vm_compute. reflexivity.
Defined.

(** The first epoch: the second batch has p0 = 3.8, so the averaged
    deviation is 0.09 + 1.444 = 1.534 and the collapse level is clamped to
    0.  With predictions a hundred times smaller the averaged deviation is
    0.0001534 and the collapse level is 1 - 22.627416 * 0.0001534. *)
Lemma collapse_level_first_epoch :
  collapse_level _ _ _ (epoch_start 1) = Some 0
  /\ avg_output_std _ _ _ (epoch_start 1) == 767 # 500
  /\ avg_output_std _ _ _ (epoch_start_small 1) == 767 # 5000000
  /\ exists c, collapse_level _ _ _ (epoch_start_small 1) = Some c
               /\ c == 1 - (22627416 # 1000000) * (767 # 5000000)
               /\ 0 < c < 1.
Proof.
  destruct (collapse_level_once_per_epoch Q flatten_start_dim1 criterion_fn Qplus
              Qmult item normalize_dim1 std_dim0 mean_fn Q unit backward sgd_step
              zero_grad math_sqrt dataloader_train_simsiam net 0 tt 0%nat
              epochs_positive)
    as (_ & Hc & _ & _ & _ & _ & _ & Ha & _).
  destruct (collapse_level_once_per_epoch Q flatten_start_dim1 criterion_fn Qplus
              Qmult item normalize_small std_dim0 mean_fn Q unit backward sgd_step
              zero_grad math_sqrt dataloader_train_simsiam net 0 tt 0%nat
              epochs_positive)
    as (_ & Hc' & _ & Hx & _ & _ & _ & Ha' & _).
  unfold epoch_start, epoch_start_small. split; [|split; [|split]].
  - rewrite Hc. vm_compute. reflexivity.
  - rewrite Ha. vm_compute. reflexivity.
  - rewrite Ha'. vm_compute. reflexivity.
  - eexists. split; [exact Hc'|]. split.
    + rewrite Hx; [vm_compute; reflexivity | vm_compute; discriminate].
    + rewrite Hx; [split; vm_compute; reflexivity | vm_compute; discriminate].
Defined.

(** The collapse level bound at the end of the first epoch lies in [0, 1],
    and the averaged deviation entering the second epoch is not negative. *)
Lemma collapse_level_bounds_of_run :
  (exists c, collapse_level _ _ _ (epoch_start 1) = Some c /\ 0 <= c <= 1)
  /\ 0 <= avg_output_std _ _ _ (epoch_start 1).
Proof.
  destruct (collapse_level_in_unit_interval Q flatten_start_dim1 criterion_fn
              Qplus Qmult item normalize_dim1 std_dim0 mean_fn Q unit backward
              sgd_step zero_grad math_sqrt dataloader_train_simsiam net 0 tt
              sqrt_out_dim_nonneg std_dim0_nonneg) as (_ & Hc & Ha).
  split; [exact (Hc 0%nat epochs_positive) | exact (Ha 1%nat)].
Defined.


(** *** The same network with a loss that is always 3, and with a loader
    that yields nothing *)

Definition constant_criterion (z p : Q) : Q := 3.

Definition no_batches (e : nat) : list (Q * Q) := [].

Definition two_batches : list (Q * Q) := [(1, 2); (3 # 2, 1 # 2)].

(** After two batches of loss 3 the log shows (1 - 0.81) * 3 = 0.57. *)
Lemma avg_loss_after_two_constant_batches :
  avg_loss _ _ _
    (run_batches Q flatten_start_dim1 constant_criterion Qplus Qmult item
       normalize_dim1 std_dim0 mean_fn Q unit backward sgd_step zero_grad
       (init Q Q unit net 0 tt) two_batches)
  == 57 # 100.
Proof.
  assert (H : Forall (fun x => x == 3)
                (batch_losses Q flatten_start_dim1 constant_criterion Qplus Qmult item
                   normalize_dim1 std_dim0 mean_fn Q unit backward sgd_step zero_grad
                   (init Q Q unit net 0 tt) two_batches)).
  { repeat constructor; vm_compute; reflexivity. }
  destruct (avg_loss_under_constant_loss Q flatten_start_dim1 constant_criterion
              Qplus Qmult item normalize_dim1 std_dim0 mean_fn Q unit backward
              sgd_step zero_grad (init Q Q unit net 0 tt) two_batches 3 H)
    as [_ H0].
  rewrite H0 by reflexivity. vm_compute. reflexivity.
Defined.

(** Nothing to train on: the network is returned as it was and the last
    line printed is that of epoch 49. *)
Lemma training_on_nothing :
  model _ _ _
    (Training.train Q flatten_start_dim1 criterion_fn Qplus Qmult item
       normalize_dim1 std_dim0 mean_fn Q unit backward sgd_step zero_grad
       math_sqrt no_batches net 0 tt)
  = net
  /\ map (tag_of Q)
       (trace _ _ _
          (Training.train Q flatten_start_dim1 criterion_fn Qplus Qmult item
             normalize_dim1 std_dim0 mean_fn Q unit backward sgd_step zero_grad
             math_sqrt no_batches net 0 tt))
     = map TPrint (seq 0 Config.epochs).
Proof.
  destruct (training_without_batches Q flatten_start_dim1 criterion_fn Qplus Qmult
              item normalize_dim1 std_dim0 mean_fn Q unit backward sgd_step zero_grad
              math_sqrt no_batches net 0 tt (fun e => eq_refl))
    as (Hm & _ & _ & _ & _ & Ht & _).
  split; [exact Hm | exact Ht].
Defined.

End TinyRun.

(** ** Cells 7 and 9: the datasets and the data loaders *)

Module Paths.
Import String.

(** [path_to_data]. *)
Definition path_to_data : string := "/datasets/sentinel-2-italy-v1/"%string.

(** [os.path.join(path_to_data, name)] for a relative [name]: the
    directory already ends in a separator. *)
Definition join (dir name : string) : string := (dir ++ name)%string.

End Paths.

Module Data.
Import Paths.

Definition fname : Type := String.string.

(** [torch.utils.data.DataLoader]'s batching of an already ordered list of
    samples: consecutive runs of [bs] samples, the last one possibly
    shorter.  The fuel is the number of samples, which is enough since a
    batch of the tutorial holds 128 samples. *)
Fixpoint chunks_fuel {A : Type} (fuel bs : nat) (l : list A) : list (list A) :=
  match fuel with
  | O => []
  | S fuel' =>
      match l with
      | [] => []
      | _ :: _ => firstn bs l :: chunks_fuel fuel' bs (skipn bs l)
      end
  end.

(** With [drop_last=True] a batch shorter than [bs] is not yielded. *)
Definition batches {A : Type} (bs : nat) (drop_last : bool) (l : list A) : list (list A) :=
  let cs := chunks_fuel (length l) bs l in
  if drop_last then filter (fun c => length c =? bs)%nat cs else cs.

Section Datasets.

(** A decoded image file. *)
Variable Img : Type.

(** The image files below a directory, with their names relative to it, in
    the order [LightlyDataset] indexes them. *)
Variable listdir : String.string -> list (fname * Img).

(** [RandomSampler]: the order in which epoch [e] visits the samples. *)
Variable shuffle : nat -> list (fname * Img) -> list (fname * Img).

Record LightlyDataset : Type := mkDataset {
  input_dir : String.string;
  has_transform : bool;
  samples : list (fname * Img)
}.

Definition lightly_dataset (dir : String.string) (tr : bool) : LightlyDataset :=
  mkDataset dir tr (listdir dir).

(** [dataset_train_simsiam = LightlyDataset(input_dir=path_to_data)]. *)
Definition dataset_train_simsiam : LightlyDataset := lightly_dataset path_to_data false.

(** [dataset_test = LightlyDataset(input_dir=path_to_data,
    transform=test_transforms)]. *)
Definition dataset_test : LightlyDataset := lightly_dataset path_to_data true.

(** The samples behind the batches of [dataloader_train_simsiam] in epoch
    [e] ([shuffle=True], [drop_last=True]), before [collate_fn] augments
    them into two views. *)
Definition dataloader_train_samples (e : nat) : list (list (fname * Img)) :=
  batches Config.batch_size true (shuffle e (samples dataset_train_simsiam)).

(** The samples behind the batches of [dataloader_test] ([shuffle=False],
    [drop_last=False]). *)
Definition dataloader_test_samples : list (list (fname * Img)) :=
  batches Config.batch_size false (samples dataset_test).

(** The samples that some batch of some training epoch contains. *)
Definition used_in_training (s : fname * Img) : Prop :=
  exists e b, (e < Config.epochs)%nat /\ In b (dataloader_train_samples e) /\ In s b.

(** The samples that some batch of the embedding loader contains. *)
Definition embedded (s : fname * Img) : Prop :=
  exists b, In b dataloader_test_samples /\ In s b.

(** The embedding loader a held-out split would give: nothing it yields
    was used in a training epoch. *)
Definition held_out : Prop := forall s, embedded s -> ~ used_in_training s.

(** *** Batching *)

Lemma concat_chunks_fuel {A : Type} (bs fuel : nat) (l : list A) :
  (0 < bs)%nat -> (length l <= fuel)%nat -> concat (chunks_fuel fuel bs l) = l.
Proof.
  intros Hbs. revert l. induction fuel as [|fuel IH]; intros l Hl.
  - destruct l; [reflexivity | simpl in Hl; lia].
  - destruct l as [|a l]; [reflexivity|].
    cbn [chunks_fuel concat]. rewrite IH.
    + apply firstn_skipn.
    + rewrite length_skipn. cbn [length] in *. lia.
Qed.

Lemma concat_batches_keep_last {A : Type} (bs : nat) (l : list A) :
  (0 < bs)%nat -> concat (batches bs false l) = l.
Proof. intros H. unfold batches. apply concat_chunks_fuel; [exact H | lia]. Qed.

Lemma in_batches {A : Type} (bs : nat) (d : bool) (l b : list A) (a : A) :
  (0 < bs)%nat -> In b (batches bs d l) -> In a b -> In a l.
Proof.
  intros Hbs Hb Ha.
  rewrite <- (concat_chunks_fuel bs (length l) l Hbs (le_n _)).
  apply in_concat. exists b. split; [|exact Ha].
  unfold batches in Hb. destruct d; [|exact Hb].
  apply filter_In in Hb. tauto.
Qed.

Lemma in_batches_keep_last {A : Type} (bs : nat) (l : list A) (a : A) :
  (0 < bs)%nat -> In a l -> exists b, In b (batches bs false l) /\ In a b.
Proof.
  intros Hbs Ha. rewrite <- (concat_batches_keep_last bs l Hbs) in Ha.
  apply in_concat in Ha. exact Ha.
Qed.

Lemma batch_size_positive : (0 < Config.batch_size)%nat.
Proof. unfold Config.batch_size. lia. Qed.

(** Both datasets list the same directory. *)
Lemma same_samples : samples dataset_test = samples dataset_train_simsiam.
Proof. reflexivity. Qed.

(** *** The shape of the batches *)

Lemma firstn_plus {A : Type} (a b : nat) (l : list A) :
  firstn (a + b) l = firstn a l ++ firstn b (skipn a l).
Proof.
  revert l. induction a as [|a IH]; intros l; [reflexivity|].
  destruct l as [|x l]; cbn; [now rewrite firstn_nil | now rewrite IH].
Qed.

Lemma div_mod_step (n bs : nat) :
  (0 < bs)%nat -> (bs <= n)%nat ->
  (n / bs = S ((n - bs) / bs) /\ n mod bs = (n - bs) mod bs)%nat.
Proof.
  intros Hbs Hle. replace n with ((n - bs) + 1 * bs)%nat at 1 3 by lia.
  rewrite Nat.div_add, Nat.Div0.mod_add by lia. lia.
Qed.

Lemma chunks_fuel_cons {A : Type} (bs fuel : nat) (a : A) (l : list A) :
  chunks_fuel (S fuel) bs (a :: l)
  = firstn bs (a :: l) :: chunks_fuel fuel bs (skipn bs (a :: l)).
Proof. reflexivity. Qed.

(** The sizes of the runs: [n / bs] full ones, then the remainder if there
    is one. *)
Definition run_sizes (n bs : nat) : list nat :=
  repeat bs (n / bs) ++ (if (n mod bs =? 0)%nat then [] else [(n mod bs)%nat]).

Lemma chunks_fuel_sizes {A : Type} (bs fuel : nat) (l : list A) :
  (0 < bs)%nat -> (length l <= fuel)%nat ->
  map (@length A) (chunks_fuel fuel bs l) = run_sizes (length l) bs.
Proof.
  intros Hbs. revert l. induction fuel as [|fuel IH]; intros l Hl.
  - destruct l; [|cbn in Hl; lia]. cbn. unfold run_sizes. cbn [length].
    rewrite Nat.Div0.div_0_l, Nat.Div0.mod_0_l. reflexivity.
  - destruct l as [|a l].
    + cbn. unfold run_sizes. cbn [length].
      rewrite Nat.Div0.div_0_l, Nat.Div0.mod_0_l. reflexivity.
    + rewrite chunks_fuel_cons. cbn [map].
      assert (Hpos : (0 < length (a :: l))%nat) by (cbn; lia).
      remember (a :: l) as l0 eqn:El0. clear El0.
      assert (Hfuel : (length (skipn bs l0) <= fuel)%nat).
      { rewrite length_skipn. lia. }
      rewrite (IH _ Hfuel), length_firstn, length_skipn.
      destruct (Nat.lt_ge_cases (length l0) bs) as [Hlt | Hge].
      * rewrite Nat.min_r by lia. replace (length l0 - bs)%nat with 0%nat by lia.
        unfold run_sizes. rewrite Nat.Div0.div_0_l, Nat.Div0.mod_0_l.
        rewrite (Nat.div_small _ _ Hlt), (Nat.mod_small _ _ Hlt).
        destruct (Nat.eqb_spec (length l0) 0); [lia|]. reflexivity.
      * rewrite Nat.min_l by lia.
        destruct (div_mod_step _ _ Hbs Hge) as [Hd Hm].
        unfold run_sizes. rewrite Hd, Hm. reflexivity.
Qed.

Lemma chunks_fuel_full_prefix {A : Type} (bs fuel : nat) (l : list A) :
  (0 < bs)%nat -> (length l <= fuel)%nat ->
  concat (filter (fun c => length c =? bs)%nat (chunks_fuel fuel bs l))
  = firstn (length l / bs * bs) l.
Proof.
  intros Hbs. revert l. induction fuel as [|fuel IH]; intros l Hl.
  - destruct l; [|cbn in Hl; lia]. cbn. now rewrite firstn_nil.
  - destruct l as [|a l]; [cbn; now rewrite firstn_nil|].
    rewrite chunks_fuel_cons. cbn [filter].
    assert (Hpos : (0 < length (a :: l))%nat) by (cbn; lia).
    remember (a :: l) as l0 eqn:El0. clear El0.
    assert (Hfuel : (length (skipn bs l0) <= fuel)%nat).
    { rewrite length_skipn. lia. }
    rewrite length_firstn.
    destruct (Nat.lt_ge_cases (length l0) bs) as [Hlt | Hge].
    + rewrite Nat.min_r by lia.
      destruct (Nat.eqb_spec (length l0) bs); [lia|].
      rewrite (IH _ Hfuel), length_skipn.
      replace (length l0 - bs)%nat with 0%nat by lia.
      rewrite Nat.Div0.div_0_l, (Nat.div_small _ _ Hlt). reflexivity.
    + rewrite Nat.min_l by lia. rewrite Nat.eqb_refl. cbn [concat].
      rewrite (IH _ Hfuel), length_skipn.
      destruct (div_mod_step _ _ Hbs Hge) as [Hd _]. rewrite Hd.
      cbn [Nat.mul]. now rewrite firstn_plus.
Qed.

Lemma filter_full_sizes (n bs : nat) :
  (0 < bs)%nat -> filter (fun k => k =? bs)%nat (run_sizes n bs) = repeat bs (n / bs).
Proof.
  intros Hbs. unfold run_sizes. rewrite filter_app.
  assert (Hfull : forall q, filter (fun k => k =? bs)%nat (repeat bs q) = repeat bs q).
  { induction q as [|q IH]; cbn; [reflexivity|]. now rewrite Nat.eqb_refl, IH. }
  rewrite Hfull. destruct (n mod bs =? 0)%nat; cbn; [now rewrite app_nil_r|].
  pose proof (Nat.mod_upper_bound n bs) as Hr.
  destruct (Nat.eqb_spec (n mod bs) bs); [lia|]. now rewrite app_nil_r.
Qed.

Lemma map_length_filter {A : Type} (bs : nat) (cs : list (list A)) :
  map (@length A) (filter (fun c => length c =? bs)%nat cs)
  = filter (fun k => k =? bs)%nat (map (@length A) cs).
Proof.
  induction cs as [|c cs IH]; [reflexivity|]. cbn.
  destruct (length c =? bs)%nat; cbn; now rewrite IH.
Qed.

(** With [drop_last=True]: [n / bs] batches of exactly [bs] samples, which
    together are the first [n / bs * bs] samples of the list. *)
Lemma batches_drop_last {A : Type} (bs : nat) (l : list A) :
  (0 < bs)%nat ->
  map (@length A) (batches bs true l) = repeat bs (length l / bs)
  /\ concat (batches bs true l) = firstn (length l / bs * bs) l.
Proof.
  intros Hbs. unfold batches. split.
  - rewrite map_length_filter, chunks_fuel_sizes by lia. now apply filter_full_sizes.
  - apply chunks_fuel_full_prefix; [exact Hbs | lia].
Qed.

(** The two facts for the training loader of epoch [e]. *)
Lemma train_loader_shape (e : nat) :
  (forall e l, Permutation l (shuffle e l)) ->
  map (@length _) (dataloader_train_samples e)
  = repeat Config.batch_size (length (samples dataset_train_simsiam) / Config.batch_size)
  /\ concat (dataloader_train_samples e)
     = firstn (length (samples dataset_train_simsiam) / Config.batch_size
               * Config.batch_size)
              (shuffle e (samples dataset_train_simsiam)).
Proof.
  intros Hperm. unfold dataloader_train_samples.
  rewrite (Permutation_length (Hperm e (samples dataset_train_simsiam))).
  apply batches_drop_last. apply batch_size_positive.
Qed.

(** A directory with at least one batch of images has a training batch in
    every epoch, and that batch is not empty. *)
Lemma some_sample_used (e : nat) :
  (forall e l, Permutation l (shuffle e l)) ->
  (Config.batch_size <= length (samples dataset_train_simsiam))%nat ->
  exists b s, In b (dataloader_train_samples e) /\ In s b.
Proof.
  intros Hperm Hn. destruct (train_loader_shape e Hperm) as [Hsz _].
  assert (Hq : (1 <= length (samples dataset_train_simsiam) / Config.batch_size)%nat).
  { apply Nat.div_le_lower_bound; [unfold Config.batch_size|]; lia. }
  destruct (length (samples dataset_train_simsiam) / Config.batch_size)%nat as [|q];
    [lia|].
  destruct (dataloader_train_samples e) as [|b bs]; [discriminate Hsz|].
  cbn [map repeat] in Hsz. injection Hsz as Hb _.
  destruct b as [|s b]; [discriminate Hb|].
  exists (s :: b), s. split; left; reflexivity.
Qed.

(** C6, as the code has it: the embedding loader is built on the directory
    the training loader is built on.  The two datasets hold the same
    samples, the embedding loader yields every one of them, and (the
    sampler permuting the samples) every sample used in a training epoch
    is embedded as well.  So the embedded data is disjoint from the
    training data only if no sample is used in training at all, which is
    not the case as soon as the directory holds one batch of images. *)
Theorem embedding_loader_covers_training_data :
  (forall e l, Permutation l (shuffle e l)) ->
  samples dataset_test = samples dataset_train_simsiam
  /\ input_dir dataset_test = input_dir dataset_train_simsiam
  /\ (forall s, In s (samples dataset_train_simsiam) -> embedded s)
  /\ (forall s, used_in_training s -> embedded s)
  /\ (held_out <-> forall s, ~ used_in_training s)
  /\ ((Config.batch_size <= length (samples dataset_train_simsiam))%nat -> ~ held_out).
Proof.
  intros Hperm.
  assert (Hall : forall s, In s (samples dataset_train_simsiam) -> embedded s).
  { intros s Hs. unfold embedded, dataloader_test_samples. rewrite same_samples.
    apply in_batches_keep_last; [apply batch_size_positive | exact Hs]. }
  assert (Hused : forall s, used_in_training s -> embedded s).
  { intros s (e & b & _ & Hb & Hs). apply Hall.
    apply (Permutation_in _ (Permutation_sym (Hperm e _))).
    exact (in_batches _ _ _ _ _ batch_size_positive Hb Hs). }
  assert (Hiff : held_out <-> forall s, ~ used_in_training s).
  { split.
    - intros Hh s Hs. exact (Hh s (Hused s Hs) Hs).
    - intros Hn s _. apply Hn. }
  split; [reflexivity|]. split; [reflexivity|]. split; [exact Hall|].
  split; [exact Hused|]. split; [exact Hiff|].
  intros Hn Hh. destruct (some_sample_used 0 Hperm Hn) as (b & s & Hb & Hs).
  apply (proj1 Hiff Hh s). exists 0%nat, b.
  split; [unfold Config.epochs; lia|]. split; assumption.
Qed.

(** X1: in every epoch the training loader (shuffle=True, drop_last=True)
    yields floor(N / 128) batches of exactly 128 samples each; together
    they are the first floor(N / 128) * 128 samples of that epoch's
    shuffled order, so N mod 128 samples are left out of the epoch, and if
    no sample is listed twice then no sample is used twice in the epoch. *)
Theorem train_loader_full_batches (e : nat) :
  (forall e l, Permutation l (shuffle e l)) ->
  let N := length (samples dataset_train_simsiam) in
  let bs := dataloader_train_samples e in
  Forall (fun b => length b = Config.batch_size) bs
  /\ length bs = (N / Config.batch_size)%nat
  /\ concat bs
     = firstn (N / Config.batch_size * Config.batch_size)
              (shuffle e (samples dataset_train_simsiam))
  /\ length (concat bs) = (N - N mod Config.batch_size)%nat
  /\ (NoDup (samples dataset_train_simsiam) -> NoDup (concat bs)).
Proof.
  intros Hperm. cbv zeta.
  destruct (train_loader_shape e Hperm) as [Hsz Hcat].
  set (l := shuffle e (samples dataset_train_simsiam)) in *.
  assert (Hlen : length l = length (samples dataset_train_simsiam)).
  { symmetry. apply Permutation_length. apply Hperm. }
  set (N := length (samples dataset_train_simsiam)) in *.
  assert (Hq : (N / Config.batch_size * Config.batch_size
                = N - N mod Config.batch_size)%nat).
  { pose proof (Nat.div_mod_eq N Config.batch_size). lia. }
  split; [|split; [|split; [|split]]].
  - apply Forall_forall. intros b Hb.
    assert (Hin : In (length b) (map (@length _) (dataloader_train_samples e)))
      by now apply in_map.
    rewrite Hsz in Hin. now apply repeat_spec in Hin.
  - rewrite <- (length_map (@length _)), Hsz. apply repeat_length.
  - exact Hcat.
  - rewrite Hcat, length_firstn, Hlen. lia.
  - intros Hnd. rewrite Hcat.
    assert (Hl : NoDup l) by (apply (Permutation_NoDup (Hperm e _)); exact Hnd).
    rewrite <- (firstn_skipn (N / Config.batch_size * Config.batch_size) l) in Hl.
    now apply NoDup_app_remove_r in Hl.
Qed.

(** X2: the embedding loader (shuffle=False, drop_last=False) yields
    floor(N / 128) batches of 128 samples and, when N is not a multiple of
    128, one last batch with the N mod 128 remaining samples; no batch is
    empty and the batches one after the other are the dataset in its own
    order. *)
Theorem test_loader_batches :
  let N := length (samples dataset_test) in
  map (@length _) dataloader_test_samples
  = repeat Config.batch_size (N / Config.batch_size)
    ++ (if (N mod Config.batch_size =? 0)%nat then [] else [(N mod Config.batch_size)%nat])
  /\ Forall (fun b => b <> []) dataloader_test_samples
  /\ concat dataloader_test_samples = samples dataset_test.
Proof.
  cbv zeta. unfold dataloader_test_samples, batches.
  pose proof (chunks_fuel_sizes Config.batch_size _ (samples dataset_test)
                batch_size_positive (le_n _)) as Hsz.
  split; [exact Hsz|]. split.
  - apply Forall_forall. intros b Hb ->.
    assert (Hin : In 0%nat (map (@length _)
                    (chunks_fuel (length (samples dataset_test)) Config.batch_size
                       (samples dataset_test))))
      by (change 0%nat with (length (@nil (fname * Img))); now apply in_map).
    rewrite Hsz in Hin. unfold run_sizes in Hin.
    apply in_app_or in Hin as [Hin | Hin].
    + apply repeat_spec in Hin. unfold Config.batch_size in Hin. lia.
    + destruct (Nat.eqb_spec (length (samples dataset_test) mod Config.batch_size) 0);
        [destruct Hin|]. destruct Hin as [Hin | []]. lia.
  - apply concat_chunks_fuel; [apply batch_size_positive | lia].
Qed.

(** X3: a directory with fewer than 128 images never trains: the training
    loader yields no batch in any epoch, while the embedding loader still
    yields all the images, in one batch. *)
Theorem small_dataset_has_no_training_batch :
  (forall e l, Permutation l (shuffle e l)) ->
  (length (samples dataset_train_simsiam) < Config.batch_size)%nat ->
  (forall e, dataloader_train_samples e = [])
  /\ (samples dataset_test <> [] -> dataloader_test_samples = [samples dataset_test]).
Proof.
  intros Hperm Hsmall. split.
  - intros e.
    destruct (train_loader_shape e Hperm) as [Hsz _].
    rewrite (Nat.div_small _ _ Hsmall) in Hsz. cbn in Hsz.
    now apply map_eq_nil in Hsz.
  - intros Hne. rewrite same_samples in *.
    unfold dataloader_test_samples, batches. rewrite same_samples.
    destruct (samples dataset_train_simsiam) as [|s l] eqn:E; [contradiction|].
    cbn [length chunks_fuel]. rewrite firstn_all2 by lia.
    rewrite skipn_all2 by lia. now destruct (length l).
Qed.

End Datasets.

Arguments input_dir {Img} _.
Arguments has_transform {Img} _.
Arguments samples {Img} _.

End Data.

(** ** Cell 17: embedding the dataset *)

Module Embedding.
Import Data.

(** [torch.cat(ts, dim=0)]: the rows of the tensors one after the other; an
    empty list of tensors is refused. *)
Definition torch_cat {A : Type} (ts : list (list A)) : option (list A) :=
  match ts with
  | [] => None
  | _ :: _ => Some (concat ts)
  end.

Section Loop.

Variable Img : Type.
Variable listdir : String.string -> list (fname * Img).

(** [X]: an image after [test_transforms]; [F]: what the backbone returns
    for it.  The loop runs after [model.eval()], where the ResNet maps
    every image of a batch on its own (batch normalisation uses its running
    statistics), so a batch is the list of its rows. *)
Variables X F : Type.
Variable test_transforms : Img -> X.
Variable backbone_eval : X -> F.
Variable flatten_row : F -> list Q.

(** One item of [dataloader_test]: the stacked images and their names. *)
Definition collate (b : list (fname * Img)) : list X * list fname :=
  (map (fun s => test_transforms (snd s)) b, map fst b).

Definition dataloader_test : list (list X * list fname) :=
  map collate (dataloader_test_samples Img listdir).

(** [model.backbone(x).flatten(start_dim=1)] for one image and for a
    batch. *)
Definition embed (x : X) : list Q := flatten_row (backbone_eval x).

Definition embed_batch (x : list X) : list (list Q) := map embed x.

(** The body of the loop: [embeddings.append(y)] and
    [filenames = filenames + list(fnames)]. *)
Definition embedding_step (acc : list (list (list Q)) * list fname)
  (b : list X * list fname) : list (list (list Q)) * list fname :=
  let y := embed_batch (fst b) in
  (fst acc ++ [y], snd acc ++ snd b).

Definition embedding_loop (loader : list (list X * list fname))
  : list (list (list Q)) * list fname :=
  fold_left embedding_step loader ([], []).

(** [embeddings = torch.cat(embeddings, dim=0)] and the final [filenames]. *)
Definition embeddings : option (list (list Q)) :=
  torch_cat (fst (embedding_loop dataloader_test)).

Definition filenames : list fname := snd (embedding_loop dataloader_test).

Lemma embedding_fold (loader : list (list X * list fname))
  (acc : list (list (list Q)) * list fname) :
  fold_left embedding_step loader acc
  = (fst acc ++ map (fun b => embed_batch (fst b)) loader,
     snd acc ++ concat (map snd loader)).
Proof.
  revert acc. induction loader as [|b loader IH]; intros acc.
  - cbn. rewrite !app_nil_r. now destruct acc.
  - cbn [fold_left]. rewrite IH. unfold embedding_step. cbn [fst snd map concat].
    now rewrite <- !app_assoc.
Qed.

Lemma loop_filenames : filenames = map fst (samples (dataset_test Img listdir)).
Proof.
  unfold filenames, embedding_loop. rewrite embedding_fold. cbn [snd app].
  unfold dataloader_test. rewrite map_map. cbn [collate snd].
  rewrite <- concat_map. unfold dataloader_test_samples.
  now rewrite concat_batches_keep_last by apply batch_size_positive.
Qed.

Lemma loop_embeddings :
  concat (fst (embedding_loop dataloader_test))
  = map (fun s => embed (test_transforms (snd s)))
        (samples (dataset_test Img listdir)).
Proof.
  unfold embedding_loop. rewrite embedding_fold. cbn [fst app].
  unfold dataloader_test. rewrite map_map. unfold embed_batch. cbn [collate fst].
  rewrite (map_ext _ (map (fun s => embed (test_transforms (snd s)))))
    by (intros b; apply map_map).
  rewrite <- concat_map. unfold dataloader_test_samples.
  now rewrite concat_batches_keep_last by apply batch_size_positive.
Qed.

Lemma torch_cat_some {A : Type} (ts : list (list A)) (E : list A) :
  torch_cat ts = Some E -> E = concat ts.
Proof. destruct ts; [discriminate|]. now intros [= <-]. Qed.

(** C4: once the loop and the concatenation have gone through, the two
    results are index-aligned with the dataset: they have the same length,
    [filenames[i]] is the name of the dataset's [i]-th image and
    [embeddings[i]] is the flattened backbone output of that image. *)
Theorem embeddings_filenames_aligned (E : list (list Q)) :
  embeddings = Some E ->
  length E = length filenames
  /\ filenames = map fst (samples (dataset_test Img listdir))
  /\ (forall i name,
        nth_error filenames i = Some name ->
        exists img,
          nth_error (samples (dataset_test Img listdir)) i = Some (name, img)
          /\ nth_error E i = Some (flatten_row (backbone_eval (test_transforms img)))).
Proof.
  intros HE. apply torch_cat_some in HE. rewrite loop_embeddings in HE. subst E.
  rewrite loop_filenames. split; [now rewrite !length_map|]. split; [reflexivity|].
  intros i name Hi. rewrite nth_error_map in Hi |- *.
  destruct (nth_error _ i) as [[n img]|]; [|discriminate].
  cbn in Hi. injection Hi as ->. exists img. split; reflexivity.
Qed.

End Loop.

End Embedding.

(** ** A directory of 130 tiles *)

Module TileNames.
Import String.

(** The name of tile [i]: tile_, the number in decimal, .png. *)
Definition tile_name (i : nat) : string :=
  ("tile_" ++ DecimalString.NilEmpty.string_of_uint (Nat.to_uint i) ++ ".png")%string.

End TileNames.

Module TinyData.
Import Data Embedding TileNames.

(** Images are identified by their number. *)
Definition listdir (dir : String.string) : list (fname * nat) :=
  if String.eqb dir Paths.path_to_data
  then map (fun i => (tile_name i, i)) (seq 0 130)
  else [].

(** A sampler that visits the samples back to front in every epoch. *)
Definition shuffle (e : nat) (l : list (fname * nat)) : list (fname * nat) := rev l.

Definition test_transforms (i : nat) : nat := i.
Definition backbone_eval (i : nat) : nat := i * i.
Definition flatten_row (f : nat) : list Q := [inject_Z (Z.of_nat f); 1].

Definition embeddings : option (list (list Q)) :=
  Embedding.embeddings nat listdir nat nat test_transforms backbone_eval flatten_row.

Definition filenames : list fname :=
  Embedding.filenames nat listdir nat nat test_transforms backbone_eval flatten_row.

Lemma shuffle_permutes (e : nat) (l : list (fname * nat)) : Permutation l (shuffle e l).
Proof. apply Permutation_rev. Qed.

(** The training loader yields one batch per epoch (tiles 129 down to 2),
    the embedding loader two (tiles 0 to 127 and tiles 128, 129). *)
Lemma loader_shapes :
  map (@length _) (dataloader_train_samples nat listdir shuffle 0) = [128%nat]
  /\ map (@length _) (dataloader_test_samples nat listdir) = [128%nat; 2%nat].
Proof. split; vm_compute; reflexivity. Qed.

Lemma tile_5_used_in_training : used_in_training nat listdir shuffle (tile_name 5, 5%nat).
Proof.
  exists 0%nat, (firstn 128 (rev (listdir Paths.path_to_data))).
  split; [unfold Config.epochs; lia|]. split.
  - vm_compute. left. reflexivity.
  - apply (nth_error_In _ 124). vm_compute. reflexivity.
Qed.

Lemma tile_5_embedded : embedded nat listdir (tile_name 5, 5%nat).
Proof.
  exists (firstn 128 (listdir Paths.path_to_data)). split.
  - vm_compute. left. reflexivity.
  - apply (nth_error_In _ 5). vm_compute. reflexivity.
Qed.

(** The embedding loader of this directory is not held out from training:
    tile 5 is in the one training batch of epoch 0 and in the first batch
    of the embedding loader. *)
Lemma embedding_loader_not_held_out : ~ held_out nat listdir shuffle.
Proof.
  intros H. apply (H (tile_name 5, 5%nat)).
  - apply tile_5_embedded.
  - apply tile_5_used_in_training.
Qed.

(** Every tile of a training batch is embedded, tile 129 for one. *)
Lemma training_tiles_are_embedded :
  samples (dataset_test nat listdir) = samples (dataset_train_simsiam nat listdir)
  /\ (forall s, used_in_training nat listdir shuffle s -> embedded nat listdir s).
Proof.
  destruct (embedding_loader_covers_training_data nat listdir shuffle shuffle_permutes)
    as (Hs & _ & _ & Hu & _).
  split; [exact Hs | exact Hu].
Defined.

(** Row 129 of the embeddings belongs to ["tile_129.png"], the second image
    of the second batch: 129 * 129 = 16641. *)
Lemma aligned_at_129 :
  exists E,
    embeddings = Some E
    /\ length E = 130%nat
    /\ nth_error filenames 129 = Some (tile_name 129)
    /\ nth_error E 129 = Some [16641; 1].
Proof.
  destruct embeddings as [E|] eqn:HE; [|vm_compute in HE; discriminate].
  exists E. split; [reflexivity|].
  destruct (embeddings_filenames_aligned nat listdir nat nat test_transforms
              backbone_eval flatten_row E HE) as (Hlen & Hf & Hi).
  assert (Hn : nth_error filenames 129 = Some (tile_name 129))
    by (vm_compute; reflexivity).
  split; [rewrite Hlen; vm_compute; reflexivity|]. split; [exact Hn|].
  destruct (Hi 129%nat _ Hn) as (img & Himg & Hrow).
  rewrite Hrow. vm_compute in Himg. injection Himg as <-. reflexivity.
Defined.


(** Of the 130 tiles, 128 are used in an epoch, in one batch. *)
Lemma one_full_batch_of_130 :
  length (dataloader_train_samples nat listdir shuffle 7) = 1%nat
  /\ length (concat (dataloader_train_samples nat listdir shuffle 7)) = 128%nat.
Proof.
  destruct (train_loader_full_batches nat listdir shuffle 7 shuffle_permutes)
    as (_ & Hn & _ & Hc & _).
  split; [rewrite Hn | rewrite Hc]; reflexivity.
Defined.

(** A directory with three tiles only. *)
Definition listdir_3 (dir : String.string) : list (fname * nat) :=
  map (fun i => (tile_name i, i)) (seq 0 3).

Lemma three_tiles_never_train :
  (forall e, dataloader_train_samples nat listdir_3 shuffle e = [])
  /\ dataloader_test_samples nat listdir_3 = [listdir_3 Paths.path_to_data].
Proof.
  destruct (small_dataset_has_no_training_batch nat listdir_3 shuffle shuffle_permutes)
    as [Htrain Htest].
  - unfold Config.batch_size. cbn. lia.
  - split; [exact Htrain|]. apply Htest. discriminate.
Defined.

End TinyData.

(** ** Cell 21: rescaling the projected embeddings to the unit square *)

Module Rescale.

(** A numpy float: a finite number or one of the special values. *)
Inductive npfloat : Type :=
| Finite (q : Q)
| PosInf
| NegInf
| NaN.

(** numpy's [a / b] on finite floats.  A zero divisor raises nothing: the
    entry becomes [nan] (0 / 0) or a signed infinity, with a
    RuntimeWarning. *)
Definition np_divide (a b : Q) : npfloat :=
  if Qeq_bool b 0 then
    if Qeq_bool a 0 then NaN
    else if Qlt_le_dec 0 a then PosInf else NegInf
  else Finite (a / b).

(** The two columns of an [(n, 2)] array. *)
Inductive axis : Type := Ax0 | Ax1.

Definition coord (k : axis) (p : Q * Q) : Q :=
  match k with Ax0 => fst p | Ax1 => snd p end.

Definition ncoord (k : axis) (p : npfloat * npfloat) : npfloat :=
  match k with Ax0 => fst p | Ax1 => snd p end.

Definition maximum (x : Q) (xs : list Q) : Q := fold_left Qmax xs x.
Definition minimum (x : Q) (xs : list Q) : Q := fold_left Qmin xs x.

(** [np.max(a, axis=0)] and [np.min(a, axis=0)]; an array without rows has
    no maximum ([None]: ValueError). *)
Definition np_max_axis0 (a : list (Q * Q)) : option (Q * Q) :=
  match a with
  | [] => None
  | p :: ps => Some (maximum (fst p) (map fst ps), maximum (snd p) (map snd ps))
  end.

Definition np_min_axis0 (a : list (Q * Q)) : option (Q * Q) :=
  match a with
  | [] => None
  | p :: ps => Some (minimum (fst p) (map fst ps), minimum (snd p) (map snd ps))
  end.

(** [(embeddings_2d - m) / (M - m)] with [M] and [m] broadcast over the
    rows. *)
Definition normalize_rows (a : list (Q * Q)) (M m : Q * Q) : list (npfloat * npfloat) :=
  map (fun p => (np_divide (fst p - fst m) (fst M - fst m),
                 np_divide (snd p - snd m) (snd M - snd m))) a.

(** The three lines of the cell. *)
Definition rescale (embeddings_2d : list (Q * Q)) : option (list (npfloat * npfloat)) :=
  match np_max_axis0 embeddings_2d, np_min_axis0 embeddings_2d with
  | Some M, Some m => Some (normalize_rows embeddings_2d M m)
  | _, _ => None
  end.

(** *** Column extrema *)

Lemma maximum_upper (x : Q) (xs : list Q) :
  forall y, In y (x :: xs) -> y <= maximum x xs.
Proof.
  unfold maximum. revert x. induction xs as [|a xs IH]; intros x y Hy.
  - destruct Hy as [<- | []]. apply Qle_refl.
  - cbn [fold_left]. destruct Hy as [<- | [<- | Hy]].
    + eapply Qle_trans; [apply Q.le_max_l | apply IH; now left].
    + eapply Qle_trans; [apply Q.le_max_r | apply IH; now left].
    + apply IH. now right.
Qed.

Lemma minimum_lower (x : Q) (xs : list Q) :
  forall y, In y (x :: xs) -> minimum x xs <= y.
Proof.
  unfold minimum. revert x. induction xs as [|a xs IH]; intros x y Hy.
  - destruct Hy as [<- | []]. apply Qle_refl.
  - cbn [fold_left]. destruct Hy as [<- | [<- | Hy]].
    + eapply Qle_trans; [apply IH; now left | apply Q.le_min_l].
    + eapply Qle_trans; [apply IH; now left | apply Q.le_min_r].
    + apply IH. now right.
Qed.

Lemma Qmax_cases (a b : Q) : Qmax a b = a \/ Qmax a b = b.
Proof. unfold Qmax, GenericMinMax.gmax. destruct (a ?= b); auto. Qed.

Lemma Qmin_cases (a b : Q) : Qmin a b = a \/ Qmin a b = b.
Proof. unfold Qmin, GenericMinMax.gmin. destruct (a ?= b); auto. Qed.

Lemma maximum_attained (x : Q) (xs : list Q) : In (maximum x xs) (x :: xs).
Proof.
  unfold maximum. revert x. induction xs as [|a xs IH]; intros x; [now left|].
  cbn [fold_left]. destruct (IH (Qmax x a)) as [H | H].
  - rewrite <- H. destruct (Qmax_cases x a) as [E | E]; rewrite E; cbn; auto.
  - right. now right.
Qed.

Lemma minimum_attained (x : Q) (xs : list Q) : In (minimum x xs) (x :: xs).
Proof.
  unfold minimum. revert x. induction xs as [|a xs IH]; intros x; [now left|].
  cbn [fold_left]. destruct (IH (Qmin x a)) as [H | H].
  - rewrite <- H. destruct (Qmin_cases x a) as [E | E]; rewrite E; cbn; auto.
  - right. now right.
Qed.

(** *** The division *)

Lemma np_divide_pos (a b : Q) : 0 < b -> np_divide a b = Finite (a / b).
Proof.
  intros Hb. unfold np_divide.
  destruct (Qeq_bool b 0) eqn:E; [|reflexivity].
  apply Qeq_bool_iff in E. lra.
Qed.

Lemma np_divide_zero_zero (a b : Q) : a == 0 -> b == 0 -> np_divide a b = NaN.
Proof.
  intros Ha Hb. unfold np_divide.
  apply Qeq_bool_iff in Ha, Hb. now rewrite Ha, Hb.
Qed.

Lemma quotient_in_unit (a b : Q) : 0 < b -> 0 <= a <= b -> 0 <= a / b <= 1.
Proof.
  intros Hb [H0 H1]. split.
  - apply Qle_shift_div_l; [exact Hb | lra].
  - apply Qle_shift_div_r; [exact Hb | lra].
Qed.

Lemma quotient_zero (a b : Q) : a == 0 -> a / b == 0.
Proof. intros ->. unfold Qdiv. ring. Qed.

Lemma quotient_one (a b : Q) : 0 < b -> a == b -> a / b == 1.
Proof. intros Hb ->. apply Qmult_inv_r. lra. Qed.

Definition in_unit (v : npfloat) : Prop :=
  match v with Finite q => 0 <= q <= 1 | _ => False end.

Definition is_value (c : Q) (v : npfloat) : Prop :=
  match v with Finite q => q == c | _ => False end.

(** *** Rows and columns *)

Lemma ncoord_normalize_rows (a : list (Q * Q)) (M m : Q * Q) (r : npfloat * npfloat) :
  In r (normalize_rows a M m) ->
  exists p, In p a
    /\ forall k, ncoord k r = np_divide (coord k p - coord k m) (coord k M - coord k m).
Proof.
  unfold normalize_rows. intros H. apply in_map_iff in H as (p & <- & Hp).
  exists p. split; [exact Hp|]. intros [|]; reflexivity.
Qed.

Lemma in_normalize_rows (a : list (Q * Q)) (M m p : Q * Q) :
  In p a ->
  exists r, In r (normalize_rows a M m)
    /\ forall k, ncoord k r = np_divide (coord k p - coord k m) (coord k M - coord k m).
Proof.
  intros Hp. eexists. split; [apply in_map; exact Hp|]. intros [|]; reflexivity.
Qed.

Lemma max_axis0_spec (a : list (Q * Q)) (M : Q * Q) (k : axis) :
  np_max_axis0 a = Some M ->
  (forall p, In p a -> coord k p <= coord k M)
  /\ exists p, In p a /\ coord k p = coord k M.
Proof.
  destruct a as [|p0 ps]; [discriminate|]. intros [= <-].
  assert (E : coord k (maximum (fst p0) (map fst ps), maximum (snd p0) (map snd ps))
              = maximum (coord k p0) (map (coord k) ps)) by now destruct k.
  rewrite E. split.
  - intros p Hp. apply maximum_upper. change (In (coord k p) (map (coord k) (p0 :: ps))).
    now apply in_map.
  - pose proof (maximum_attained (coord k p0) (map (coord k) ps)) as H.
    change (In (maximum (coord k p0) (map (coord k) ps)) (map (coord k) (p0 :: ps))) in H.
    apply in_map_iff in H as (p & Hp & Hin). now exists p.
Qed.

Lemma min_axis0_spec (a : list (Q * Q)) (m : Q * Q) (k : axis) :
  np_min_axis0 a = Some m ->
  (forall p, In p a -> coord k m <= coord k p)
  /\ exists p, In p a /\ coord k p = coord k m.
Proof.
  destruct a as [|p0 ps]; [discriminate|]. intros [= <-].
  assert (E : coord k (minimum (fst p0) (map fst ps), minimum (snd p0) (map snd ps))
              = minimum (coord k p0) (map (coord k) ps)) by now destruct k.
  rewrite E. split.
  - intros p Hp. apply minimum_lower. change (In (coord k p) (map (coord k) (p0 :: ps))).
    now apply in_map.
  - pose proof (minimum_attained (coord k p0) (map (coord k) ps)) as H.
    change (In (minimum (coord k p0) (map (coord k) ps)) (map (coord k) (p0 :: ps))) in H.
    apply in_map_iff in H as (p & Hp & Hin). now exists p.
Qed.

(** C8: the rescaling divides every entry by the range [M - m] of its
    axis, with no test on the divisor.  For an array with at least one row
    ([M] and [m] exist): if on both axes the maximum is strictly above the
    minimum, every rescaled coordinate is a number in [0, 1], and on each
    axis some row has exactly 0 and some row exactly 1; if on some axis the
    maximum equals the minimum, the divisor of that axis is 0 and every
    entry of that axis is the result of 0 / 0. *)
Theorem rescale_unit_square_or_zero_division (embeddings_2d : list (Q * Q)) (M m : Q * Q) :
  np_max_axis0 embeddings_2d = Some M ->
  np_min_axis0 embeddings_2d = Some m ->
  let rescaled := normalize_rows embeddings_2d M m in
  rescale embeddings_2d = Some rescaled
  /\ (forall r, In r rescaled ->
        exists p, In p embeddings_2d
          /\ forall k, ncoord k r = np_divide (coord k p - coord k m) (coord k M - coord k m))
  /\ ((forall k, coord k m < coord k M) ->
        (forall r k, In r rescaled -> in_unit (ncoord k r))
        /\ (forall k, exists r, In r rescaled /\ is_value 0 (ncoord k r))
        /\ (forall k, exists r, In r rescaled /\ is_value 1 (ncoord k r)))
  /\ (forall k, coord k M == coord k m ->
        coord k M - coord k m == 0
        /\ forall r, In r rescaled -> ncoord k r = NaN).
Proof.
  intros HM Hm. cbv zeta.
  split; [unfold rescale; now rewrite HM, Hm|].
  split; [apply ncoord_normalize_rows|]. split.
  - intros Hrange. split; [|split].
    + intros r k Hr. apply ncoord_normalize_rows in Hr as (p & Hp & Hk).
      rewrite Hk, np_divide_pos by (specialize (Hrange k); lra).
      apply quotient_in_unit; [specialize (Hrange k); lra|].
      pose proof (proj1 (max_axis0_spec _ _ k HM) p Hp).
      pose proof (proj1 (min_axis0_spec _ _ k Hm) p Hp). lra.
    + intros k. destruct (proj2 (min_axis0_spec _ _ k Hm)) as (p & Hp & E).
      destruct (in_normalize_rows _ M m p Hp) as (r & Hr & Hk).
      exists r. split; [exact Hr|].
      rewrite Hk, np_divide_pos by (specialize (Hrange k); lra).
      apply quotient_zero. rewrite E. ring.
    + intros k. destruct (proj2 (max_axis0_spec _ _ k HM)) as (p & Hp & E).
      destruct (in_normalize_rows _ M m p Hp) as (r & Hr & Hk).
      exists r. split; [exact Hr|].
      rewrite Hk, np_divide_pos by (specialize (Hrange k); lra).
      apply quotient_one; [specialize (Hrange k); lra|]. rewrite E. reflexivity.
  - intros k Heq. split; [lra|].
    intros r Hr. apply ncoord_normalize_rows in Hr as (p & Hp & Hk).
    rewrite Hk. apply np_divide_zero_zero; [|lra].
    pose proof (proj1 (max_axis0_spec _ _ k HM) p Hp).
    pose proof (proj1 (min_axis0_spec _ _ k Hm) p Hp). lra.
Qed.

(** A single embedding: both ranges are 0 and both coordinates become
    [nan]. *)
Lemma rescale_single_row (x y : Q) : rescale [(x, y)] = Some [(NaN, NaN)].
Proof.
  unfold rescale, normalize_rows. cbn [np_max_axis0 np_min_axis0 map fst snd maximum minimum fold_left].
  rewrite !np_divide_zero_zero by ring. reflexivity.
Qed.

(** An array without rows has no maximum. *)
Lemma rescale_no_rows : rescale [] = None.
Proof. reflexivity. Qed.

(** Three projected points. *)
Definition three_points : list (Q * Q) := [(1, 5); (3, 2); (2, 8)].

Lemma rescale_three_points :
  rescale three_points
  = Some (normalize_rows three_points (3, 8) (1, 2))
  /\ (forall r k, In r (normalize_rows three_points (3, 8) (1, 2)) -> in_unit (ncoord k r))
  /\ ncoord Ax0 (nth 0 (normalize_rows three_points (3, 8) (1, 2)) (NaN, NaN)) = Finite (0 / 2)
  /\ ncoord Ax1 (nth 2 (normalize_rows three_points (3, 8) (1, 2)) (NaN, NaN)) = Finite (6 / 6).
Proof.
  destruct (rescale_unit_square_or_zero_division three_points (3, 8) (1, 2)
              eq_refl eq_refl) as (Hr & _ & Hin & _).
  split; [exact Hr|]. split.
  - apply Hin. intros [|]; cbn; lra.
  - split; reflexivity.
Defined.


(** *** One axis at a time *)

Lemma quotient_monotone (a b d : Q) : 0 < d -> a <= b -> a / d <= b / d.
Proof.
  intros Hd Hab. unfold Qdiv. apply Qmult_le_compat_r; [exact Hab|].
  apply Qinv_le_0_compat. lra.
Qed.

(** X9: the axes are rescaled independently of each other.  On an axis
    whose maximum is strictly above its minimum, every rescaled coordinate
    is a number in [0, 1] whatever happens on the other axis, the order of
    the points along that axis is kept, and no row is added or lost. *)
Theorem rescale_axis_in_unit_and_monotone
  (embeddings_2d : list (Q * Q)) (M m : Q * Q) (k : axis) :
  np_max_axis0 embeddings_2d = Some M ->
  np_min_axis0 embeddings_2d = Some m ->
  coord k m < coord k M ->
  let rescaled := normalize_rows embeddings_2d M m in
  length rescaled = length embeddings_2d
  /\ (forall r, In r rescaled -> in_unit (ncoord k r))
  /\ (forall i j p q,
        nth_error embeddings_2d i = Some p ->
        nth_error embeddings_2d j = Some q ->
        coord k p <= coord k q ->
        exists a b,
          option_map (ncoord k) (nth_error rescaled i) = Some (Finite a)
          /\ option_map (ncoord k) (nth_error rescaled j) = Some (Finite b)
          /\ a <= b).
Proof.
  intros HM Hm Hk. cbv zeta. split; [apply length_map|]. split.
  - intros r Hr. apply ncoord_normalize_rows in Hr as (p & Hp & Hr).
    rewrite Hr, np_divide_pos by lra. apply quotient_in_unit; [lra|].
    pose proof (proj1 (max_axis0_spec _ _ k HM) p Hp).
    pose proof (proj1 (min_axis0_spec _ _ k Hm) p Hp). lra.
  - intros i j p q Hi Hj Hpq.
    exists ((coord k p - coord k m) / (coord k M - coord k m)),
           ((coord k q - coord k m) / (coord k M - coord k m)).
    unfold normalize_rows. rewrite !nth_error_map, Hi, Hj. cbn [option_map].
    assert (Hc : forall t : Q * Q,
               ncoord k (np_divide (fst t - fst m) (fst M - fst m),
                         np_divide (snd t - snd m) (snd M - snd m))
               = Finite ((coord k t - coord k m) / (coord k M - coord k m))).
    { intros t. rewrite <- np_divide_pos by lra. now destruct k. }
    rewrite !Hc. split; [reflexivity|]. split; [reflexivity|].
    apply quotient_monotone; lra.
Qed.

(** Points on the line y = 7: the second axis is degenerate, the first is
    rescaled all the same. *)
Lemma rescale_points_on_a_line :
  length (normalize_rows [(1, 7); (3, 7); (2, 7)] (3, 7) (1, 7)) = 3%nat
  /\ (forall r, In r (normalize_rows [(1, 7); (3, 7); (2, 7)] (3, 7) (1, 7)) ->
                in_unit (ncoord Ax0 r)).
Proof.
  destruct (rescale_axis_in_unit_and_monotone
              [(1, 7); (3, 7); (2, 7)] (3, 7) (1, 7) Ax0
              eq_refl eq_refl ltac:(cbn; lra)) as (Hlen & Hunit & _).
  split; [exact Hlen | exact Hunit].
Defined.

End Rescale.

(** ** Cell 23: the scatter plot with thumbnails *)

Module Scatter.
Import Rescale.

(** [2e-3]. *)
Definition min_dist : Q := 2 # 1000.

(** The sentinel row [[1., 1.]] that [shown_images] starts with. *)
Definition sentinel : Q * Q := (1, 1).

(** One entry of [np.sum((p - shown_images) ** 2, 1)]. *)
Definition sq_dist (p s : Q * Q) : Q :=
  (fst p - fst s) * (fst p - fst s) + (snd p - snd s) * (snd p - snd s).

(** [np.min(dist) < 2e-3].  [shown_images] always holds the sentinel, so
    [dist] is never empty. *)
Definition too_close (p : Q * Q) (shown_images : list (Q * Q)) : bool :=
  match map (sq_dist p) shown_images with
  | [] => false
  | d :: ds => if Qlt_le_dec (minimum d ds) min_dist then true else false
  end.

Section Plot.

Variable embeddings_2d : list (Q * Q).

(** [np.random.shuffle(iterator)]: the order in which the images are
    tried. *)
Variable shuffle : list nat -> list nat.

(** [embeddings_2d[i]]; the loop only meets indices below the number of
    rows. *)
Definition row (i : nat) : Q * Q := nth i embeddings_2d (0, 0).

(** The body of the selection loop, on the pair
    [(shown_images, shown_images_idx)]. *)
Definition select_step (st : list (Q * Q) * list nat) (i : nat) : list (Q * Q) * list nat :=
  if too_close (row i) (fst st) then st
  else (fst st ++ [row i], snd st ++ [i]).

Definition select (iterator : list nat) : list (Q * Q) * list nat :=
  fold_left select_step iterator ([sentinel], []).

(** The first half of [get_scatter_plot_with_thumbnails]: the indices of
    the images to show. *)
Definition shown_images_idx : list nat :=
  snd (select (shuffle (seq 0 (length embeddings_2d)))).


(** *** The invariant of the selection loop *)

Definition far (p s : Q * Q) : Prop := min_dist <= sq_dist p s.

Definition spread (st : list (Q * Q) * list nat) : Prop :=
  fst st = sentinel :: map row (snd st)
  /\ ForallOrdPairs (fun j i => far (row i) (row j)) (snd st)
  /\ Forall (fun i => far (row i) sentinel) (snd st).



Lemma too_close_false (p : Q * Q) (shown : list (Q * Q)) :
  too_close p shown = false -> forall s, In s shown -> far p s.
Proof.
  unfold too_close, far. destruct (map (sq_dist p) shown) as [|d ds] eqn:E.
  - destruct shown; [intros _ s []|discriminate].
  - destruct (Qlt_le_dec (minimum d ds) min_dist) as [|Hle]; [discriminate|].
    intros _ s Hs. eapply Qle_trans; [exact Hle|].
    apply minimum_lower. rewrite <- E. now apply in_map.
Qed.

Lemma too_close_true (p : Q * Q) (shown : list (Q * Q)) (s : Q * Q) :
  In s shown -> sq_dist p s < min_dist -> too_close p shown = true.
Proof.
  intros Hs Hlt. destruct (too_close p shown) eqn:E; [reflexivity|].
  pose proof (too_close_false _ _ E s Hs) as H. unfold far in H. lra.
Qed.

Lemma ForallOrdPairs_snoc {A : Type} (R : A -> A -> Prop) (l : list A) (a : A) :
  ForallOrdPairs R l -> Forall (fun x => R x a) l -> ForallOrdPairs R (l ++ [a]).
Proof.
  induction 1 as [|x l Hx Hl IH]; intros Ha.
  - repeat constructor.
  - cbn. inversion Ha; subst. constructor.
    + apply Forall_app. split; [exact Hx | now repeat constructor].
    + now apply IH.
Qed.

Lemma select_step_spread (st : list (Q * Q) * list nat) (i : nat) :
  spread st -> spread (select_step st i).
Proof.
  intros (Hs & Hp & Hf). unfold select_step.
  destruct (too_close (row i) (fst st)) eqn:E; [now repeat split|].
  pose proof (too_close_false _ _ E) as Hfar. rewrite Hs in Hfar.
  unfold spread. cbn [fst snd]. split; [|split].
  - rewrite Hs, map_app. reflexivity.
  - apply ForallOrdPairs_snoc; [exact Hp|].
    apply Forall_forall. intros j Hj. apply Hfar. right. now apply in_map.
  - apply Forall_app. split; [exact Hf|]. constructor; [|constructor].
    apply Hfar. now left.
Qed.

Lemma fold_select_spread (iterator : list nat) (st : list (Q * Q) * list nat) :
  spread st -> spread (fold_left select_step iterator st).
Proof.
  revert st. induction iterator as [|i it IH]; intros st H; [exact H|].
  apply IH. now apply select_step_spread.
Qed.

Lemma select_spread (iterator : list nat) : spread (select iterator).
Proof.
  apply fold_select_spread. unfold spread. cbn. repeat split; constructor.
Qed.

(** Every selected index comes from the iterator. *)
Lemma fold_select_incl (iterator : list nat) (st : list (Q * Q) * list nat) (i : nat) :
  In i (snd (fold_left select_step iterator st)) -> In i (snd st) \/ In i iterator.
Proof.
  revert st. induction iterator as [|j it IH]; intros st H; [now left|].
  cbn [fold_left] in H. apply IH in H as [H | H]; [|right; now right].
  unfold select_step in H. destruct (too_close (row j) (fst st)); [now left|].
  cbn [snd] in H. apply in_app_or in H as [H | [<- | []]]; [now left|right; now left].
Qed.


(** The selection does not depend on how the shuffle orders ties or on the
    array being rescaled: the same bounds hold for any list of indices. *)
Lemma select_any_iterator (iterator : list nat) :
  ForallOrdPairs (fun j i => min_dist <= sq_dist (row i) (row j)) (snd (select iterator))
  /\ Forall (fun i => min_dist <= sq_dist (row i) sentinel) (snd (select iterator)).
Proof. destruct (select_spread iterator) as (_ & Hp & Hf). split; assumption. Qed.


(** *** What is hidden, and that nothing is shown twice *)

Lemma too_close_witness (p : Q * Q) (shown : list (Q * Q)) :
  too_close p shown = true -> exists s, In s shown /\ sq_dist p s < min_dist.
Proof.
  unfold too_close. destruct (map (sq_dist p) shown) as [|d ds] eqn:E; [discriminate|].
  destruct (Qlt_le_dec (minimum d ds) min_dist) as [Hlt|]; [|discriminate].
  intros _. pose proof (minimum_attained d ds) as Hin. rewrite <- E in Hin.
  apply in_map_iff in Hin as (s & Hs & Hin). exists s. split; [exact Hin|].
  now rewrite Hs.
Qed.

Lemma select_step_keeps (st : list (Q * Q) * list nat) (i : nat) (s : Q * Q) :
  In s (fst st) -> In s (fst (select_step st i)).
Proof.
  intros H. unfold select_step. destruct (too_close (row i) (fst st)); [exact H|].
  cbn [fst]. apply in_or_app. now left.
Qed.

Lemma fold_select_keeps (iterator : list nat) (st : list (Q * Q) * list nat) (s : Q * Q) :
  In s (fst st) -> In s (fst (fold_left select_step iterator st)).
Proof.
  revert st. induction iterator as [|i it IH]; intros st H; [exact H|].
  apply IH. now apply select_step_keeps.
Qed.

Lemma fold_select_keeps_idx (iterator : list nat) (st : list (Q * Q) * list nat) (j : nat) :
  In j (snd st) -> In j (snd (fold_left select_step iterator st)).
Proof.
  revert st. induction iterator as [|i it IH]; intros st H; [exact H|].
  apply IH. unfold select_step. destruct (too_close (row i) (fst st)); [exact H|].
  cbn [snd]. apply in_or_app. now left.
Qed.

(** Every index that was tried is shown, or is close to a shown point. *)
Lemma fold_select_covers (iterator : list nat) (st : list (Q * Q) * list nat) (i : nat) :
  In i iterator ->
  In i (snd (fold_left select_step iterator st))
  \/ exists s, In s (fst (fold_left select_step iterator st))
               /\ sq_dist (row i) s < min_dist.
Proof.
  revert st. induction iterator as [|j it IH]; intros st Hi; [destruct Hi|].
  destruct Hi as [<- | Hi]; [|now apply IH].
  cbn [fold_left].
  assert (Hstep : In j (snd (select_step st j))
                  \/ exists s, In s (fst (select_step st j))
                               /\ sq_dist (row j) s < min_dist).
  { unfold select_step. destruct (too_close (row j) (fst st)) eqn:E.
    - right. now apply too_close_witness.
    - left. cbn [snd]. apply in_or_app. right. now left. }
  destruct Hstep as [Hin | (s & Hs & Hlt)].
  - left. now apply fold_select_keeps_idx.
  - right. exists s. split; [now apply fold_select_keeps | exact Hlt].
Qed.

Lemma min_dist_positive : 0 < min_dist.
Proof. unfold min_dist. reflexivity. Qed.

Lemma sq_dist_same (p : Q * Q) : sq_dist p p == 0.
Proof. unfold sq_dist. ring. Qed.

Lemma spread_nodup (l : list nat) :
  ForallOrdPairs (fun j i => far (row i) (row j)) l -> NoDup l.
Proof.
  induction 1 as [|j l Hj Hl IH]; constructor; [|exact IH].
  intros Hin. rewrite Forall_forall in Hj. specialize (Hj j Hin).
  unfold far in Hj. rewrite sq_dist_same in Hj.
  pose proof min_dist_positive. lra.
Qed.

(** X10: the selection hides an image only for a reason: every image that
    is not shown lies at squared distance below 2e-3 from the corner
    (1, 1) or from an image that is shown. *)
Theorem hidden_images_are_close (i : nat) :
  (forall l, Permutation l (shuffle l)) ->
  (i < length embeddings_2d)%nat ->
  ~ In i shown_images_idx ->
  sq_dist (row i) sentinel < min_dist
  \/ exists j, In j shown_images_idx /\ sq_dist (row i) (row j) < min_dist.
Proof.
  intros Hperm Hi Hnot. unfold shown_images_idx in *.
  set (it := shuffle (seq 0 (length embeddings_2d))) in *.
  assert (Hin : In i it).
  { apply (Permutation_in _ (Hperm _)). apply in_seq. lia. }
  destruct (fold_select_covers it ([sentinel], []) i Hin) as [H | (s & Hs & Hlt)];
    [contradiction|].
  fold (select it) in Hs. destruct (select_spread it) as (Hshown & _ & _).
  rewrite Hshown in Hs. destruct Hs as [<- | Hs]; [now left|].
  apply in_map_iff in Hs as (j & <- & Hj). right. now exists j.
Qed.

(** X11: no image is shown twice, whatever order the shuffle produces,
    and at most as many thumbnails are shown as there are images. *)
Theorem shown_images_distinct :
  NoDup shown_images_idx
  /\ ((forall l, Permutation l (shuffle l)) ->
      (length shown_images_idx <= length embeddings_2d)%nat).
Proof.
  assert (Hnd : NoDup shown_images_idx).
  { unfold shown_images_idx.
    destruct (select_spread (shuffle (seq 0 (length embeddings_2d)))) as (_ & Hp & _).
    now apply spread_nodup. }
  split; [exact Hnd|]. intros Hperm.
  rewrite <- (length_seq (length embeddings_2d) 0).
  apply NoDup_incl_length; [exact Hnd|].
  intros i Hi. unfold shown_images_idx, select in Hi.
  apply fold_select_incl in Hi as [[] | Hi].
  now apply (Permutation_in _ (Permutation_sym (Hperm _))).
Qed.

End Plot.

(** Five points, tried back to front: (1, 0) is shown, (0.99, 0.99) is too
    close to the sentinel, (0.5, 0.5) and (0.01, 0.01) are shown, (0, 0) is
    too close to (0.01, 0.01). *)
Definition five_points : list (Q * Q) :=
  [(0, 0); (1 # 100, 1 # 100); (1 # 2, 1 # 2); (99 # 100, 99 # 100); (1, 0)].

Lemma five_points_shown : shown_images_idx five_points (@rev nat) = [4; 2; 1]%nat.
Proof. vm_compute. reflexivity. Qed.

(** The test is strict: a point at squared distance exactly 2e-3 from the
    sentinel, here (0.96, 0.98), is shown. *)
Lemma boundary_point_shown :
  sq_dist (24 # 25, 49 # 50) sentinel == min_dist
  /\ shown_images_idx [(24 # 25, 49 # 50)] (fun l => l) = [0%nat].
Proof. split; vm_compute; reflexivity. Qed.


(** Of the five points, (0, 0) is hidden: it is close to the shown point
    (0.01, 0.01). *)
Lemma five_points_hidden_origin :
  sq_dist (row five_points 0) sentinel < min_dist
  \/ exists j, In j (shown_images_idx five_points (@rev nat))
               /\ sq_dist (row five_points 0) (row five_points j) < min_dist.
Proof.
  apply (hidden_images_are_close five_points (@rev nat) 0 (@Permutation_rev nat)).
  - cbn. lia.
  - rewrite five_points_shown. intros [H | [H | [H | []]]]; discriminate H.
Defined.

End Scatter.

(** ** Cell 23 on numpy floats

    [embeddings_2d] is what cell 21 leaves: an array whose entries may be
    [nan].  The selection loop is transcribed once more over such entries,
    with numpy's arithmetic and comparisons on the special values, and is
    shown to be the loop of [Scatter] when every entry is finite. *)

Module Thumbnails.
Import Rescale.

(** [a - b] on numpy floats. *)
Definition np_sub (a b : npfloat) : npfloat :=
  match a, b with
  | NaN, _ | _, NaN => NaN
  | Finite x, Finite y => Finite (x - y)
  | Finite _, PosInf => NegInf
  | Finite _, NegInf => PosInf
  | PosInf, PosInf => NaN
  | PosInf, _ => PosInf
  | NegInf, NegInf => NaN
  | NegInf, _ => NegInf
  end.

(** [a ** 2]. *)
Definition np_square (a : npfloat) : npfloat :=
  match a with
  | Finite x => Finite (x * x)
  | PosInf | NegInf => PosInf
  | NaN => NaN
  end.

(** [a + b]. *)
Definition np_add (a b : npfloat) : npfloat :=
  match a, b with
  | NaN, _ | _, NaN => NaN
  | Finite x, Finite y => Finite (x + y)
  | PosInf, NegInf | NegInf, PosInf => NaN
  | PosInf, _ | _, PosInf => PosInf
  | NegInf, _ | _, NegInf => NegInf
  end.

(** The smaller of two entries as [np.min] takes it: [nan] wins over
    everything. *)
Definition np_min2 (a b : npfloat) : npfloat :=
  match a, b with
  | NaN, _ | _, NaN => NaN
  | NegInf, _ | _, NegInf => NegInf
  | PosInf, c | c, PosInf => c
  | Finite x, Finite y => Finite (Qmin x y)
  end.

(** [np.min] of an array with first entry [d]. *)
Definition np_minimum (d : npfloat) (ds : list npfloat) : npfloat :=
  fold_left np_min2 ds d.

(** [a < b] for a Python float [b]: false on [nan]. *)
Definition np_less (a : npfloat) (b : Q) : bool :=
  match a with
  | Finite x => if Qlt_le_dec x b then true else false
  | NegInf => true
  | PosInf | NaN => false
  end.


Definition point : Type := (npfloat * npfloat)%type.

(** A row of finite numbers as a row of numpy floats. *)
Definition of_point (p : Q * Q) : point := (Finite (fst p), Finite (snd p)).

Definition finite_row (p : point) : Prop :=
  match p with
  | (Finite _, Finite _) => True
  | _ => False
  end.

(** The sentinel row [[1., 1.]] that [shown_images] starts with. *)
Definition sentinel : point := of_point Scatter.sentinel.

(** One entry of [np.sum((p - shown_images) ** 2, 1)]. *)
Definition sq_dist (p s : point) : npfloat :=
  np_add (np_square (np_sub (fst p) (fst s))) (np_square (np_sub (snd p) (snd s))).

(** [np.min(dist) < 2e-3].  [shown_images] always holds the sentinel, so
    [dist] is never empty. *)
Definition too_close (p : point) (shown_images : list point) : bool :=
  match map (sq_dist p) shown_images with
  | [] => false
  | d :: ds => np_less (np_minimum d ds) Scatter.min_dist
  end.

Section Plot.

Variable embeddings_2d : list point.

(** [np.random.shuffle(iterator)]. *)
Variable shuffle : list nat -> list nat.

(** [embeddings_2d[i]]; the loop only meets indices below the number of
    rows. *)
Definition row (i : nat) : point := nth i embeddings_2d (of_point (0, 0)).

(** The body of the selection loop, on the pair
    [(shown_images, shown_images_idx)]. *)
Definition select_step (st : list point * list nat) (i : nat) : list point * list nat :=
  if too_close (row i) (fst st) then st
  else (fst st ++ [row i], snd st ++ [i]).

Definition select (iterator : list nat) : list point * list nat :=
  fold_left select_step iterator ([sentinel], []).

(** The indices of the images to show. *)
Definition shown_images_idx : list nat :=
  snd (select (shuffle (seq 0 (length embeddings_2d)))).


End Plot.

(** *** Finite rows *)

Lemma sq_dist_of_point (p s : Q * Q) :
  sq_dist (of_point p) (of_point s) = Finite (Scatter.sq_dist p s).
Proof. reflexivity. Qed.

Lemma np_minimum_finite (d : Q) (ds : list Q) :
  np_minimum (Finite d) (map Finite ds) = Finite (minimum d ds).
Proof.
  unfold np_minimum, minimum. revert d.
  induction ds as [|x ds IH]; intros d; [reflexivity|]. cbn. apply IH.
Qed.

Lemma too_close_of_point (p : Q * Q) (shown : list (Q * Q)) :
  too_close (of_point p) (map of_point shown) = Scatter.too_close p shown.
Proof.
  unfold too_close, Scatter.too_close. rewrite map_map.
  rewrite (map_ext _ (fun s => Finite (Scatter.sq_dist p s)))
    by (intros s; apply sq_dist_of_point).
  rewrite <- (map_map (Scatter.sq_dist p) Finite).
  destruct (map (Scatter.sq_dist p) shown) as [|d ds]; [reflexivity|].
  cbn [map]. rewrite np_minimum_finite. reflexivity.
Qed.

Lemma row_of_point (points : list (Q * Q)) (i : nat) :
  row (map of_point points) i = of_point (Scatter.row points i).
Proof. unfold row, Scatter.row. apply map_nth. Qed.

Lemma select_step_of_point (points : list (Q * Q)) (st : list (Q * Q) * list nat) (i : nat) :
  select_step (map of_point points) (map of_point (fst st), snd st) i
  = (map of_point (fst (Scatter.select_step points st i)),
     snd (Scatter.select_step points st i)).
Proof.
  unfold select_step, Scatter.select_step. cbn [fst snd].
  rewrite row_of_point, too_close_of_point.
  destruct (Scatter.too_close (Scatter.row points i) (fst st)); [reflexivity|].
  cbn [fst snd]. now rewrite map_app.
Qed.

Lemma fold_select_of_point (points : list (Q * Q)) (iterator : list nat)
  (st : list (Q * Q) * list nat) :
  fold_left (select_step (map of_point points)) iterator (map of_point (fst st), snd st)
  = (map of_point (fst (fold_left (Scatter.select_step points) iterator st)),
     snd (fold_left (Scatter.select_step points) iterator st)).
Proof.
  revert st. induction iterator as [|i it IH]; intros st; [reflexivity|].
  cbn [fold_left]. rewrite select_step_of_point. apply IH.
Qed.

(** On finite rows the loop is the loop of [Scatter]. *)
Lemma select_of_point (points : list (Q * Q)) (iterator : list nat) :
  select (map of_point points) iterator
  = (map of_point (fst (Scatter.select points iterator)),
     snd (Scatter.select points iterator)).
Proof. apply (fold_select_of_point points iterator ([Scatter.sentinel], [])). Qed.

Lemma shown_of_point (points : list (Q * Q)) (shuffle : list nat -> list nat) :
  shown_images_idx (map of_point points) shuffle = Scatter.shown_images_idx points shuffle.
Proof.
  unfold shown_images_idx, Scatter.shown_images_idx.
  now rewrite select_of_point, length_map.
Qed.


(** The rows that cell 21 leaves are finite when neither axis is
    degenerate. *)
Lemma rescaled_rows_finite (raw : list (Q * Q)) (M m : Q * Q) :
  (forall k, coord k m < coord k M) -> Forall finite_row (normalize_rows raw M m).
Proof.
  intros Hrange. apply Forall_forall. intros r Hr.
  apply in_map_iff in Hr as (p & <- & _).
  pose proof (Hrange Ax0) as H0. pose proof (Hrange Ax1) as H1. cbn in H0, H1.
  rewrite !np_divide_pos by lra. exact I.
Qed.



(** *** Rows of [nan] *)



(** *** A degenerate axis *)

Definition has_nan (p : point) : Prop := fst p = NaN \/ snd p = NaN.

Lemma sq_dist_nan (p s : point) : has_nan p -> sq_dist p s = NaN.
Proof.
  intros [H | H]; unfold sq_dist; rewrite H; cbn.
  - reflexivity.
  - now destruct (np_square (np_sub (fst p) (fst s))).
Qed.

Lemma np_minimum_nan (ds : list npfloat) : np_minimum NaN ds = NaN.
Proof. unfold np_minimum. induction ds as [|d ds IH]; [reflexivity | exact IH]. Qed.

Lemma too_close_nan (p : point) (shown : list point) : has_nan p -> too_close p shown = false.
Proof.
  intros Hp. unfold too_close. destruct shown as [|s shown]; [reflexivity|].
  cbn [map]. rewrite (sq_dist_nan p s Hp), np_minimum_nan. reflexivity.
Qed.

Lemma fold_select_nan (a : list point) (iterator : list nat) (st : list point * list nat) :
  Forall has_nan a ->
  (forall i, In i iterator -> (i < length a)%nat) ->
  snd (fold_left (select_step a) iterator st) = snd st ++ iterator.
Proof.
  intros Hnan. revert st. induction iterator as [|i it IH]; intros st Hin.
  - cbn. now rewrite app_nil_r.
  - cbn [fold_left]. rewrite IH by (intros j Hj; apply Hin; now right).
    unfold select_step. rewrite too_close_nan.
    + cbn [snd]. now rewrite <- app_assoc.
    + rewrite Forall_forall in Hnan. apply Hnan. unfold row. apply nth_In.
      apply Hin. now left.
Qed.

Lemma degenerate_axis_nan (raw : list (Q * Q)) (M m : Q * Q) (k : axis) :
  np_max_axis0 raw = Some M -> np_min_axis0 raw = Some m ->
  coord k M == coord k m ->
  Forall has_nan (normalize_rows raw M m).
Proof.
  intros HM Hm Heq. apply Forall_forall. intros r Hr.
  apply ncoord_normalize_rows in Hr as (p & Hp & Hk).
  pose proof (proj1 (max_axis0_spec _ _ k HM) p Hp) as Hle.
  pose proof (proj1 (min_axis0_spec _ _ k Hm) p Hp) as Hge.
  specialize (Hk k). rewrite np_divide_zero_zero in Hk by lra.
  destruct k; [now left | now right].
Qed.

(** X20: when all projected points agree on one axis, cell 21 leaves
    [nan] in that column and the selection hides nothing: every image is
    shown, in the order of the shuffle, however close the points are. *)
Theorem degenerate_axis_shows_every_image
  (raw : list (Q * Q)) (M m : Q * Q) (k : axis) (shuffle : list nat -> list nat) :
  np_max_axis0 raw = Some M ->
  np_min_axis0 raw = Some m ->
  coord k M == coord k m ->
  (forall l, Permutation l (shuffle l)) ->
  rescale raw = Some (normalize_rows raw M m)
  /\ shown_images_idx (normalize_rows raw M m) shuffle = shuffle (seq 0 (length raw)).
Proof.
  intros HM Hm Heq Hperm. split; [unfold rescale; now rewrite HM, Hm|].
  unfold shown_images_idx, select.
  rewrite fold_select_nan.
  - cbn [snd app]. unfold normalize_rows. now rewrite length_map.
  - now apply (degenerate_axis_nan raw M m k).
  - intros i Hi. apply (Permutation_in _ (Permutation_sym (Hperm _))) in Hi.
    apply in_seq in Hi. lia.
Qed.

(** Three images on the line y = 7, two of them at the same point: all
    three are shown. *)
Lemma points_on_a_line_all_shown :
  shown_images_idx (normalize_rows [(1, 7); (1, 7); (2, 7)] (2, 7) (1, 7)) (@rev nat)
  = [2; 1; 0]%nat.
Proof.
  destruct (degenerate_axis_shows_every_image [(1, 7); (1, 7); (2, 7)] (2, 7) (1, 7) Ax1
              (@rev nat) eq_refl eq_refl ltac:(reflexivity) (@Permutation_rev nat))
    as [_ H].
  exact H.
Defined.


End Thumbnails.

(** ** Cell 25: nearest neighbours of the example images *)

(** Python exceptions and the figure state, as a monad: a computation takes
    the plot commands issued so far and returns a value or the raised
    exception, together with the commands issued up to that point.  There
    is no operation that catches. *)
Module Nb.

Section Monad.

(** What a library raises on its own account. *)
Variable E : Type.

(** What is drawn. *)
Variable Ev : Type.

Inductive exn : Type :=
| ValueError
| IndexError
| Library (e : E).

Definition M (A : Type) : Type := list Ev -> (exn + A) * list Ev.

Definition ret {A : Type} (a : A) : M A := fun st => (inr a, st).

Definition raise {A : Type} (e : exn) : M A := fun st => (inl e, st).

Definition bind {A B : Type} (c : M A) (k : A -> M B) : M B :=
  fun st =>
    match c st with
    | (inl e, st') => (inl e, st')
    | (inr a, st') => k a st'
    end.

(** Issue one plot command. *)
Definition emit (ev : Ev) : M unit := fun st => (inr tt, st ++ [ev]).

(** A library call that raises or returns. *)
Definition lift {A : Type} (r : E + A) : M A :=
  match r with
  | inl e => raise (Library e)
  | inr a => ret a
  end.

(** A lookup that raises [e] when there is nothing to find. *)
Definition lookup {A : Type} (e : exn) (o : option A) : M A :=
  match o with
  | None => raise e
  | Some a => ret a
  end.

(** [for x in l: body(x)]. *)
Fixpoint for_each {A : Type} (l : list A) (body : A -> M unit) : M unit :=
  match l with
  | [] => ret tt
  | a :: l' => bind (body a) (fun _ => for_each l' body)
  end.

(** [enumerate(l)] from [k]. *)
Fixpoint enumerate_from {A : Type} (k : nat) (l : list A) : list (nat * A) :=
  match l with
  | [] => []
  | a :: l' => (k, a) :: enumerate_from (S k) l'
  end.

Lemma bind_raise {A B : Type} (c : M A) (k : A -> M B) (st st' : list Ev) (e : exn) :
  c st = (inl e, st') -> bind c k st = (inl e, st').
Proof. unfold bind. now intros ->. Qed.

Lemma bind_ret {A B : Type} (c : M A) (k : A -> M B) (st st' : list Ev) (a : A) :
  c st = (inr a, st') -> bind c k st = k a st'.
Proof. unfold bind. now intros ->. Qed.

(** A loop stops at the first iteration that raises: the exception and the
    state are those of that iteration, later items are not visited. *)
Lemma for_each_raise {A : Type} (done : list A) (a : A) (rest : list A)
  (body : A -> M unit) (st st1 st2 : list Ev) (e : exn) :
  for_each done body st = (inr tt, st1) ->
  body a st1 = (inl e, st2) ->
  for_each (done ++ a :: rest) body st = (inl e, st2).
Proof.
  revert st. induction done as [|d done IH]; intros st Hdone Ha.
  - cbn in Hdone. injection Hdone as <-. cbn. now apply bind_raise.
  - cbn in Hdone |- *. unfold bind in Hdone |- *.
    destruct (body d st) as [[e' | []] st']; [discriminate|]. now apply IH.
Qed.

End Monad.

Arguments ValueError {E}.
Arguments IndexError {E}.
Arguments Library {E} _.
Arguments ret {E Ev A} _ _.
Arguments raise {E Ev A} _ _.
Arguments bind {E Ev A B} _ _ _.
Arguments emit {E Ev} _ _.
Arguments lift {E Ev A} _ _.
Arguments lookup {E Ev A} _ _ _.
Arguments for_each {E Ev A} _ _ _.
Arguments enumerate_from {A} _ _.

Declare Scope nb_scope.
Delimit Scope nb_scope with nb.

Notation "x <- c ;; k" := (bind c (fun x => k))
  (at level 61, c at next level, right associativity) : nb_scope.
Notation "c ;;; k" := (bind c (fun _ => k))
  (at level 61, right associativity) : nb_scope.

End Nb.

Module Neighbors.
Import Data.

(** [n_subplots = 9]. *)
Definition n_subplots : nat := 9.

(** [list.index]: the first position of [x], if any. *)
Fixpoint index (l : list fname) (x : fname) : option nat :=
  match l with
  | [] => None
  | y :: l' => if String.eqb y x then Some O else option_map S (index l' x)
  end.

(** One entry of [np.power(embeddings - center, 2).sum(-1)]. *)
Definition sq_dist (row center : list Q) : Q :=
  fold_right Qplus 0
    (map (fun p => (fst p - snd p) * (fst p - snd p)) (combine row center)).

Definition distances (embeddings : list (list Q)) (center : list Q) : list Q :=
  map (fun row => sq_dist row center) embeddings.

(** [distances[i]]. *)
Definition key (ds : list Q) (i : nat) : Q := nth i ds 0.

(** An insertion sort of the indices by their entries, equal entries in
    index order: one of the orders that [np.argsort] may return.  numpy
    promises no order among equal entries, so the statements about the
    notebook take [np.argsort] as a parameter [argsort] of which only
    [ascending] is known; this sort serves as an instance. *)
Fixpoint insert (ds : list Q) (i : nat) (l : list nat) : list nat :=
  match l with
  | [] => [i]
  | j :: l' =>
      if Qlt_le_dec (key ds j) (key ds i) then j :: insert ds i l'
      else i :: j :: l'
  end.

Definition stable_argsort (ds : list Q) : list nat :=
  fold_right (insert ds) [] (seq 0 (length ds)).

(** [np.argsort(distances)[:n_subplots]] for the image at [example_idx];
    [None] when [embeddings[example_idx]] is out of range (IndexError). *)
Definition nearest_neighbors (argsort : list Q -> list nat)
  (embeddings : list (list Q)) (example_idx : nat) : option (list nat) :=
  match nth_error embeddings example_idx with
  | None => None
  | Some center => Some (firstn n_subplots (argsort (distances embeddings center)))
  end.

(** An ascending permutation of the indices of [ds]. *)
Definition ascending (ds : list Q) (l : list nat) : Prop :=
  Permutation l (seq 0 (length ds))
  /\ StronglySorted (fun i j => key ds i <= key ds j) l.

(** What numpy documents of [np.argsort]: the indices that sort the
    array. *)
Definition sorts (argsort : list Q -> list nat) : Prop :=
  forall ds, ascending ds (argsort ds).

(** *** [list.index] *)

Lemma index_some (l : list fname) (x : fname) (i : nat) :
  index l x = Some i ->
  nth_error l i = Some x /\ forall j, (j < i)%nat -> nth_error l j <> Some x.
Proof.
  revert i. induction l as [|y l IH]; intros i H; [discriminate|].
  cbn in H. destruct (String.eqb y x) eqn:E.
  - injection H as <-. apply String.eqb_eq in E. subst y. split; [reflexivity|]. lia.
  - destruct (index l x) as [k|]; [|discriminate]. injection H as <-.
    destruct (IH k eq_refl) as [Hk Hlt]. split; [exact Hk|].
    intros [|j] Hj; cbn.
    + intros [= ->]. rewrite String.eqb_refl in E. discriminate.
    + apply Hlt. lia.
Qed.

Lemma index_in (l : list fname) (x : fname) : In x l -> exists i, index l x = Some i.
Proof.
  induction l as [|y l IH]; intros H; [destruct H|].
  cbn. destruct (String.eqb y x) eqn:E; [now exists O|].
  destruct H as [-> | H]; [rewrite String.eqb_refl in E; discriminate|].
  destruct (IH H) as [i ->]. now exists (S i).
Qed.

Lemma index_none (l : list fname) (x : fname) : ~ In x l -> index l x = None.
Proof.
  intros H. destruct (index l x) as [i|] eqn:E; [|reflexivity].
  exfalso. apply H. apply index_some in E as [E _]. now apply nth_error_In in E.
Qed.

(** *** Squared distances *)

Lemma sq_dist_nonneg (row center : list Q) : 0 <= sq_dist row center.
Proof.
  unfold sq_dist. induction (combine row center) as [|p l IH]; cbn; [lra|].
  set (d := fst p - snd p) in *. nra.
Qed.

Lemma sq_dist_self (row : list Q) : sq_dist row row == 0.
Proof.
  unfold sq_dist. induction row as [|x row IH]; cbn; [reflexivity|].
  rewrite IH. ring.
Qed.

Lemma key_distances (embeddings : list (list Q)) (center row : list Q) (i : nat) :
  nth_error embeddings i = Some row ->
  key (distances embeddings center) i = sq_dist row center.
Proof.
  intros H. unfold key, distances.
  apply nth_error_nth. now rewrite nth_error_map, H.
Qed.

Lemma key_nonneg (embeddings : list (list Q)) (center : list Q) (i : nat) :
  0 <= key (distances embeddings center) i.
Proof.
  destruct (nth_error embeddings i) as [row|] eqn:E.
  - rewrite (key_distances _ _ _ _ E). apply sq_dist_nonneg.
  - unfold key. rewrite nth_overflow; [lra|].
    unfold distances. rewrite length_map. now apply nth_error_None.
Qed.

(** *** The sort *)

Lemma insert_perm (ds : list Q) (i : nat) (l : list nat) :
  Permutation (insert ds i l) (i :: l).
Proof.
  induction l as [|j l IH]; cbn; [reflexivity|].
  destruct (Qlt_le_dec (key ds j) (key ds i)); [|reflexivity].
  rewrite IH. apply perm_swap.
Qed.

Lemma insert_sorted (ds : list Q) (i : nat) (l : list nat) :
  Sorted (fun a b => key ds a <= key ds b) l ->
  Sorted (fun a b => key ds a <= key ds b) (insert ds i l).
Proof.
  induction 1 as [|j l Hl IH Hhd]; cbn; [repeat constructor|].
  destruct (Qlt_le_dec (key ds j) (key ds i)) as [Hlt | Hle].
  - constructor; [exact IH|].
    destruct l as [|k l]; cbn.
    + constructor. lra.
    + destruct (Qlt_le_dec (key ds k) (key ds i)); constructor.
      * now inversion Hhd.
      * lra.
  - constructor; [now constructor|]. now constructor.
Qed.

Lemma stable_argsort_sorts : sorts stable_argsort.
Proof.
  intros ds. unfold ascending, stable_argsort. split.
  - induction (seq 0 (length ds)) as [|i l IH]; cbn; [reflexivity|].
    rewrite insert_perm. now constructor.
  - apply Sorted_StronglySorted.
    + intros a b c Hab Hbc. eapply Qle_trans; eassumption.
    + induction (seq 0 (length ds)) as [|i l IH]; cbn; [constructor|].
      now apply insert_sorted.
Qed.

(** *** Prefixes of an ascending permutation *)

Lemma StronglySorted_firstn {A : Type} (R : A -> A -> Prop) (k : nat) (l : list A) :
  StronglySorted R l -> StronglySorted R (firstn k l).
Proof.
  intros H. revert k. induction H as [|a l Hl IH Ha]; intros [|k]; cbn; try constructor.
  - apply IH.
  - rewrite Forall_forall in *. intros x Hx. apply Ha.
    rewrite <- (firstn_skipn k l). apply in_or_app. now left.
Qed.

Lemma StronglySorted_app_le {A : Type} (R : A -> A -> Prop) (l1 l2 : list A) :
  StronglySorted R (l1 ++ l2) -> forall x y, In x l1 -> In y l2 -> R x y.
Proof.
  induction l1 as [|a l1 IH]; intros H x y Hx Hy; [destruct Hx|].
  cbn in H. inversion H as [|? ? Hs Hf]; subst. destruct Hx as [<- | Hx].
  - rewrite Forall_forall in Hf. apply Hf. apply in_or_app. now right.
  - now apply (IH Hs).
Qed.

Section Prefix.

Variable ds : list Q.
Variable l : list nat.
Hypothesis Hasc : ascending ds l.

Lemma ascending_length : length l = length ds.
Proof. destruct Hasc as [Hp _]. now rewrite (Permutation_length Hp), length_seq. Qed.

Lemma ascending_in (i : nat) : In i l <-> (i < length ds)%nat.
Proof.
  destruct Hasc as [Hp _]. split; intros H.
  - apply (Permutation_in _ Hp) in H. apply in_seq in H. lia.
  - apply (Permutation_in _ (Permutation_sym Hp)). apply in_seq. lia.
Qed.

Lemma ascending_nodup : NoDup l.
Proof.
  destruct Hasc as [Hp _].
  apply (Permutation_NoDup (Permutation_sym Hp)). apply seq_NoDup.
Qed.

Lemma prefix_length (k : nat) : length (firstn k l) = Nat.min k (length ds).
Proof. now rewrite length_firstn, ascending_length. Qed.

Lemma prefix_nodup (k : nat) : NoDup (firstn k l).
Proof.
  pose proof ascending_nodup as H. rewrite <- (firstn_skipn k l) in H.
  now apply NoDup_app_remove_r in H.
Qed.

Lemma prefix_in_range (k i : nat) : In i (firstn k l) -> (i < length ds)%nat.
Proof.
  intros H. apply ascending_in. rewrite <- (firstn_skipn k l).
  apply in_or_app. now left.
Qed.

Lemma prefix_sorted (k : nat) :
  StronglySorted (fun i j => key ds i <= key ds j) (firstn k l).
Proof. apply StronglySorted_firstn. apply Hasc. Qed.

(** Whatever is left out is at least as far as whatever is selected. *)
Lemma prefix_smallest (k i j : nat) :
  In i (firstn k l) -> (j < length ds)%nat -> ~ In j (firstn k l) ->
  key ds i <= key ds j.
Proof.
  intros Hi Hj Hnot. destruct Hasc as [_ Hs].
  rewrite <- (firstn_skipn k l) in Hs.
  apply (StronglySorted_app_le _ _ _ Hs); [exact Hi|].
  apply ascending_in in Hj. rewrite <- (firstn_skipn k l) in Hj.
  apply in_app_or in Hj as [Hj | Hj]; [contradiction | exact Hj].
Qed.

(** The first selected index has the least entry of all. *)
Lemma prefix_head_least (k first j : nat) :
  nth_error (firstn k l) 0 = Some first -> (j < length ds)%nat ->
  key ds first <= key ds j.
Proof.
  intros Hf Hj. destruct Hasc as [_ Hs]. apply ascending_in in Hj.
  destruct l as [|a l']; [destruct Hj|].
  destruct k as [|k]; [discriminate|]. cbn in Hf. injection Hf as <-.
  inversion Hs as [|? ? _ Hall]; subst. destruct Hj as [<- | Hj]; [apply Qle_refl|].
  rewrite Forall_forall in Hall. now apply Hall.
Qed.

Lemma prefix_head_exists (k : nat) :
  (0 < k)%nat -> (0 < length ds)%nat -> exists first, nth_error (firstn k l) 0 = Some first.
Proof.
  intros Hk Hn. rewrite <- ascending_length in Hn.
  destruct l as [|a l']; [cbn in Hn; lia|]. destruct k; [lia|]. now exists a.
Qed.

End Prefix.

(** *** The plotting functions *)

Inductive plot_event : Type :=
| Figure
| Suptitle (n : nat)
| AddSubplot (nrows ncols pos : nat)
| SetTitle
| Imshow (file : fname) (framed : bool)
| AxisOff.

Section Plotting.
Import Nb.
Local Open Scope nb_scope.

(** Library exceptions, PIL images, numpy arrays and their shapes. *)
Variables E Pil Arr : Type.
Variable shape : Arr -> list nat.

(** [Image.open] (raising, e.g., FileNotFoundError) and [np.asarray]. *)
Variable image_open : fname -> E + Pil.
Variable np_asarray : Pil -> Arr.

(** The array with a black frame of width [w] around it. *)
Variable frame : nat -> Arr -> Arr.

(** [np.argsort]. *)
Variable argsort : list Q -> list nat.

(** The notebook's globals after cell 17. *)
Variable filenames : list fname.
Variable embeddings : list (list Q).

Definition NbM (A : Type) : Type := M E plot_event A.

(** [get_image_as_np_array]. *)
Definition get_image_as_np_array (filename : fname) : NbM Arr :=
  img <- lift (image_open filename) ;;
  ret (np_asarray img).

(** [get_image_as_np_array_with_frame], with its default [w = 5].
    [ny, nx, _ = img.shape] needs exactly three dimensions, and the
    assignment into the [(ny, nx, 3)] window needs 3 channels or 1; both
    raise ValueError otherwise. *)
Definition get_image_as_np_array_with_frame (filename : fname) : NbM Arr :=
  img <- get_image_as_np_array filename ;;
  match shape img with
  | [ny; nx; c] =>
      if ((c =? 3) || (c =? 1))%nat then ret (frame 5 img) else raise ValueError
  | _ => raise ValueError
  end.

(** The body of the plotting loop. *)
Definition show_neighbor (po : nat * nat) : NbM unit :=
  let plot_offset := fst po in
  let plot_idx := snd po in
  emit (AddSubplot 3 3 (plot_offset + 1)) ;;;
  name <- lookup IndexError (nth_error filenames plot_idx) ;;
  let fname := Paths.join Paths.path_to_data name in
  (if (plot_offset =? 0)%nat then
     emit SetTitle ;;;
     _ <- get_image_as_np_array_with_frame fname ;;
     emit (Imshow fname true)
   else
     _ <- get_image_as_np_array fname ;;
     emit (Imshow fname false)) ;;;
  emit AxisOff.

(** [plot_nearest_neighbors_3x3]. *)
Definition plot_nearest_neighbors_3x3 (example_image : fname) (i : nat) : NbM unit :=
  emit Figure ;;;
  emit (Suptitle (i + 1)) ;;;
  example_idx <- lookup ValueError (index filenames example_image) ;;
  nearest <- lookup IndexError (nearest_neighbors argsort embeddings example_idx) ;;
  for_each (enumerate_from 0 nearest) show_neighbor.

(** The last lines of the cell:
    [for i, example_image in enumerate(example_images): ...]. *)
Definition plot_examples (example_images : list fname) : NbM unit :=
  for_each (enumerate_from 0 example_images)
           (fun ie => plot_nearest_neighbors_3x3 (snd ie) (fst ie)).

(** What one cell of the grid adds to the figure when its image loads. *)
Definition cell_events (po : nat * nat) : list plot_event :=
  let file := Paths.join Paths.path_to_data (nth (snd po) filenames String.EmptyString) in
  AddSubplot 3 3 (fst po + 1)
  :: (if (fst po =? 0)%nat then [SetTitle; Imshow file true] else [Imshow file false])
  ++ [AxisOff].

(** The file of a listed image opens. *)
Definition opens (name : fname) : Prop :=
  exists pil, image_open (Paths.join Paths.path_to_data name) = inr pil.

(** The file of a listed image opens as an array that the frame accepts:
    three dimensions, with three channels or one. *)
Definition frameable (name : fname) : Prop :=
  exists pil ny nx c,
    image_open (Paths.join Paths.path_to_data name) = inr pil
    /\ shape (np_asarray pil) = [ny; nx; c]
    /\ (c = 3%nat \/ c = 1%nat).

(** The images that the grid of [example_image] shows, in the order in
    which it shows them. *)
Definition selected (example_image : fname) : list nat :=
  match index filenames example_image with
  | None => []
  | Some example_idx =>
      match nearest_neighbors argsort embeddings example_idx with
      | None => []
      | Some nearest => nearest
      end
  end.

(** The files of the images in a grid load: the first one as an array
    that takes the frame, the others as images. *)
Definition grid_loads (nearest : list nat) : Prop :=
  forall k j name,
    nth_error nearest k = Some j -> nth_error filenames j = Some name ->
    if (k =? 0)%nat then frameable name else opens name.

(** Every listed file opens as an image with three channels. *)
Definition images_load : Prop :=
  forall name, In name filenames ->
    exists pil ny nx,
      image_open (Paths.join Paths.path_to_data name) = inr pil
      /\ shape (np_asarray pil) = [ny; nx; 3%nat].

(** *** Running the plotting functions *)

Lemma get_image_raises (fn : fname) (e : E) (st : list plot_event) :
  image_open fn = inl e -> get_image_as_np_array fn st = (inl (Library e), st).
Proof. intros H. unfold get_image_as_np_array, bind, lift. now rewrite H. Qed.

Lemma get_image_ok (fn : fname) (pil : Pil) (st : list plot_event) :
  image_open fn = inr pil -> get_image_as_np_array fn st = (inr (np_asarray pil), st).
Proof. intros H. unfold get_image_as_np_array, bind, lift. now rewrite H. Qed.

Lemma with_frame_raises (fn : fname) (e : E) (st : list plot_event) :
  image_open fn = inl e -> get_image_as_np_array_with_frame fn st = (inl (Library e), st).
Proof.
  intros H. unfold get_image_as_np_array_with_frame.
  apply bind_raise. now apply get_image_raises.
Qed.

Lemma with_frame_ok (fn : fname) (pil : Pil) (ny nx c : nat) (st : list plot_event) :
  image_open fn = inr pil -> shape (np_asarray pil) = [ny; nx; c] ->
  c = 3%nat \/ c = 1%nat ->
  get_image_as_np_array_with_frame fn st = (inr (frame 5 (np_asarray pil)), st).
Proof.
  intros H Hs Hc. unfold get_image_as_np_array_with_frame.
  rewrite (bind_ret _ _ _ _ _ _ _ (get_image_ok _ _ st H)), Hs.
  destruct Hc as [-> | ->]; reflexivity.
Qed.

Lemma show_neighbor_ok (po : nat * nat) (name : fname) (st : list plot_event) :
  nth_error filenames (snd po) = Some name ->
  (if (fst po =? 0)%nat then frameable name else opens name) ->
  show_neighbor po st = (inr tt, st ++ cell_events po).
Proof.
  intros Hn Hload. destruct po as [off idx]. cbn [fst snd] in *.
  unfold show_neighbor, cell_events. cbn [fst snd].
  erewrite nth_error_nth by exact Hn.
  unfold bind at 1. cbn [emit]. unfold bind at 1. rewrite Hn. cbn [lookup ret].
  destruct (off =? 0)%nat.
  - destruct Hload as (pil & ny & nx & c & Hopen & Hshape & Hc).
    unfold bind at 1. unfold bind at 1. cbn [emit]. unfold bind at 1.
    rewrite (with_frame_ok _ _ _ _ _ _ Hopen Hshape Hc). unfold emit.
    now rewrite <- !app_assoc.
  - destruct Hload as (pil & Hopen).
    unfold bind at 1. unfold bind at 1.
    rewrite (get_image_ok _ _ _ Hopen). unfold emit.
    now rewrite <- !app_assoc.
Qed.

Lemma enumerate_from_snd {A : Type} (k : nat) (l : list A) :
  map snd (enumerate_from k l) = l.
Proof. revert k. induction l as [|a l IH]; intros k; cbn; [|rewrite IH]; reflexivity. Qed.

Lemma enumerate_from_app {A : Type} (k : nat) (l1 l2 : list A) :
  enumerate_from k (l1 ++ l2) = enumerate_from k l1 ++ enumerate_from (k + length l1) l2.
Proof.
  revert k. induction l1 as [|a l1 IH]; intros k; cbn.
  - now rewrite Nat.add_0_r.
  - rewrite IH. do 3 f_equal. lia.
Qed.

(** The cells of a grid whose files load, from position [k] on. *)
Lemma show_neighbors_from (k : nat) (l : list nat) (st : list plot_event) :
  (forall i j, nth_error l i = Some j ->
     exists name, nth_error filenames j = Some name
                  /\ if (k + i =? 0)%nat then frameable name else opens name) ->
  for_each (enumerate_from k l) show_neighbor st
  = (inr tt, st ++ flat_map cell_events (enumerate_from k l)).
Proof.
  revert k st. induction l as [|j l IH]; intros k st Hl.
  - cbn. now rewrite app_nil_r.
  - cbn [enumerate_from for_each flat_map].
    destruct (Hl 0%nat j eq_refl) as (name & Hn & Hload).
    rewrite Nat.add_0_r in Hload.
    rewrite (bind_ret _ _ _ _ _ _ _ (show_neighbor_ok (k, j) name st Hn Hload)).
    rewrite IH; [now rewrite <- app_assoc|].
    intros i j' Hi. destruct (Hl (S i) j' Hi) as (name' & Hn' & Hload').
    exists name'. split; [exact Hn'|].
    now replace (S k + i)%nat with (k + S i)%nat by lia.
Qed.

Lemma show_neighbors_ok (nearest : list nat) (st : list plot_event) :
  (forall j, In j nearest -> (j < length filenames)%nat) ->
  grid_loads nearest ->
  for_each (enumerate_from 0 nearest) show_neighbor st
  = (inr tt, st ++ flat_map cell_events (enumerate_from 0 nearest)).
Proof.
  intros Hrange Hload. apply show_neighbors_from. intros i j Hi.
  destruct (nth_error filenames j) as [name|] eqn:Hn.
  - exists name. split; [reflexivity|]. exact (Hload i j name Hi Hn).
  - apply nth_error_None in Hn. pose proof (Hrange j (nth_error_In _ _ Hi)). lia.
Qed.

Lemma images_load_grid (nearest : list nat) : images_load -> grid_loads nearest.
Proof.
  intros Hload k j name _ Hn.
  destruct (Hload name (nth_error_In _ _ Hn)) as (pil & ny & nx & Hopen & Hshape).
  destruct (k =? 0)%nat.
  - exists pil, ny, nx, 3%nat. split; [exact Hopen|]. split; [exact Hshape | now left].
  - now exists pil.
Qed.

Lemma plot_run (example_image : fname) (i : nat) (st : list plot_event) :
  plot_nearest_neighbors_3x3 example_image i st
  = (example_idx <- lookup ValueError (index filenames example_image) ;;
     nearest <- lookup IndexError (nearest_neighbors argsort embeddings example_idx) ;;
     for_each (enumerate_from 0 nearest) show_neighbor)
      (st ++ [Figure; Suptitle (i + 1)]).
Proof.
  unfold plot_nearest_neighbors_3x3. unfold bind at 1. cbn [emit].
  unfold bind at 1. cbn [emit]. now rewrite <- app_assoc.
Qed.

Lemma length_distances (center : list Q) :
  length (distances embeddings center) = length embeddings.
Proof. unfold distances. apply length_map. Qed.

(** C5, as the code has it: [np.argsort] returning the indices in
    ascending order of their entries, in whatever order it gives to equal
    entries, the two globals being aligned and the files of the selected
    images loading (the first as an array that takes the frame), then for
    an example image present in [filenames],
    [plot_nearest_neighbors_3x3] selects min(9, N) distinct dataset
    indices, in ascending order of squared Euclidean distance to the
    example's embedding, none of the others being closer than a selected
    one, and draws them in this order at positions 1, 2, ... of a 3x3
    grid.  The image in the first position is at distance zero; it is the
    example image itself when no other embedding is at distance zero. *)
Theorem nearest_neighbors_grid (example_image : fname) (i : nat) (st : list plot_event) :
  sorts argsort ->
  length filenames = length embeddings ->
  In example_image filenames ->
  grid_loads (selected example_image) ->
  exists example_idx center,
    index filenames example_image = Some example_idx
    /\ nth_error embeddings example_idx = Some center
    /\ let d := distances embeddings center in
       let nn := firstn n_subplots (argsort d) in
       selected example_image = nn
       /\ plot_nearest_neighbors_3x3 example_image i st
          = (inr tt, st ++ [Figure; Suptitle (i + 1)]
                        ++ flat_map cell_events (enumerate_from 0 nn))
       /\ length nn = Nat.min 9 (length embeddings)
       /\ NoDup nn
       /\ (forall j, In j nn -> (j < length embeddings)%nat)
       /\ StronglySorted (fun a b => key d a <= key d b) nn
       /\ (forall a b, In a nn -> (b < length embeddings)%nat -> ~ In b nn ->
             key d a <= key d b)
       /\ (exists first, nth_error nn 0 = Some first /\ key d first == 0)
       /\ ((forall j, (j < length embeddings)%nat -> key d j == 0 -> j = example_idx) ->
           nth_error nn 0 = Some example_idx).
Proof.
  intros Hsort Hlen Hin Hload.
  destruct (index_in _ _ Hin) as [idx Hidx].
  destruct (index_some _ _ _ Hidx) as [Hname _].
  assert (Hlt : (idx < length embeddings)%nat).
  { rewrite <- Hlen. apply nth_error_Some. now rewrite Hname. }
  destruct (nth_error embeddings idx) as [center|] eqn:Hc;
    [|apply nth_error_None in Hc; lia].
  exists idx, center. split; [exact Hidx|]. split; [exact Hc|]. cbv zeta.
  set (d := distances embeddings center).
  pose proof (Hsort d) as Hasc.
  pose proof (length_distances center) as Hd. fold d in Hd.
  assert (Hsel : selected example_image = firstn n_subplots (argsort d)).
  { unfold selected, nearest_neighbors. now rewrite Hidx, Hc. }
  rewrite Hsel in Hload.
  assert (Hzero : key d idx == 0).
  { unfold d. rewrite (key_distances _ _ _ _ Hc). apply sq_dist_self. }
  assert (Hfirst : exists first, nth_error (firstn n_subplots (argsort d)) 0 = Some first).
  { apply (prefix_head_exists d _ Hasc); [unfold n_subplots; lia | lia]. }
  split; [exact Hsel|].
  split; [|split; [|split; [|split; [|split; [|split; [|split]]]]]].
  - rewrite plot_run. unfold bind at 1. rewrite Hidx. cbn [lookup ret].
    unfold bind at 1. unfold nearest_neighbors. rewrite Hc. cbn [lookup ret]. fold d.
    rewrite show_neighbors_ok; [now rewrite <- app_assoc | | exact Hload].
    intros j Hj. rewrite Hlen, <- Hd. apply (prefix_in_range d _ Hasc n_subplots _ Hj).
  - rewrite (prefix_length d _ Hasc), Hd. reflexivity.
  - apply (prefix_nodup d _ Hasc).
  - intros j Hj. rewrite <- Hd. apply (prefix_in_range d _ Hasc _ _ Hj).
  - apply (prefix_sorted d _ Hasc).
  - intros a b Ha Hb Hnot. apply (prefix_smallest d _ Hasc n_subplots); [exact Ha|lia|exact Hnot].
  - destruct Hfirst as [first Hf]. exists first. split; [exact Hf|].
    apply Qle_antisym; [|apply key_nonneg].
    rewrite <- Hzero. apply (prefix_head_least d _ Hasc _ _ _ Hf). lia.
  - intros Huniq. destruct Hfirst as [first Hf]. rewrite Hf. f_equal.
    apply Huniq.
    + rewrite <- Hd. apply (prefix_in_range d _ Hasc n_subplots).
      apply (nth_error_In _ _ Hf).
    + apply Qle_antisym; [|apply key_nonneg].
      rewrite <- Hzero. apply (prefix_head_least d _ Hasc _ _ _ Hf). lia.
Qed.


(** *** All examples plotted *)

Definition is_header (ev : plot_event) : bool :=
  match ev with
  | Figure | Suptitle _ => true
  | _ => false
  end.

Lemma cell_events_no_header (l : list (nat * nat)) :
  filter is_header (flat_map cell_events l) = [].
Proof.
  induction l as [|po l IH]; [reflexivity|].
  cbn [flat_map]. rewrite filter_app, IH, app_nil_r.
  unfold cell_events. destruct (fst po =? 0)%nat; reflexivity.
Qed.

(** One example whose name is listed: the plot goes through and adds a
    figure, its title and then only cells. *)
Lemma plot_ok (example_image : fname) (i : nat) (st : list plot_event) :
  sorts argsort ->
  length filenames = length embeddings ->
  images_load ->
  In example_image filenames ->
  exists cells,
    plot_nearest_neighbors_3x3 example_image i st
    = (inr tt, st ++ Figure :: Suptitle (i + 1) :: cells)
    /\ filter is_header cells = [].
Proof.
  intros Hsort Hlen Hload Hin.
  destruct (index_in _ _ Hin) as [idx Hidx].
  destruct (index_some _ _ _ Hidx) as [Hname _].
  assert (Hlt : (idx < length embeddings)%nat).
  { rewrite <- Hlen. apply nth_error_Some. now rewrite Hname. }
  destruct (nth_error embeddings idx) as [center|] eqn:Hc;
    [|apply nth_error_None in Hc; lia].
  set (d := distances embeddings center).
  exists (flat_map cell_events (enumerate_from 0 (firstn n_subplots (argsort d)))).
  split; [|apply cell_events_no_header].
  rewrite plot_run. unfold bind at 1. rewrite Hidx. cbn [lookup ret].
  unfold bind at 1. unfold nearest_neighbors. rewrite Hc. cbn [lookup ret]. fold d.
  rewrite show_neighbors_ok; [now rewrite <- app_assoc | | now apply images_load_grid].
  intros j Hj. rewrite Hlen, <- (length_distances center). fold d.
  apply (prefix_in_range d _ (Hsort d) n_subplots _ Hj).
Qed.

Lemma plot_examples_from (k : nat) (example_images : list fname) (st : list plot_event) :
  sorts argsort ->
  length filenames = length embeddings ->
  images_load ->
  (forall ex, In ex example_images -> In ex filenames) ->
  exists added,
    for_each (enumerate_from k example_images)
             (fun ie => plot_nearest_neighbors_3x3 (snd ie) (fst ie)) st
    = (inr tt, st ++ added)
    /\ filter is_header added
       = flat_map (fun i => [Figure; Suptitle (i + 1)]) (seq k (length example_images)).
Proof.
  intros Hsort Hlen Hload. revert k st.
  induction example_images as [|ex exs IH]; intros k st Hall.
  - exists []. cbn. now rewrite app_nil_r.
  - destruct (plot_ok ex k st Hsort Hlen Hload (Hall ex (or_introl eq_refl)))
      as (cells & Hrun & Hcells).
    destruct (IH (S k) (st ++ Figure :: Suptitle (k + 1) :: cells)
                (fun e He => Hall e (or_intror He))) as (added & Hrest & Hadded).
    exists (Figure :: Suptitle (k + 1) :: cells ++ added). split.
    + cbn [enumerate_from for_each]. cbn [fst snd].
      rewrite (bind_ret _ _ _ _ _ _ _ Hrun), Hrest, <- app_assoc. reflexivity.
    + cbn [filter is_header length seq flat_map app].
      rewrite filter_app, Hcells, Hadded. reflexivity.
Qed.

(** X12: when [np.argsort] sorts, the two globals are aligned, the image
    files load and every example name is listed, the loop over the
    examples goes through and creates exactly one figure per example,
    titled with the numbers 1, 2, ... in the order of the examples. *)
Theorem plot_examples_one_figure_each (example_images : list fname) (st : list plot_event) :
  sorts argsort ->
  length filenames = length embeddings ->
  images_load ->
  (forall ex, In ex example_images -> In ex filenames) ->
  exists added,
    plot_examples example_images st = (inr tt, st ++ added)
    /\ filter is_header added
       = flat_map (fun i => [Figure; Suptitle (i + 1)]) (seq 0 (length example_images)).
Proof. intros Hsort Hlen Hload Hall. now apply plot_examples_from. Qed.

(** *** A file that does not open *)

Lemma show_neighbor_open_fails (po : nat * nat) (name : fname) (e : E)
  (st : list plot_event) :
  nth_error filenames (snd po) = Some name ->
  image_open (Paths.join Paths.path_to_data name) = inl e ->
  show_neighbor po st
  = (inl (Library e),
     st ++ AddSubplot 3 3 (fst po + 1) :: (if (fst po =? 0)%nat then [SetTitle] else [])).
Proof.
  intros Hn Hopen. destruct po as [off idx]. cbn [fst snd] in *.
  unfold show_neighbor. cbn [fst snd].
  unfold bind at 1. cbn [emit]. unfold bind at 1. rewrite Hn. cbn [lookup ret].
  apply bind_raise. destruct (off =? 0)%nat.
  - unfold bind at 1. cbn [emit]. apply bind_raise.
    rewrite (with_frame_raises _ _ _ Hopen). now rewrite <- app_assoc.
  - apply bind_raise. rewrite (get_image_raises _ _ _ Hopen). reflexivity.
Qed.

(** X21: nothing is caught in the plotting loop, at any position of the
    grid.  If the images selected before position [k] load and the file of
    the image at position [k] does not open, [plot_nearest_neighbors_3x3]
    raises the exception of [Image.open]: the cells before [k] stay on the
    figure, the subplot of position [k] has been added (and titled, for
    the first position), and no later image is looked at. *)
Theorem plot_stops_at_missing_file (example_image : fname) (i : nat) (st : list plot_event)
  (example_idx : nat) (done : list nat) (j : nat) (rest : list nat) (name : fname) (e : E) :
  index filenames example_image = Some example_idx ->
  nearest_neighbors argsort embeddings example_idx = Some (done ++ j :: rest) ->
  (forall j', In j' done -> (j' < length filenames)%nat) ->
  grid_loads done ->
  nth_error filenames j = Some name ->
  image_open (Paths.join Paths.path_to_data name) = inl e ->
  plot_nearest_neighbors_3x3 example_image i st
  = (inl (Library e),
     st ++ [Figure; Suptitle (i + 1)]
        ++ flat_map cell_events (enumerate_from 0 done)
        ++ AddSubplot 3 3 (length done + 1)
           :: (if (length done =? 0)%nat then [SetTitle] else [])).
Proof.
  intros Hidx Hnn Hrange Hload Hname Hopen.
  rewrite plot_run. unfold bind at 1. rewrite Hidx. cbn [lookup ret].
  unfold bind at 1. rewrite Hnn. cbn [lookup ret].
  rewrite enumerate_from_app. cbn [enumerate_from Nat.add].
  apply (for_each_raise _ _ (enumerate_from 0 done) (length done, j) _ show_neighbor _
           ((st ++ [Figure; Suptitle (i + 1)]) ++ flat_map cell_events (enumerate_from 0 done))).
  - now apply show_neighbors_ok.
  - rewrite (show_neighbor_open_fails (length done, j) name e _ Hname Hopen).
    cbn [fst]. now rewrite <- !app_assoc.
Qed.

End Plotting.


(** *** The example in its own grid, and [list.index] on distinct names *)

(** X13: whatever order [np.argsort] gives to equal entries, the example
    image is one of the selected images unless nine images at distance
    zero were selected in its place: it can only be missing from its own
    grid when at least nine other embeddings coincide with its own. *)
Theorem example_selected_or_nine_ties (argsort : list Q -> list nat)
  (embeddings : list (list Q)) (example_idx : nat) (center : list Q) :
  sorts argsort ->
  nth_error embeddings example_idx = Some center ->
  exists nn,
    nearest_neighbors argsort embeddings example_idx = Some nn
    /\ (In example_idx nn
        \/ (length nn = 9%nat
            /\ forall a, In a nn -> key (distances embeddings center) a == 0)).
Proof.
  intros Hsort Hc. unfold nearest_neighbors. rewrite Hc.
  set (d := distances embeddings center).
  exists (firstn n_subplots (argsort d)). split; [reflexivity|].
  pose proof (Hsort d) as Hasc.
  assert (Hd : length d = length embeddings) by (unfold d, distances; apply length_map).
  assert (Hlt : (example_idx < length d)%nat).
  { rewrite Hd. apply nth_error_Some. now rewrite Hc. }
  assert (Hzero : key d example_idx == 0).
  { unfold d. rewrite (key_distances _ _ _ _ Hc). apply sq_dist_self. }
  destruct (in_dec Nat.eq_dec example_idx (firstn n_subplots (argsort d))) as [Hin | Hnot];
    [now left | right].
  split.
  - rewrite (prefix_length d _ Hasc). unfold n_subplots in *.
    destruct (Nat.le_gt_cases (length d) 9) as [Hle | Hgt]; [|lia].
    exfalso. apply Hnot. rewrite firstn_all2 by (rewrite (ascending_length d _ Hasc); lia).
    now apply (ascending_in d _ Hasc).
  - intros a Ha. apply Qle_antisym; [|apply key_nonneg].
    rewrite <- Hzero. now apply (prefix_smallest d _ Hasc n_subplots).
Qed.

(** X14: on a list of distinct names, [list.index] inverts indexing: the
    name at position [i] is found at [i] and nowhere else, and [index]
    raises (here: finds nothing) exactly for the names that are not
    listed. *)
Theorem index_inverts_lookup (filenames : list fname) :
  NoDup filenames ->
  (forall i name, nth_error filenames i = Some name <-> index filenames name = Some i)
  /\ (forall name, index filenames name = None <-> ~ In name filenames).
Proof.
  intros Hnd. split.
  - intros i name. split; [|apply index_some].
    intros Hi. destruct (index_in _ _ (nth_error_In _ _ Hi)) as [j Hj].
    rewrite Hj. f_equal. destruct (index_some _ _ _ Hj) as [Hjn _].
    rewrite NoDup_nth_error in Hnd. apply Hnd.
    + apply nth_error_Some. now rewrite Hjn.
    + now rewrite Hi, Hjn.
  - intros name. split; [|apply index_none].
    intros Hnone Hin. destruct (index_in _ _ Hin) as [j Hj]. congruence.
Qed.

End Neighbors.

(** ** Ten tiles, two of them with the same embedding *)

Module TinyPlots.
Import Data Nb Neighbors TileNames.

Definition filenames : list fname := map tile_name (seq 0 10).

(** Tiles 0 and 1 share the embedding (0, 1); tile [k] has (k, 1). *)
Definition embeddings : list (list Q) :=
  [[0; 1]; [0; 1]; [2; 1]; [3; 1]; [4; 1]; [5; 1]; [6; 1]; [7; 1]; [8; 1]; [9; 1]].

(** Every file opens as a 64 x 64 RGB image. *)
Definition image_open_all (file : fname) : nat + nat := inr 0%nat.

Definition np_asarray (pil : nat) : nat := pil.
Definition shape (a : nat) : list nat := [64; 64; 3]%nat.
Definition frame (w : nat) (a : nat) : nat := a.

(** The claim as the specification words it, for one example image: nine
    indices are selected and the example's own index comes first. *)
Definition example_first_of_nine (argsort : list Q -> list nat)
  (embeddings : list (list Q)) (filenames : list fname) (example_image : fname) : Prop :=
  exists example_idx nn,
    index filenames example_image = Some example_idx
    /\ nearest_neighbors argsort embeddings example_idx = Some nn
    /\ length nn = 9%nat
    /\ nth_error nn 0 = Some example_idx.

(** With the insertion sort and tile 1 as the example, the first position
    goes to tile 0, which has the same embedding. *)
Lemma neighbors_of_tile_1 :
  index filenames (tile_name 1) = Some 1%nat
  /\ nearest_neighbors stable_argsort embeddings 1 = Some [0; 1; 2; 3; 4; 5; 6; 7; 8]%nat.
Proof. split; vm_compute; reflexivity. Qed.

(** Tiles 0 and 1 have the same embedding, so they give the same array of
    distances whichever of them is the example, and the same tile comes
    first both times: no order that [np.argsort] may give to equal entries
    puts each of the two first in its own grid.  With only the first two
    tiles in the dataset, two tiles are selected, not nine. *)
Lemma example_not_first_of_nine :
  ~ (exists argsort,
        example_first_of_nine argsort embeddings filenames (tile_name 0)
        /\ example_first_of_nine argsort embeddings filenames (tile_name 1))
  /\ ~ (exists argsort,
          sorts argsort
          /\ example_first_of_nine argsort (firstn 2 embeddings) (firstn 2 filenames)
               (tile_name 0)).
Proof.
  split.
  - intros (argsort & (i0 & n0 & Hi0 & Hn0 & _ & Hf0) & (i1 & n1 & Hi1 & Hn1 & _ & Hf1)).
    vm_compute in Hi0. injection Hi0 as <-.
    vm_compute in Hi1. injection Hi1 as <-.
    unfold nearest_neighbors in Hn0, Hn1.
    change (nth_error embeddings 0) with (Some [0; 1]) in Hn0.
    change (nth_error embeddings 1) with (Some [0; 1]) in Hn1.
    injection Hn0 as <-. injection Hn1 as <-.
    rewrite Hf0 in Hf1. discriminate Hf1.
  - intros (argsort & Hsort & (idx & nn & Hi & Hn & Hl & _)).
    vm_compute in Hi. injection Hi as <-.
    unfold nearest_neighbors in Hn.
    change (nth_error (firstn 2 embeddings) 0) with (Some [0; 1]) in Hn.
    replace nn with (firstn n_subplots (argsort (distances (firstn 2 embeddings) [0; 1])))
      in Hl by congruence.
    rewrite (prefix_length _ _ (Hsort _)) in Hl. cbn in Hl. discriminate Hl.
Qed.

(** The tie cannot be broken in favour of the example by any sort: the two
    tiles give the same array of distances whichever of them is the
    example, so the same tile comes first both times. *)
Lemma tie_defeats_any_order (order : list Q -> list nat) :
  ~ (forall idx center,
       nth_error (firstn 2 embeddings) idx = Some center ->
       nth_error (firstn n_subplots (order (distances (firstn 2 embeddings) center))) 0
       = Some idx).
Proof.
  intros H. pose proof (H 0%nat [0; 1] eq_refl) as H0.
  pose proof (H 1%nat [0; 1] eq_refl) as H1.
  rewrite H0 in H1. discriminate.
Qed.

Lemma all_images_load :
  images_load nat nat nat shape image_open_all np_asarray filenames.
Proof. intros name _. now exists 0%nat, 64%nat, 64%nat. Qed.

Lemma tile_5_listed : In (tile_name 5) filenames.
Proof. apply (nth_error_In _ 5). reflexivity. Qed.

(** Tile 9 as an RGB image and the other tiles with a fourth channel:
    they open, but only tile 9 takes the frame. *)
Definition shape_of (a : nat) : list nat := [64; 64; a]%nat.

Definition image_open_rgba (file : fname) : nat + nat :=
  if String.eqb file (Paths.join Paths.path_to_data (tile_name 9)) then inr 3%nat
  else inr 4%nat.

Lemma tile_9_listed : In (tile_name 9) filenames.
Proof. apply (nth_error_In _ 9). reflexivity. Qed.

Lemma tile_names_open (name : fname) :
  opens nat nat image_open_rgba name.
Proof.
  unfold opens, image_open_rgba.
  destruct (String.eqb _ _); [now exists 3%nat | now exists 4%nat].
Qed.

(** The grid of tile 9: its first image is tile 9 itself, the others need
    only open. *)
Lemma grid_of_tile_9_loads :
  grid_loads nat nat nat shape_of image_open_rgba np_asarray filenames
    (selected stable_argsort filenames embeddings (tile_name 9)).
Proof.
  intros k j name Hk Hj. destruct k as [|k]; [|apply tile_names_open].
  vm_compute in Hk. injection Hk as <-. vm_compute in Hj. injection Hj as <-.
  exists 3%nat, 64%nat, 64%nat, 3%nat. repeat split. now left.
Qed.

(** Tile 9 has an embedding of its own: its grid goes through, starts with
    tile 9 itself and has nine cells. *)
Lemma neighbors_of_tile_9 :
  exists center,
    nth_error embeddings 9 = Some center
    /\ nth_error (firstn n_subplots (stable_argsort (distances embeddings center))) 0
       = Some 9%nat
    /\ length (firstn n_subplots (stable_argsort (distances embeddings center))) = 9%nat
    /\ fst (plot_nearest_neighbors_3x3 nat nat nat shape_of image_open_rgba np_asarray
              frame stable_argsort filenames embeddings (tile_name 9) 0 [])
       = inr tt.
Proof.
  destruct (nearest_neighbors_grid nat nat nat shape_of image_open_rgba np_asarray frame
              stable_argsort filenames embeddings (tile_name 9) 0 []
              stable_argsort_sorts eq_refl tile_9_listed grid_of_tile_9_loads)
    as (idx & center & Hi & Hc & H).
  vm_compute in Hi. injection Hi as <-.
  exists center. split; [exact Hc|]. cbv zeta in H.
  destruct H as (_ & Hrun & Hlen & _ & _ & _ & _ & _ & Huniq).
  split; [|split; [exact Hlen | now rewrite Hrun]].
  apply Huniq. intros j Hj Hz.
  vm_compute in Hc. injection Hc as <-.
  do 10 (destruct j as [|j]; [try reflexivity; vm_compute in Hz; discriminate|]).
  vm_compute in Hj. lia.
Defined.


(** The file of tile 7 is missing (errno 2); the others open as RGB
    images. *)
Definition image_open_but_7 (file : fname) : nat + nat :=
  if String.eqb file (Paths.join Paths.path_to_data (tile_name 7)) then inl 2%nat
  else inr 3%nat.

(** In the grid of tile 9, tile 7 is the third image: the grid stops there,
    with two cells drawn and the third subplot added. *)
Lemma grid_of_tile_9_stops_at_tile_7 :
  plot_nearest_neighbors_3x3 nat nat nat shape_of image_open_but_7 np_asarray frame
    stable_argsort filenames embeddings (tile_name 9) 0 []
  = (inl (Library 2%nat),
     [Figure; Suptitle 1;
      AddSubplot 3 3 1; SetTitle;
      Imshow (Paths.join Paths.path_to_data (tile_name 9)) true; AxisOff;
      AddSubplot 3 3 2;
      Imshow (Paths.join Paths.path_to_data (tile_name 8)) false; AxisOff;
      AddSubplot 3 3 3]).
Proof.
  rewrite (plot_stops_at_missing_file nat nat nat shape_of image_open_but_7 np_asarray
             frame stable_argsort filenames embeddings (tile_name 9) 0 []
             9 [9; 8]%nat 7 [6; 5; 4; 3; 2; 0]%nat (tile_name 7) 2%nat).
  - reflexivity.
  - vm_compute. reflexivity.
  - vm_compute. reflexivity.
  - intros j [<- | [<- | []]]; vm_compute; lia.
  - intros k j name Hk Hj.
    destruct k as [|[|k]]; cbn in Hk; [| |destruct k; discriminate Hk];
      injection Hk as <-; vm_compute in Hj; injection Hj as <-.
    + exists 3%nat, 64%nat, 64%nat, 3%nat. repeat split. now left.
    + now exists 3%nat.
  - reflexivity.
  - reflexivity.
Defined.


(** *** More runs on the ten tiles *)

Lemma filenames_distinct : NoDup filenames.
Proof.
  vm_compute.
  repeat (constructor; [intros H; cbn in H; intuition discriminate|]).
  constructor.
Qed.

Lemma all_examples_listed (ex : fname) :
  In ex [tile_name 5; tile_name 1] -> In ex filenames.
Proof.
  intros [<- | [<- | []]].
  - apply (nth_error_In _ 5). reflexivity.
  - apply (nth_error_In _ 1). reflexivity.
Qed.

(** Two examples, two figures, titled 1 and 2. *)
Lemma two_examples_two_figures :
  exists added,
    plot_examples nat nat nat shape image_open_all np_asarray frame stable_argsort
      filenames embeddings [tile_name 5; tile_name 1] []
    = (inr tt, added)
    /\ filter is_header added = [Figure; Suptitle 1; Figure; Suptitle 2].
Proof.
  destruct (plot_examples_one_figure_each nat nat nat shape image_open_all np_asarray
              frame stable_argsort filenames embeddings [tile_name 5; tile_name 1] []
              stable_argsort_sorts eq_refl all_images_load all_examples_listed)
    as (added & Hrun & Hadded).
  exists added. split; [exact Hrun | exact Hadded].
Defined.

(** Ten tiles with one and the same embedding: with the insertion sort the
    grid of the last tile holds the nine others and not the tile itself. *)
Definition identical_embeddings : list (list Q) := repeat [1; 1] 10.

Lemma last_of_ten_identical_not_selected :
  nearest_neighbors stable_argsort identical_embeddings 9
  = Some [0; 1; 2; 3; 4; 5; 6; 7; 8]%nat
  /\ exists nn,
       nearest_neighbors stable_argsort identical_embeddings 9 = Some nn
       /\ (In 9%nat nn
           \/ (length nn = 9%nat
               /\ forall a, In a nn -> key (distances identical_embeddings [1; 1]) a == 0)).
Proof.
  split; [vm_compute; reflexivity|].
  exact (example_selected_or_nine_ties stable_argsort identical_embeddings 9 [1; 1]
           stable_argsort_sorts eq_refl).
Defined.

(** The ten names are distinct: tile 7 is found at position 7, and a name
    that is not listed is not found. *)
Lemma index_on_ten_tiles :
  index filenames (tile_name 7) = Some 7%nat
  /\ index filenames (tile_name 77) = None.
Proof.
  destruct (index_inverts_lookup filenames filenames_distinct) as [Hpos Hnone].
  split.
  - apply Hpos. reflexivity.
  - apply Hnone. vm_compute. intuition discriminate.
Defined.

End TinyPlots.

(** ** Cell 23, second half: drawing the thumbnails *)

Module Titles.
Import String.

Definition scatter_title : string := "Scatter Plot of the Sentinel-2 Dataset"%string.

End Titles.

Module Overlays.
Import Data Nb Scatter.
Local Open Scope nb_scope.

(** Python's [int(x)] on a float: truncation towards zero. *)
Definition py_int (x : Q) : Z := if Qlt_le_dec x 0 then Qceiling x else Qfloor x.

Section Figure.

(** Library exceptions, PIL images, numpy arrays. *)
Variables E Pil Arr : Type.

(** What can be raised in this function: what a library raises, and the
    ZeroDivisionError of Python's own float division. *)
Inductive err : Type :=
| FromLibrary (e : E)
| ZeroDivisionError.

Inductive scatter_event : Type :=
| ScFigure
| ScSuptitle (title : String.string)
| ScAddSubplot (nrows ncols pos : nat)
| AddArtist (img : Arr) (xy : Q * Q)
| SetAspect (ratio : Q).

(** [Image.open], [torchvision.transforms.functional.resize], [np.array]. *)
Variable image_open : fname -> E + Pil.
Variable resize : Pil -> Z -> E + Pil.
Variable np_array : Pil -> Arr.

(** [rcp['figure.figsize'][0]] and [ax.get_data_ratio()]. *)
Variable figsize_width : Q.
Variable data_ratio : Q.

(** The notebook's globals, and the outcome of [np.random.shuffle]. *)
Variable filenames : list fname.
Variable embeddings_2d : list (Q * Q).
Variable shuffle : list nat -> list nat.

Definition ScM (A : Type) : Type := M err scatter_event A.

Definition from_library {A : Type} (r : E + A) : ScM A :=
  match r with
  | inl e => raise (Library (FromLibrary e))
  | inr a => ret a
  end.

(** Python's [1. / x]. *)
Definition py_inverse (x : Q) : ScM Q :=
  if Qeq_bool x 0 then raise (Library ZeroDivisionError) else ret (1 / x).

(** The body of the loop over [shown_images_idx]. *)
Definition add_thumbnail (idx : nat) : ScM unit :=
  let thumbnail_size := py_int (figsize_width * 2) in
  name <- lookup IndexError (nth_error filenames idx) ;;
  let path := Paths.join Paths.path_to_data name in
  img <- from_library (image_open path) ;;
  img <- from_library (resize img thumbnail_size) ;;
  let img := np_array img in
  emit (AddArtist img (row embeddings_2d idx)).

(** [get_scatter_plot_with_thumbnails]. *)
Definition get_scatter_plot_with_thumbnails : ScM unit :=
  emit ScFigure ;;;
  emit (ScSuptitle Titles.scatter_title) ;;;
  emit (ScAddSubplot 1 1 1) ;;;
  (* shuffle images and find out which images to show *)
  let shown := shown_images_idx embeddings_2d shuffle in
  (* plot image overlays *)
  for_each shown add_thumbnail ;;;
  (* set aspect ratio *)
  ratio <- py_inverse data_ratio ;;
  emit (SetAspect ratio).

(** What loading the thumbnail of image [idx] gives. *)
Definition thumbnail (idx : nat) : option Arr :=
  match nth_error filenames idx with
  | None => None
  | Some name =>
      match image_open (Paths.join Paths.path_to_data name) with
      | inl _ => None
      | inr img =>
          match resize img (py_int (figsize_width * 2)) with
          | inl _ => None
          | inr img => Some (np_array img)
          end
      end
  end.

Definition header : list scatter_event :=
  [ScFigure; ScSuptitle Titles.scatter_title; ScAddSubplot 1 1 1].

Definition artist (idx : nat) (img : Arr) : scatter_event :=
  AddArtist img (row embeddings_2d idx).

(** The artists of a list of indices whose thumbnails all load. *)
Fixpoint artists (l : list nat) : list scatter_event :=
  match l with
  | [] => []
  | idx :: l' =>
      match thumbnail idx with
      | Some img => artist idx img :: artists l'
      | None => artists l'
      end
  end.

Definition positions (evs : list scatter_event) : list (Q * Q) :=
  flat_map (fun ev => match ev with AddArtist _ xy => [xy] | _ => [] end) evs.

(** *** Running the function *)

Lemma add_thumbnail_ok (idx : nat) (img : Arr) (st : list scatter_event) :
  thumbnail idx = Some img ->
  add_thumbnail idx st = (inr tt, st ++ [artist idx img]).
Proof.
  unfold thumbnail, add_thumbnail, bind, lookup, from_library.
  destruct (nth_error filenames idx) as [name|]; [|discriminate]. cbn [ret].
  destruct (image_open _) as [e | pil]; [discriminate|]. cbn [ret].
  destruct (resize pil _) as [e | small]; [discriminate|]. cbn [ret].
  now intros [= <-].
Qed.

Lemma add_thumbnail_open_fails (idx : nat) (name : fname) (e : E)
  (st : list scatter_event) :
  nth_error filenames idx = Some name ->
  image_open (Paths.join Paths.path_to_data name) = inl e ->
  add_thumbnail idx st = (inl (Library (FromLibrary e)), st).
Proof.
  intros Hn Ho. unfold add_thumbnail, bind, lookup, from_library.
  rewrite Hn. cbn [ret]. now rewrite Ho.
Qed.

Lemma add_thumbnails_ok (l : list nat) (st : list scatter_event) :
  (forall idx, In idx l -> thumbnail idx <> None) ->
  for_each l add_thumbnail st = (inr tt, st ++ artists l).
Proof.
  revert st. induction l as [|idx l IH]; intros st Hall.
  - cbn. now rewrite app_nil_r.
  - cbn [for_each artists].
    destruct (thumbnail idx) as [img|] eqn:Ht;
      [|now destruct (Hall idx (or_introl eq_refl))].
    rewrite (bind_ret _ _ _ _ _ _ _ (add_thumbnail_ok idx img st Ht)).
    rewrite IH by (intros j Hj; apply Hall; now right).
    now rewrite <- app_assoc.
Qed.

Lemma positions_artists (l : list nat) :
  (forall idx, In idx l -> thumbnail idx <> None) ->
  positions (artists l) = map (row embeddings_2d) l.
Proof.
  induction l as [|idx l IH]; intros Hall; [reflexivity|].
  cbn [artists]. destruct (thumbnail idx) as [img|] eqn:Ht;
    [|now destruct (Hall idx (or_introl eq_refl))].
  change (positions (artist idx img :: artists l))
    with (row embeddings_2d idx :: positions (artists l)).
  rewrite IH by (intros j Hj; apply Hall; now right). reflexivity.
Qed.


Lemma ForallOrdPairs_map {A B : Type} (f : A -> B) (R : B -> B -> Prop) (l : list A) :
  ForallOrdPairs (fun a b => R (f a) (f b)) l -> ForallOrdPairs R (map f l).
Proof.
  induction 1 as [|a l Ha Hl IH]; cbn; constructor; [|exact IH].
  apply Forall_map. exact Ha.
Qed.

Lemma shown_in_range (i : nat) :
  (forall l, Permutation l (shuffle l)) ->
  In i (shown_images_idx embeddings_2d shuffle) -> (i < length embeddings_2d)%nat.
Proof.
  intros Hperm Hi. unfold shown_images_idx, select in Hi.
  apply fold_select_incl in Hi as [[] | Hi].
  apply (Permutation_in _ (Permutation_sym (Hperm _))) in Hi.
  apply in_seq in Hi. lia.
Qed.

Lemma run_function (st : list scatter_event) :
  get_scatter_plot_with_thumbnails st
  = (for_each (shown_images_idx embeddings_2d shuffle) add_thumbnail ;;;
     ratio <- py_inverse data_ratio ;;
     emit (SetAspect ratio)) (st ++ header).
Proof.
  unfold get_scatter_plot_with_thumbnails. cbv zeta.
  unfold bind at 1. cbn [emit]. unfold bind at 1. cbn [emit].
  unfold bind at 1. cbn [emit]. unfold header. now rewrite <- !app_assoc.
Qed.

(** X15: on rescaled coordinates that are all finite numbers (the
    selection that the loop makes on the array of numpy floats is then the
    one over the rationals), when the shuffle permutes the indices, every
    image's thumbnail loads and the data ratio of the axes is not zero,
    the function goes through: after the figure, its title and the axes it
    adds one artist per selected image, in the order of selection and at
    that image's point, then sets the aspect to [1 / ratio].  The points
    of the artists are pairwise at squared distance at least 2e-3, and at
    least that far from the corner (1, 1). *)
Theorem scatter_plot_goes_through (st : list scatter_event) :
  (forall l, Permutation l (shuffle l)) ->
  (forall idx, (idx < length embeddings_2d)%nat -> thumbnail idx <> None) ->
  ~ data_ratio == 0 ->
  let shown := shown_images_idx embeddings_2d shuffle in
  Thumbnails.shown_images_idx (map Thumbnails.of_point embeddings_2d) shuffle = shown
  /\ get_scatter_plot_with_thumbnails st
     = (inr tt, st ++ header ++ artists shown ++ [SetAspect (1 / data_ratio)])
  /\ positions (artists shown) = map (row embeddings_2d) shown
  /\ ForallOrdPairs (fun p q => min_dist <= sq_dist q p) (positions (artists shown))
  /\ Forall (fun p => min_dist <= sq_dist p sentinel) (positions (artists shown)).
Proof.
  intros Hperm Hload Hratio. cbv zeta.
  set (shown := shown_images_idx embeddings_2d shuffle).
  assert (Hall : forall idx, In idx shown -> thumbnail idx <> None).
  { intros idx Hidx. apply Hload. now apply shown_in_range. }
  pose proof (positions_artists shown Hall) as Hpos.
  destruct (select_any_iterator embeddings_2d (shuffle (seq 0 (length embeddings_2d))))
    as [Hpairs Hfar].
  split; [apply Thumbnails.shown_of_point|].
  split; [|split; [exact Hpos|split]].
  - rewrite run_function. fold shown.
    rewrite (bind_ret _ _ _ _ _ _ _ (add_thumbnails_ok shown (st ++ header) Hall)).
    unfold bind, py_inverse.
    destruct (Qeq_bool data_ratio 0) eqn:Eq;
      [apply Qeq_bool_iff in Eq; contradiction|].
    unfold emit, ret. now rewrite <- !app_assoc.
  - rewrite Hpos. apply ForallOrdPairs_map. exact Hpairs.
  - rewrite Hpos. apply Forall_map. exact Hfar.
Qed.

(** X16: nothing recovers from a failure in this function either.  If the
    file of a selected image does not open, the function raises that
    exception; the artists of the images selected before it stay on the
    figure and the aspect is never set.  If all thumbnails load but the
    data ratio is 0, the function raises ZeroDivisionError after all
    artists were added. *)
Theorem scatter_plot_failures (st : list scatter_event) :
  (forall done idx rest name e,
      shown_images_idx embeddings_2d shuffle = done ++ idx :: rest ->
      (forall j, In j done -> thumbnail j <> None) ->
      nth_error filenames idx = Some name ->
      image_open (Paths.join Paths.path_to_data name) = inl e ->
      get_scatter_plot_with_thumbnails st
      = (inl (Library (FromLibrary e)), st ++ header ++ artists done))
  /\ ((forall idx, In idx (shown_images_idx embeddings_2d shuffle) ->
                   thumbnail idx <> None) ->
      data_ratio == 0 ->
      get_scatter_plot_with_thumbnails st
      = (inl (Library ZeroDivisionError),
         st ++ header ++ artists (shown_images_idx embeddings_2d shuffle))).
Proof.
  split.
  - intros done idx rest name e Hshown Hdone Hname Hopen.
    rewrite run_function, Hshown. apply bind_raise.
    apply (for_each_raise _ _ done idx rest add_thumbnail _ ((st ++ header) ++ artists done)).
    + now apply add_thumbnails_ok.
    + rewrite (add_thumbnail_open_fails idx name e _ Hname Hopen).
      now rewrite <- app_assoc.
  - intros Hall Hzero. rewrite run_function.
    rewrite (bind_ret _ _ _ _ _ _ _ (add_thumbnails_ok _ (st ++ header) Hall)).
    unfold bind, py_inverse. apply Qeq_bool_iff in Hzero. rewrite Hzero.
    cbn [raise]. now rewrite <- app_assoc.
Qed.

End Figure.

Arguments FromLibrary {E} _.
Arguments ZeroDivisionError {E}.

End Overlays.

(** ** The five points as a scatter plot *)

Module TinyScatter.
Import Data Nb Scatter Overlays TileNames.

Definition filenames : list fname := map tile_name (seq 0 5).

(** Every file opens; images are identified by the length of their path. *)
Definition image_open (file : fname) : nat + nat := inr (String.length file).

(** Tile 2 is missing (errno 2). *)
Definition image_open_but_2 (file : fname) : nat + nat :=
  if String.eqb file (Paths.join Paths.path_to_data (tile_name 2)) then inl 2%nat
  else inr (String.length file).

Definition resize (img : nat) (size : Z) : nat + nat := inr img.
Definition np_array (img : nat) : nat := img.

(** matplotlib's default figure width, 6.4 inches: thumbnails of 12. *)
Definition figsize_width : Q := 32 # 5.

Lemma thumbnails_load (idx : nat) :
  (idx < length five_points)%nat ->
  thumbnail nat nat nat image_open resize np_array figsize_width filenames idx <> None.
Proof.
  intros H. unfold thumbnail.
  destruct (nth_error filenames idx) as [name|] eqn:E; [discriminate|].
  apply nth_error_None in E. cbn in *. lia.
Qed.

(** The three shown points get their artists, in the order 4, 2, 1. *)
Lemma scatter_plot_of_five_points :
  fst (get_scatter_plot_with_thumbnails nat nat nat image_open resize np_array
         figsize_width 1 filenames five_points (@rev nat) [])
  = inr tt
  /\ positions nat
       (artists nat nat nat image_open resize np_array figsize_width filenames
          five_points (shown_images_idx five_points (@rev nat)))
     = [(1, 0); (1 # 2, 1 # 2); (1 # 100, 1 # 100)].
Proof.
  destruct (scatter_plot_goes_through nat nat nat image_open resize np_array
              figsize_width 1 filenames five_points (@rev nat) []
              (@Permutation_rev nat) thumbnails_load ltac:(discriminate))
    as (_ & Hrun & Hpos & _).
  split; [now rewrite Hrun|]. rewrite Hpos. reflexivity.
Defined.

(** With the file of tile 2 missing, the artist of tile 4 is on the figure
    when the exception of [Image.open] comes out. *)
Lemma scatter_plot_with_missing_tile :
  exists img,
    get_scatter_plot_with_thumbnails nat nat nat image_open_but_2 resize np_array
      figsize_width 1 filenames five_points (@rev nat) []
    = (inl (Library (FromLibrary 2%nat)),
       header nat ++ [AddArtist nat img (1, 0)]).
Proof.
  eexists.
  rewrite (proj1 (scatter_plot_failures nat nat nat image_open_but_2 resize np_array
                    figsize_width 1 filenames five_points (@rev nat) [])
             [4%nat] 2%nat [1%nat] (tile_name 2) 2%nat).
  - vm_compute. reflexivity.
  - vm_compute. reflexivity.
  - intros j [<- | []]. vm_compute. discriminate.
  - reflexivity.
  - vm_compute. reflexivity.
Defined.

(** The thumbnail size for the default figure width: int(12.8) = 12. *)
Lemma default_thumbnail_size : py_int (figsize_width * 2) = 12%Z.
Proof. reflexivity. Qed.

End TinyScatter.

(** ** Cell 25: the black frame, on arrays *)

Module Frame.

(** A numpy array: its shape and the entry at each index.  Entries at
    indices outside the shape are never read. *)
Record ndarray : Type := mkArray {
  shape : list nat;
  item : list nat -> N
}.

(** The cast to [np.uint8]. *)
Definition to_uint8 (v : N) : N := (v mod 256)%N.

Definition np_zeros (sh : list nat) : ndarray := mkArray sh (fun _ => 0%N).

Definition astype_uint8 (a : ndarray) : ndarray :=
  mkArray (shape a) (fun idx => to_uint8 (item a idx)).

(** The bounds of the slice [w:-w] on an axis of length [n]: the start is
    clipped to the axis; the stop [-w] counts from the end when [w] is
    positive and is the literal 0 when [w] is 0. *)
Definition slice_start (w n : nat) : nat := Nat.min w n.
Definition slice_stop (w n : nat) : nat := if (w =? 0)%nat then 0%nat else (n - w)%nat.

(** Broadcasting in an assignment: a source axis fits a target axis of the
    same length, and an axis of length 1 fits any. *)
Definition broadcastable (src dst : nat) : bool := ((src =? dst) || (src =? 1))%nat.

Definition bidx (src i : nat) : nat := if (src =? 1)%nat then 0%nat else i.

(** [get_image_as_np_array_with_frame], from the loaded array on; [None]
    stands for ValueError (from unpacking [img.shape] or from the
    assignment). *)
Definition add_frame (img : ndarray) (w : nat) : option ndarray :=
  match shape img with
  | [ny; nx; c] =>
      (* create an empty image with padding for the frame *)
      let H := (w + ny + w)%nat in
      let W := (w + nx + w)%nat in
      let framed_img := astype_uint8 (np_zeros [H; W; 3%nat]) in
      (* put the original image in the middle of the new one *)
      let y0 := slice_start w H in
      let y1 := slice_stop w H in
      let x0 := slice_start w W in
      let x1 := slice_stop w W in
      if broadcastable ny (y1 - y0) && broadcastable nx (x1 - x0) && broadcastable c 3
      then
        Some (mkArray (shape framed_img)
                (fun idx =>
                   match idx with
                   | [y; x; ch] =>
                       if ((y0 <=? y) && (y <? y1) && (x0 <=? x) && (x <? x1))%nat
                       then to_uint8 (item img [bidx ny (y - y0); bidx nx (x - x0); bidx c ch])
                       else item framed_img idx
                   | _ => item framed_img idx
                   end))
      else None
  | _ => None
  end.

(** *** Slices *)

Lemma slice_positive (w n : nat) :
  (0 < w)%nat ->
  slice_start w (w + n + w) = w /\ slice_stop w (w + n + w) = (w + n)%nat.
Proof.
  intros Hw. unfold slice_start, slice_stop.
  destruct (Nat.eqb_spec w 0); lia.
Qed.

Lemma slice_zero (n : nat) : slice_start 0 (0 + n + 0) = 0%nat /\ slice_stop 0 (0 + n + 0) = 0%nat.
Proof. split; reflexivity. Qed.

Lemma broadcastable_self (n : nat) : broadcastable n n = true.
Proof. unfold broadcastable. now rewrite Nat.eqb_refl. Qed.

Lemma broadcastable_channels (c : nat) : broadcastable c 3 = true <-> c = 3%nat \/ c = 1%nat.
Proof.
  unfold broadcastable. rewrite orb_true_iff, !Nat.eqb_eq. reflexivity.
Qed.

Lemma broadcastable_empty (n : nat) : broadcastable n 0 = true <-> (n <= 1)%nat.
Proof.
  unfold broadcastable. rewrite orb_true_iff, !Nat.eqb_eq. lia.
Qed.

Lemma bidx_in_range (n i : nat) : (i < n)%nat -> bidx n i = i.
Proof. intros H. unfold bidx. destruct (Nat.eqb_spec n 1); lia. Qed.

(** X17: for a frame width above 0 and an image of shape (ny, nx, c) with
    3 channels or 1, the result has shape (ny + 2w, nx + 2w, 3); inside
    the frame it holds the image (cast to uint8, a single channel repeated
    over the three), and every entry of the frame itself is 0. *)
Theorem add_frame_content (img : ndarray) (w ny nx c : nat) :
  (0 < w)%nat ->
  shape img = [ny; nx; c] ->
  c = 3%nat \/ c = 1%nat ->
  exists framed,
    add_frame img w = Some framed
    /\ shape framed = [(ny + 2 * w)%nat; (nx + 2 * w)%nat; 3%nat]
    /\ (forall y x ch,
          (y < ny)%nat -> (x < nx)%nat -> (ch < 3)%nat ->
          item framed [(w + y)%nat; (w + x)%nat; ch]
          = to_uint8 (item img [y; x; if (c =? 1)%nat then 0%nat else ch]))
    /\ (forall y x ch,
          (y < w \/ w + ny <= y \/ x < w \/ w + nx <= x)%nat ->
          item framed [y; x; ch] = 0%N).
Proof.
  intros Hw Hs Hc. unfold add_frame. rewrite Hs. cbv zeta.
  destruct (slice_positive w ny Hw) as [Ey0 Ey1].
  destruct (slice_positive w nx Hw) as [Ex0 Ex1].
  rewrite Ey0, Ey1, Ex0, Ex1.
  replace (w + ny - w)%nat with ny by lia. replace (w + nx - w)%nat with nx by lia.
  rewrite !broadcastable_self, (proj2 (broadcastable_channels c) Hc). cbn [andb].
  eexists. split; [reflexivity|]. cbn [shape item astype_uint8 np_zeros]. split.
  - f_equal; [lia | f_equal; lia].
  - split.
    + intros y x ch Hy Hx Hch.
      assert (Hin : ((w <=? w + y) && (w + y <? w + ny)
                     && (w <=? w + x) && (w + x <? w + nx))%nat = true).
      { rewrite !andb_true_iff, !Nat.leb_le, !Nat.ltb_lt. lia. }
      rewrite Hin. replace (w + y - w)%nat with y by lia.
      replace (w + x - w)%nat with x by lia.
      rewrite (bidx_in_range ny y Hy), (bidx_in_range nx x Hx). reflexivity.
    + intros y x ch Hout.
      assert (Hnot : ((w <=? y) && (y <? w + ny) && (w <=? x) && (x <? w + nx))%nat = false).
      { apply not_true_is_false. rewrite !andb_true_iff, !Nat.leb_le, !Nat.ltb_lt. lia. }
      rewrite Hnot. reflexivity.
Qed.

(** X18: when the function raises.  With a frame width above 0 it raises
    exactly for the arrays that are not three-dimensional (a grey-scale
    image of shape (ny, nx)) or whose last axis is neither 3 nor 1 (an
    image with an alpha channel).  With [w = 0] the slice [0:-0] is
    empty, so it raises for every image with more than one row or more
    than one column. *)
Theorem add_frame_raises (img : ndarray) :
  (forall w, (0 < w)%nat ->
     (add_frame img w = None
      <-> ~ exists ny nx c, shape img = [ny; nx; c] /\ (c = 3%nat \/ c = 1%nat)))
  /\ (forall ny nx c,
        shape img = [ny; nx; c] -> (1 < ny \/ 1 < nx)%nat -> add_frame img 0 = None).
Proof.
  split.
  - intros w Hw. split.
    + intros Hnone (ny & nx & c & Hs & Hc).
      destruct (add_frame_content img w ny nx c Hw Hs Hc) as (f & Hf & _). congruence.
    + intros Hnot. unfold add_frame.
      destruct (shape img) as [|ny [|nx [|c [|]]]] eqn:Hs; try reflexivity.
      cbv zeta. destruct (broadcastable c 3) eqn:Hc.
      * exfalso. apply Hnot. exists ny, nx, c. split; [reflexivity|].
        now apply broadcastable_channels.
      * now rewrite andb_false_r.
  - intros ny nx c Hs Hbig. unfold add_frame. rewrite Hs. cbv zeta.
    destruct (slice_zero ny) as [Ey0 Ey1]. destruct (slice_zero nx) as [Ex0 Ex1].
    rewrite Ey0, Ey1, Ex0, Ex1. cbn [Nat.sub].
    destruct (broadcastable ny 0) eqn:Hy; [|reflexivity].
    destruct (broadcastable nx 0) eqn:Hx; [|reflexivity].
    apply broadcastable_empty in Hy, Hx. lia.
Qed.

(** The function of the plotting section, taken at arrays with this frame,
    returns what [add_frame] returns for the default width 5. *)
Definition frame_or_same (w : nat) (img : ndarray) : ndarray :=
  match add_frame img w with
  | Some framed => framed
  | None => img
  end.

Lemma with_frame_on_arrays (E Pil : Type) (image_open : Data.fname -> E + Pil)
  (np_asarray : Pil -> ndarray) (fn : Data.fname) (pil : Pil)
  (st : list Neighbors.plot_event) :
  image_open fn = inr pil ->
  Neighbors.get_image_as_np_array_with_frame E Pil ndarray shape image_open np_asarray
    frame_or_same fn st
  = match add_frame (np_asarray pil) 5 with
    | Some framed => (inr framed, st)
    | None => (inl Nb.ValueError, st)
    end.
Proof.
  intros Ho. unfold Neighbors.get_image_as_np_array_with_frame.
  rewrite (Nb.bind_ret _ _ _ _ _ _ _ (Neighbors.get_image_ok _ _ _ _ _ _ _ _ Ho)).
  unfold frame_or_same, add_frame.
  destruct (shape (np_asarray pil)) as [|ny [|nx [|c [|]]]]; try reflexivity.
  cbv zeta.
  destruct (slice_positive 5 ny ltac:(lia)) as [Ey0 Ey1].
  destruct (slice_positive 5 nx ltac:(lia)) as [Ex0 Ex1].
  rewrite Ey0, Ey1, Ex0, Ex1.
  replace (5 + ny - 5)%nat with ny by lia. replace (5 + nx - 5)%nat with nx by lia.
  rewrite !broadcastable_self. cbn [andb]. unfold broadcastable.
  destruct ((c =? 3)%nat || (c =? 1)%nat); reflexivity.
Qed.

(** A 2 x 2 image with three channels, entry (y, x, ch) = 100 y + 10 x + ch. *)
Definition small_image : ndarray :=
  mkArray [2; 2; 3]%nat
    (fun idx =>
       match idx with
       | [y; x; ch] => N.of_nat (100 * y + 10 * x + ch)
       | _ => 0%N
       end).

Lemma framed_small_image :
  exists framed,
    add_frame small_image 5 = Some framed
    /\ shape framed = [12; 12; 3]%nat
    /\ item framed [6; 5; 2]%nat = 102%N
    /\ item framed [4; 5; 2]%nat = 0%N.
Proof.
  destruct (add_frame_content small_image 5 2 2 3 ltac:(lia) eq_refl (or_introl eq_refl))
    as (framed & Hf & Hs & Hin & Hout).
  exists framed. split; [exact Hf|]. split; [exact Hs|]. split.
  - exact (Hin 1%nat 0%nat 2%nat ltac:(lia) ltac:(lia) ltac:(lia)).
  - apply Hout. lia.
Defined.

End Frame.

(** ** The whole notebook, call by call

    Every call into a library, and every built-in operation that can
    raise, is an operation [op] whose outcome the library decides: it
    returns a value or raises.  The notebook is a program over these
    operations, cell after cell, and [run] executes it: a raise ends the
    run.  The only other construct is the [with] statement of cell 17. *)

Module Literals.
Import String.
Local Open Scope string_scope.

Definition cuda : string := "cuda".
Definition cpu : string := "cpu".
Definition mean : string := "mean".
Definition std : string := "std".
Definition off : string := "off".
Definition box : string := "box".
Definition example_title : string := "Example Image".

(** The modules that cells 3 and 19 import, in order. *)
Definition imports_3 : list string :=
  [ "math"; "torch"; "torch.nn"; "torchvision"; "numpy"; "lightly";
    "lightly.models.modules.heads.SimSiamPredictionHead";
    "lightly.models.modules.heads.SimSiamProjectionHead" ].

Definition imports_19 : list string :=
  [ "os"; "PIL.Image"; "matplotlib.pyplot"; "matplotlib.offsetbox";
    "matplotlib.rcParams"; "torchvision.transforms.functional";
    "sklearn.random_projection" ].

(** [f"Nearest Neighbor Plot {i + 1}"]. *)
Definition neighbor_title (i : nat) : string :=
  "Nearest Neighbor Plot " ++ DecimalString.NilEmpty.string_of_uint (Nat.to_uint (i + 1)).

(** [example_images]. *)
Definition example_images : list string :=
  [ "S2B_MSIL1C_20200526T101559_N0209_R065_T31TGE/tile_00154.png";
    "S2B_MSIL1C_20200526T101559_N0209_R065_T32SLJ/tile_00527.png";
    "S2B_MSIL1C_20200526T101559_N0209_R065_T32TNL/tile_00556.png";
    "S2B_MSIL1C_20200526T101559_N0209_R065_T31SGD/tile_01731.png";
    "S2B_MSIL1C_20200526T101559_N0209_R065_T32SMG/tile_00238.png" ].

End Literals.

Module Notebook.
Import Data.

Section Calls.

(** The Python objects that only the libraries look into: tensors,
    modules, data sets, loaders, transforms, arrays, figures, axes. *)
Variable Obj : Type.

(** An instance of the notebook's class [SimSiam]: its three attributes. *)
Record simsiam : Type := mkSimSiam {
  backbone : Obj;
  projection_head : Obj;
  prediction_head : Obj
}.

(** The operations, indexed by the type of what they return. *)
Inductive op : Type -> Type :=
(* cells 0, 3 and 19 *)
| Matplotlib_inline : op unit
| Import_module (name : String.string) : op unit
(* cell 7 *)
| Torch_manual_seed (seed : nat) : op Obj
| Np_random_seed (seed : nat) : op unit
(* cell 9 *)
| ImageCollateFunction (input_size : nat)
    (hf_prob vf_prob rr_prob min_scale cj_prob cj_bright cj_contrast cj_hue cj_sat : Q)
  : op Obj
| LightlyDataset (input_dir : String.string) (transform : option Obj) : op Obj
| DataLoader (dataset : Obj) (batch_size : nat) (shuffle : bool)
    (collate_fn : option Obj) (drop_last : bool) (num_workers : nat) : op Obj
| Resize (size : nat * nat) : op Obj
| ToTensor : op Obj
| Imagenet_normalize (key : String.string) : op Obj
| Normalize (mean std : Obj) : op Obj
| Compose (transforms : list Obj) : op Obj
(* cell 11 *)
| Resnet18 : op Obj
| Children (module : Obj) : op (list Obj)
| Sequential (layers : list Obj) : op Obj
| Module_init : op unit
| SimSiamProjectionHead (input_dim hidden_dim output_dim : nat) : op Obj
| SimSiamPredictionHead (input_dim hidden_dim output_dim : nat) : op Obj
(* cell 13 *)
| NegativeCosineSimilarity : op Obj
| Parameters (model : simsiam) : op Obj
| SGD (params : Obj) (lr momentum weight_decay : Q) : op Obj
(* cell 15 *)
| Cuda_is_available : op bool
| Module_to (model : simsiam) (device : String.string) : op unit
| Iter (loader : Obj) : op (Obj * nat)
| Next_train (it : Obj) : op (option (Obj * Obj))
| Tensor_to (x : Obj) (device : String.string) : op Obj
| Call (module x : Obj) : op Obj
| Flatten (x : Obj) (start_dim : nat) : op Obj
| Detach (x : Obj) : op Obj
| Criterion (criterion z p : Obj) : op Obj
| Tensor_add (a b : Obj) : op Obj
| Tensor_rmul (c : Q) (a : Obj) : op Obj
| Backward (loss : Obj) : op unit
| Step (optimizer : Obj) : op unit
| Zero_grad (optimizer : Obj) : op unit
| F_normalize (x : Obj) (dim : nat) : op Obj
| Torch_std (x : Obj) (dim : nat) : op Obj
| Tensor_mean (x : Obj) : op Obj
| Item (x : Obj) : op Q
| Math_sqrt (x : nat) : op Q
| Print_epoch (e : nat) (avg_loss collapse_level : Q) : op unit
(* cell 17 *)
| Module_eval (model : simsiam) : op unit
| No_grad : op Obj
| Next_test (it : Obj) : op (option (Obj * list fname))
| Torch_cat (tensors : list Obj) (dim : nat) : op Obj
| Tensor_cpu (x : Obj) : op Obj
| Tensor_numpy (x : Obj) : op Obj
(* cell 21 *)
| GaussianRandomProjection (n_components : nat) : op Obj
| Fit_transform (projection x : Obj) : op Obj
| Np_max (a : Obj) (axis : Z) : op Obj
| Np_min (a : Obj) (axis : Z) : op Obj
| Np_subtract (a b : Obj) : op Obj
| Np_divide (a b : Obj) : op Obj
(* cell 23 *)
| Plt_figure : op Obj
| Suptitle (fig : Obj) (title : String.string) : op unit
| Add_subplot (fig : Obj) (nrows ncols index : nat) : op Obj
| Np_array (rows : list (list Q)) : op Obj
| Shape_0 (a : Obj) : op nat
| Np_random_shuffle (l : list nat) : op (list nat)
| Getitem (a : Obj) (i : nat) : op Obj
| Np_power (a : Obj) (n : nat) : op Obj
| Np_sum (a : Obj) (axis : Z) : op Obj
| Np_min_all (a : Obj) : op Obj
| Less (a : Obj) (b : Q) : op bool
| Np_r_ (a : Obj) (rows : list Obj) : op Obj
| Rcp_figsize_width : op Q
| List_getitem (l : list fname) (i : nat) : op fname
| Image_open (path : String.string) : op Obj
| Functional_resize (img : Obj) (size : Z) : op Obj
| Np_array_of (img : Obj) : op Obj
| OffsetImage (img : Obj) : op Obj
| AnnotationBbox (offsetbox xy : Obj) (pad : Q) : op Obj
| Add_artist (ax artist : Obj) : op unit
| Get_data_ratio (ax : Obj) : op Q
| Truediv (a b : Q) : op Q
| Set_aspect (ax : Obj) (ratio : Q) (adjustable : String.string) : op unit
(* cell 25 *)
| List_index (l : list fname) (x : fname) : op nat
| Squeeze (a : Obj) : op Obj
| Np_argsort (a : Obj) : op Obj
| Slice_to (a : Obj) (n : nat) : op Obj
| Entries (a : Obj) : op (list nat)
| Set_title (ax : Obj) (title : String.string) : op unit
| Np_asarray (img : Obj) : op Obj
| Shape (a : Obj) : op (list nat)
| Unpack_3 (t : list nat) : op (nat * nat * nat)
| Np_zeros (shape : list nat) : op Obj
| Astype_uint8 (a : Obj) : op Obj
| Setitem_window (a : Obj) (w : nat) (value : Obj) : op unit
| Imshow (img : Obj) : op unit
| Plt_axis (option : String.string) : op unit.

(** Programs: return a value, perform an operation and go on with what it
    returned, or run a body inside a context manager and go on with what
    the body returned. *)
Inductive prog : Type -> Type :=
| Ret {A : Type} (a : A) : prog A
| Do {A X : Type} (c : op X) (k : X -> prog A) : prog A
| With {A X : Type} (cm : Obj) (body : prog X) (k : X -> prog A) : prog A.

Fixpoint bind {A B : Type} (p : prog A) : (A -> prog B) -> prog B :=
  match p in prog A return (A -> prog B) -> prog B with
  | Ret a => fun k => k a
  | Do c f => fun k => Do c (fun x => bind (f x) k)
  | With cm body f => fun k => With cm body (fun x => bind (f x) k)
  end.

Definition call {X : Type} (c : op X) : prog X := Do c Ret.

(** [with cm: body]. *)
Definition with_ {X : Type} (cm : Obj) (body : prog X) : prog X := With cm body Ret.

Declare Scope prog_scope.
Delimit Scope prog_scope with prog.
Local Open Scope prog_scope.

Notation "x <- c ;; k" := (bind c (fun x => k))
  (at level 61, c at next level, right associativity) : prog_scope.
Notation "c ;;; k" := (bind c (fun _ => k))
  (at level 61, right associativity) : prog_scope.

(** [for a in l: body], on the variables [s] that the body updates. *)
Fixpoint for_each {S A : Type} (l : list A) (body : S -> A -> prog S) (s : S) : prog S :=
  match l with
  | [] => Ret s
  | a :: l' => s' <- body s a ;; for_each l' body s'
  end.

(** [for b in it: body] for an iterator that announces [n] items: [next]
    is called until it signals the end ([None]: StopIteration), which an
    iterator of [n] items does at call [n + 1]. *)
Fixpoint iterate {S B : Type} (n : nat) (next : op (option B))
  (body : S -> B -> prog S) (s : S) : prog S :=
  match n with
  | O => Do next (fun _ => Ret s)
  | S n' =>
      Do next (fun ob =>
                 match ob with
                 | None => Ret s
                 | Some b => s' <- body s b ;; iterate n' next body s'
                 end)
  end.

(** *** Cells 0, 3 and 19: the magic command and the imports *)

Definition cell_0 : prog unit := call Matplotlib_inline.

Definition import_all (names : list String.string) : prog unit :=
  for_each names (fun _ name => call (Import_module name)) tt.

Definition cell_3 : prog unit := import_all Literals.imports_3.

Definition cell_19 : prog unit := import_all Literals.imports_19.

(** *** Cell 7 *)

Definition cell_7 : prog unit :=
  call (Torch_manual_seed 0) ;;;
  call (Np_random_seed 0).

(** *** Cell 9: returns [(dataloader_train_simsiam, dataloader_test)] *)

Definition cell_9 : prog (Obj * Obj) :=
  collate_fn <-
    call (ImageCollateFunction Config.input_size (1 # 2) (1 # 2) (1 # 2) (1 # 2)
            (2 # 10) (1 # 10) (1 # 10) (1 # 10) (1 # 10)) ;;
  dataset_train_simsiam <- call (LightlyDataset Paths.path_to_data None) ;;
  dataloader_train_simsiam <-
    call (DataLoader dataset_train_simsiam Config.batch_size true (Some collate_fn) true
            Config.num_workers) ;;
  resize <- call (Resize (Config.input_size, Config.input_size)) ;;
  to_tensor <- call ToTensor ;;
  mean <- call (Imagenet_normalize Literals.mean) ;;
  std <- call (Imagenet_normalize Literals.std) ;;
  normalize <- call (Normalize mean std) ;;
  test_transforms <- call (Compose [resize; to_tensor; normalize]) ;;
  dataset_test <- call (LightlyDataset Paths.path_to_data (Some test_transforms)) ;;
  dataloader_test <-
    call (DataLoader dataset_test Config.batch_size false None false Config.num_workers) ;;
  Ret (dataloader_train_simsiam, dataloader_test).

(** *** Cell 11 *)

(** [SimSiam.__init__]. *)
Definition simsiam_init (backbone : Obj)
  (num_ftrs proj_hidden_dim pred_hidden_dim out_dim : nat) : prog simsiam :=
  call Module_init ;;;
  projection_head <- call (SimSiamProjectionHead num_ftrs proj_hidden_dim out_dim) ;;
  prediction_head <- call (SimSiamPredictionHead out_dim pred_hidden_dim out_dim) ;;
  Ret (mkSimSiam backbone projection_head prediction_head).

(** [SimSiam.forward]. *)
Definition forward (self : simsiam) (x : Obj) : prog (Obj * Obj) :=
  y <- call (Call (backbone self) x) ;;
  f <- call (Flatten y 1) ;;
  z <- call (Call (projection_head self) f) ;;
  p <- call (Call (prediction_head self) z) ;;
  z <- call (Detach z) ;;
  Ret (z, p).

Definition cell_11 : prog simsiam :=
  resnet <- call Resnet18 ;;
  children <- call (Children resnet) ;;
  backbone <- call (Sequential (removelast children)) ;;
  simsiam_init backbone Config.num_ftrs Config.proj_hidden_dim Config.pred_hidden_dim
    Config.out_dim.

(** *** Cell 13: returns [(criterion, optimizer)] *)

(** [lr = 0.05 * batch_size / 256]. *)
Definition lr : Q := (5 # 100) * inject_Z (Z.of_nat Config.batch_size) / 256.

Definition cell_13 (model : simsiam) : prog (Obj * Obj) :=
  criterion <- call NegativeCosineSimilarity ;;
  params <- call (Parameters model) ;;
  optimizer <- call (SGD params lr (9 # 10) (5 # 10000)) ;;
  Ret (criterion, optimizer).

(** *** Cell 15 *)

(** The body of the inner loop, on [(avg_loss, avg_output_std)]. *)
Definition train_batch (model : simsiam) (criterion optimizer : Obj)
  (device : String.string) (avgs : Q * Q) (views : Obj * Obj) : prog (Q * Q) :=
  let avg_loss := fst avgs in
  let avg_output_std := snd avgs in
  x0 <- call (Tensor_to (fst views) device) ;;
  x1 <- call (Tensor_to (snd views) device) ;;
  zp0 <- forward model x0 ;;
  zp1 <- forward model x1 ;;
  let z0 := fst zp0 in let p0 := snd zp0 in
  let z1 := fst zp1 in let p1 := snd zp1 in
  l0 <- call (Criterion criterion z0 p1) ;;
  l1 <- call (Criterion criterion z1 p0) ;;
  l <- call (Tensor_add l0 l1) ;;
  loss <- call (Tensor_rmul (1 # 2) l) ;;
  call (Backward loss) ;;;
  call (Step optimizer) ;;;
  call (Zero_grad optimizer) ;;;
  output <- call (Detach p0) ;;
  output <- call (F_normalize output 1) ;;
  output_std <- call (Torch_std output 0) ;;
  output_std <- call (Tensor_mean output_std) ;;
  let w := Training.w in
  loss_item <- call (Item loss) ;;
  let avg_loss := w * avg_loss + (1 - w) * loss_item in
  output_std_item <- call (Item output_std) ;;
  let avg_output_std := w * avg_output_std + (1 - w) * output_std_item in
  Ret (avg_loss, avg_output_std).

(** The body of the outer loop. *)
Definition train_epoch (model : simsiam) (criterion optimizer : Obj)
  (device : String.string) (dataloader_train_simsiam : Obj) (avgs : Q * Q) (e : nat)
  : prog (Q * Q) :=
  it <- call (Iter dataloader_train_simsiam) ;;
  avgs <- iterate (snd it) (Next_train (fst it))
            (train_batch model criterion optimizer device) avgs ;;
  root <- call (Math_sqrt Config.out_dim) ;;
  let collapse_level := Training.py_max 0 (1 - root * snd avgs) in
  call (Print_epoch e (fst avgs) collapse_level) ;;;
  Ret avgs.

(** Returns [device]. *)
Definition cell_15 (model : simsiam) (criterion optimizer dataloader_train_simsiam : Obj)
  : prog String.string :=
  available <- call Cuda_is_available ;;
  let device := if available then Literals.cuda else Literals.cpu in
  call (Module_to model device) ;;;
  for_each (seq 0 Config.epochs)
           (train_epoch model criterion optimizer device dataloader_train_simsiam)
           (0, 0) ;;;
  Ret device.

(** *** Cell 17: returns [(embeddings, filenames)] *)

Definition embed_batch (model : simsiam) (device : String.string)
  (acc : list Obj * list fname) (batch : Obj * list fname) : prog (list Obj * list fname) :=
  x <- call (Tensor_to (fst batch) device) ;;
  y <- call (Call (backbone model) x) ;;
  y <- call (Flatten y 1) ;;
  Ret (fst acc ++ [y], snd acc ++ snd batch).

Definition cell_17 (model : simsiam) (device : String.string) (dataloader_test : Obj)
  : prog (Obj * list fname) :=
  call (Module_eval model) ;;;
  cm <- call No_grad ;;
  acc <- with_ cm
           (it <- call (Iter dataloader_test) ;;
            iterate (snd it) (Next_test (fst it)) (embed_batch model device) ([], [])) ;;
  embeddings <- call (Torch_cat (fst acc) 0) ;;
  embeddings <- call (Tensor_cpu embeddings) ;;
  embeddings <- call (Tensor_numpy embeddings) ;;
  Ret (embeddings, snd acc).

(** *** Cell 21: returns [embeddings_2d] *)

Definition cell_21 (embeddings : Obj) : prog Obj :=
  projection <- call (GaussianRandomProjection 2) ;;
  embeddings_2d <- call (Fit_transform projection embeddings) ;;
  M <- call (Np_max embeddings_2d 0) ;;
  m <- call (Np_min embeddings_2d 0) ;;
  num <- call (Np_subtract embeddings_2d m) ;;
  den <- call (Np_subtract M m) ;;
  call (Np_divide num den).

(** *** Cell 23 *)

(** The body of the selection loop, on [(shown_images, shown_images_idx)]. *)
Definition select_step (embeddings_2d : Obj) (st : Obj * list nat) (i : nat)
  : prog (Obj * list nat) :=
  row <- call (Getitem embeddings_2d i) ;;
  diff <- call (Np_subtract row (fst st)) ;;
  squares <- call (Np_power diff 2) ;;
  dist <- call (Np_sum squares 1) ;;
  least <- call (Np_min_all dist) ;;
  close <- call (Less least Scatter.min_dist) ;;
  if close : bool then Ret st
  else
    row <- call (Getitem embeddings_2d i) ;;
    shown_images <- call (Np_r_ (fst st) [row]) ;;
    Ret (shown_images, snd st ++ [i]).

(** The body of the overlay loop. *)
Definition add_thumbnail (embeddings_2d ax : Obj) (filenames : list fname)
  (_ : unit) (idx : nat) : prog unit :=
  width <- call Rcp_figsize_width ;;
  let thumbnail_size := Overlays.py_int (width * 2) in
  name <- call (List_getitem filenames idx) ;;
  let path := Paths.join Paths.path_to_data name in
  img <- call (Image_open path) ;;
  img <- call (Functional_resize img thumbnail_size) ;;
  img <- call (Np_array_of img) ;;
  offset_image <- call (OffsetImage img) ;;
  xy <- call (Getitem embeddings_2d idx) ;;
  img_box <- call (AnnotationBbox offset_image xy (2 # 10)) ;;
  call (Add_artist ax img_box).

Definition get_scatter_plot_with_thumbnails (embeddings_2d : Obj) (filenames : list fname)
  : prog unit :=
  fig <- call Plt_figure ;;
  call (Suptitle fig Titles.scatter_title) ;;;
  ax <- call (Add_subplot fig 1 1 1) ;;
  shown_images <- call (Np_array [[1; 1]]) ;;
  n <- call (Shape_0 embeddings_2d) ;;
  iterator <- call (Np_random_shuffle (seq 0 n)) ;;
  shown <- for_each iterator (select_step embeddings_2d) (shown_images, []) ;;
  for_each (snd shown) (add_thumbnail embeddings_2d ax filenames) tt ;;;
  data_ratio <- call (Get_data_ratio ax) ;;
  ratio <- call (Truediv 1 data_ratio) ;;
  call (Set_aspect ax ratio Literals.box).

(** *** Cell 25 *)

Definition get_image_as_np_array (filename : String.string) : prog Obj :=
  img <- call (Image_open filename) ;;
  call (Np_asarray img).

Definition get_image_as_np_array_with_frame (filename : String.string) (w : nat)
  : prog Obj :=
  img <- get_image_as_np_array filename ;;
  shape <- call (Shape img) ;;
  dims <- call (Unpack_3 shape) ;;
  let ny := fst (fst dims) in
  let nx := snd (fst dims) in
  framed_img <- call (Np_zeros [w + ny + w; w + nx + w; 3]%nat) ;;
  framed_img <- call (Astype_uint8 framed_img) ;;
  call (Setitem_window framed_img w img) ;;;
  Ret framed_img.

(** The body of the plotting loop. *)
Definition show_neighbor (fig : Obj) (filenames : list fname) (_ : unit) (po : nat * nat)
  : prog unit :=
  let plot_offset := fst po in
  let plot_idx := snd po in
  ax <- call (Add_subplot fig 3 3 (plot_offset + 1)) ;;
  name <- call (List_getitem filenames plot_idx) ;;
  let fname := Paths.join Paths.path_to_data name in
  (if (plot_offset =? 0)%nat then
     call (Set_title ax Literals.example_title) ;;;
     img <- get_image_as_np_array_with_frame fname 5 ;;
     call (Imshow img)
   else
     img <- get_image_as_np_array fname ;;
     call (Imshow img)) ;;;
  call (Plt_axis Literals.off).

Definition plot_nearest_neighbors_3x3 (embeddings : Obj) (filenames : list fname)
  (_ : unit) (ie : nat * fname) : prog unit :=
  let i := fst ie in
  let example_image := snd ie in
  let n_subplots := Neighbors.n_subplots in
  fig <- call Plt_figure ;;
  call (Suptitle fig (Literals.neighbor_title i)) ;;;
  example_idx <- call (List_index filenames example_image) ;;
  center <- call (Getitem embeddings example_idx) ;;
  distances <- call (Np_subtract embeddings center) ;;
  distances <- call (Np_power distances 2) ;;
  distances <- call (Np_sum distances (-1)) ;;
  distances <- call (Squeeze distances) ;;
  order <- call (Np_argsort distances) ;;
  nearest_neighbors <- call (Slice_to order n_subplots) ;;
  entries <- call (Entries nearest_neighbors) ;;
  for_each (Nb.enumerate_from 0 entries) (show_neighbor fig filenames) tt.

Definition cell_25 (embeddings : Obj) (filenames : list fname) : prog unit :=
  for_each (Nb.enumerate_from 0 Literals.example_images)
           (plot_nearest_neighbors_3x3 embeddings filenames) tt.

(** *** The notebook *)

Definition notebook : prog unit :=
  cell_0 ;;;
  cell_3 ;;;
  cell_7 ;;;
  loaders <- cell_9 ;;
  model <- cell_11 ;;
  co <- cell_13 model ;;
  device <- cell_15 model (fst co) (snd co) (fst loaders) ;;
  ef <- cell_17 model device (snd loaders) ;;
  cell_19 ;;;
  embeddings_2d <- cell_21 (fst ef) ;;
  get_scatter_plot_with_thumbnails embeddings_2d (snd ef) ;;;
  cell_25 (fst ef) (snd ef).

(** *** Running a program *)

Section Run.

(** What a library raises, the state of the world outside the notebook's
    variables, and what each operation does in a given world. *)
Variables E W : Type.
Variable lib : forall X : Type, op X -> W -> (E + X) * W.

(** Entering and leaving a context manager: for [torch.no_grad()], gradient
    mode is switched off and set back; neither raises. *)
Variables ctx_enter ctx_exit : Obj -> W -> W.

(** What happened, in order. *)
Inductive entry : Type :=
| Called {X : Type} (c : op X) (r : E + X)
| Entered (cm : Obj)
| Exited (cm : Obj).

(** A raise ends the run: nothing but the exits of the [with] statements
    that are being left happens after it. *)
Fixpoint run {A : Type} (p : prog A) (w : W) : (E + A) * W * list entry :=
  match p with
  | Ret a => (inr a, w, [])
  | Do c k =>
      match lib _ c w with
      | (inl e, w1) => (inl e, w1, [Called c (inl e)])
      | (inr x, w1) =>
          let '(r, w2, t) := run (k x) w1 in (r, w2, Called c (inr x) :: t)
      end
  | With cm body k =>
      let '(r, w1, t) := run body (ctx_enter cm w) in
      let w2 := ctx_exit cm w1 in
      match r with
      | inl e => (inl e, w2, Entered cm :: t ++ [Exited cm])
      | inr x =>
          let '(r', w3, t') := run (k x) w2 in
          (r', w3, Entered cm :: t ++ Exited cm :: t')
      end
  end.














(** X6: a pass through the body of the inner loop that raises nothing
    makes exactly these 25 calls, in this order: each view is moved to the
    device; each goes through the backbone, the flattening, the projection
    head and the prediction head, and its projection is detached; the
    criterion is called on the detached projection of one view and the
    prediction of the other, both ways; the two terms are added and
    halved; [backward], [optimizer.step] and [optimizer.zero_grad] are
    called once each, in this order; the prediction of the first view is
    detached, normalised, and its standard deviation averaged; and the two
    scalars read off with [item] move the two averages. *)
Theorem batch_calls (model : simsiam) (criterion optimizer : Obj)
  (device : String.string) (avgs : Q * Q) (views : Obj * Obj) (w : W)
  (avgs' : Q * Q) (w' : W) (t : list entry) :
  run (train_batch model criterion optimizer device avgs views) w = (inr avgs', w', t) ->
  exists x0 x1 y0 f0 z0 p0 d0 y1 f1 z1 p1 d1 l0 l1 l loss o1 o2 s1 s2 loss_item std_item,
    t = [ Called (Tensor_to (fst views) device) (inr x0);
          Called (Tensor_to (snd views) device) (inr x1);
          Called (Call (backbone model) x0) (inr y0);
          Called (Flatten y0 1) (inr f0);
          Called (Call (projection_head model) f0) (inr z0);
          Called (Call (prediction_head model) z0) (inr p0);
          Called (Detach z0) (inr d0);
          Called (Call (backbone model) x1) (inr y1);
          Called (Flatten y1 1) (inr f1);
          Called (Call (projection_head model) f1) (inr z1);
          Called (Call (prediction_head model) z1) (inr p1);
          Called (Detach z1) (inr d1);
          Called (Criterion criterion d0 p1) (inr l0);
          Called (Criterion criterion d1 p0) (inr l1);
          Called (Tensor_add l0 l1) (inr l);
          Called (Tensor_rmul (1 # 2) l) (inr loss);
          Called (Backward loss) (inr tt);
          Called (Step optimizer) (inr tt);
          Called (Zero_grad optimizer) (inr tt);
          Called (Detach p0) (inr o1);
          Called (F_normalize o1 1) (inr o2);
          Called (Torch_std o2 0) (inr s1);
          Called (Tensor_mean s1) (inr s2);
          Called (Item loss) (inr loss_item);
          Called (Item s2) (inr std_item) ]
    /\ avgs' = (Training.w * fst avgs + (1 - Training.w) * loss_item,
                Training.w * snd avgs + (1 - Training.w) * std_item).
Proof.
  unfold train_batch, forward, call. cbn [bind]. intros H.
  repeat (cbn [run] in H;
          match type of H with
          | context [lib ?X ?c ?w0] =>
              destruct (lib X c w0) as [[? | ?] ?]; [discriminate H|]
          end).
  injection H as <- _ <-.
  repeat match goal with u : unit |- _ => destruct u end.
  repeat eexists.
Qed.

End Run.

End Calls.

Arguments Ret {Obj A} _.
Arguments Do {Obj A X} _ _.
Arguments With {Obj A X} _ _ _.
Arguments Called {Obj E X} _ _.
Arguments Entered {Obj E} _.
Arguments Exited {Obj E} _.

End Notebook.

(** ** Runs of the notebook against a small library

    Objects are numbers.  The directory holds the five example images,
    served in two batches; a call raises when its turn is one of those
    chosen to fail, and the built-in operations raise as Python does. *)

Module TinyNotebook.
Import Data Notebook.

Inductive exn : Type :=
| Injected (turn : nat)
| ValueError
| IndexError
| ZeroDivisionError.

(** The world: the number of calls made so far and the position of the
    iterator in use. *)
Definition world : Type := (nat * nat)%type.

Definition returns {X : Type} (x : X) (pos : nat) : (exn + X) * nat := (inr x, pos).

(** The file names of batch [k]. *)
Definition batch_names (names : list fname) (k : nat) : list fname :=
  match k with
  | O => firstn 3 names
  | S _ => skipn 3 names
  end.

(** What each operation answers when it is not made to fail. *)
Definition answer (names : list fname) {X : Type} (c : op nat X)
  : nat -> (exn + X) * nat :=
  match c in op _ X return nat -> (exn + X) * nat with
  | Matplotlib_inline _ => returns tt
  | Import_module _ _ => returns tt
  | Torch_manual_seed _ _ => returns 0%nat
  | Np_random_seed _ _ => returns tt
  | ImageCollateFunction _ _ _ _ _ _ _ _ _ _ _ => returns 1%nat
  | LightlyDataset _ _ _ => returns 2%nat
  | DataLoader _ _ _ _ _ _ _ => returns 3%nat
  | Resize _ _ => returns 4%nat
  | ToTensor _ => returns 5%nat
  | Imagenet_normalize _ _ => returns 6%nat
  | Normalize _ _ _ => returns 7%nat
  | Compose _ _ => returns 8%nat
  | Resnet18 _ => returns 9%nat
  | Children _ _ => returns [10; 11; 12]%nat
  | Sequential _ _ => returns 13%nat
  | Module_init _ => returns tt
  | SimSiamProjectionHead _ _ _ _ => returns 14%nat
  | SimSiamPredictionHead _ _ _ _ => returns 15%nat
  | NegativeCosineSimilarity _ => returns 16%nat
  | Parameters _ _ => returns 17%nat
  | SGD _ _ _ _ _ => returns 18%nat
  | Cuda_is_available _ => returns false
  | Module_to _ _ _ => returns tt
  | Iter _ _ => fun _ => (inr (19%nat, 2%nat), 0%nat)
  | Next_train _ _ =>
      fun pos => if (pos <? 2)%nat then (inr (Some (20, 21)%nat), S pos) else (inr None, pos)
  | Tensor_to _ x _ => returns x
  | Call _ m x => returns (m + x)%nat
  | Flatten _ x _ => returns x
  | Detach _ x => returns x
  | Criterion _ _ z p => returns (z + p)%nat
  | Tensor_add _ a b => returns (a + b)%nat
  | Tensor_rmul _ _ a => returns a
  | Backward _ _ => returns tt
  | Step _ _ => returns tt
  | Zero_grad _ _ => returns tt
  | F_normalize _ x _ => returns x
  | Torch_std _ x _ => returns x
  | Tensor_mean _ x => returns x
  | Item _ x => returns (1 # 100)
  | Math_sqrt _ _ => returns (22627416 # 1000000)
  | Print_epoch _ _ _ _ => returns tt
  | Module_eval _ _ => returns tt
  | No_grad _ => returns 22%nat
  | Next_test _ _ =>
      fun pos =>
        if (pos <? 2)%nat then (inr (Some (23%nat, batch_names names pos)), S pos)
        else (inr None, pos)
  | Torch_cat _ ts _ => returns (length ts)
  | Tensor_cpu _ x => returns x
  | Tensor_numpy _ x => returns x
  | GaussianRandomProjection _ _ => returns 24%nat
  | Fit_transform _ _ x => returns x
  | Np_max _ a _ => returns a
  | Np_min _ a _ => returns a
  | Np_subtract _ a b => returns (a + b)%nat
  | Np_divide _ a b => returns a
  | Plt_figure _ => returns 25%nat
  | Suptitle _ _ _ => returns tt
  | Add_subplot _ _ _ _ _ => returns 26%nat
  | Np_array _ _ => returns 27%nat
  | Shape_0 _ _ => returns (length names)
  | Np_random_shuffle _ l => returns (rev l)
  | Getitem _ _ i => returns i
  | Np_power _ a _ => returns a
  | Np_sum _ a _ => returns a
  | Np_min_all _ a => returns a
  | Less _ a _ => returns (Nat.even a)
  | Np_r_ _ a _ => returns a
  | Rcp_figsize_width _ => returns (32 # 5)
  | List_getitem _ l i =>
      fun pos =>
        match nth_error l i with
        | Some name => (inr name, pos)
        | None => (inl IndexError, pos)
        end
  | Image_open _ _ => returns 28%nat
  | Functional_resize _ img _ => returns img
  | Np_array_of _ img => returns img
  | OffsetImage _ img => returns img
  | AnnotationBbox _ b _ _ => returns b
  | Add_artist _ _ _ => returns tt
  | Get_data_ratio _ _ => returns 1
  | Truediv _ a b =>
      fun pos => if Qeq_bool b 0 then (inl ZeroDivisionError, pos) else (inr (a / b), pos)
  | Set_aspect _ _ _ _ => returns tt
  | List_index _ l x =>
      fun pos =>
        match Neighbors.index l x with
        | Some i => (inr i, pos)
        | None => (inl ValueError, pos)
        end
  | Squeeze _ a => returns a
  | Np_argsort _ a => returns a
  | Slice_to _ a _ => returns a
  | Entries _ a => returns (seq 0 (Nat.min Neighbors.n_subplots (length names)))
  | Set_title _ _ _ => returns tt
  | Np_asarray _ img => returns img
  | Shape _ _ => returns [64; 64; 3]%nat
  | Unpack_3 _ t =>
      fun pos =>
        match t with
        | [a; b; c] => (inr (a, b, c), pos)
        | _ => (inl ValueError, pos)
        end
  | Np_zeros _ _ => returns 29%nat
  | Astype_uint8 _ a => returns a
  | Setitem_window _ _ _ _ => returns tt
  | Imshow _ _ => returns tt
  | Plt_axis _ _ => returns tt
  end.

(** The library: call number [turn] raises when [fails turn]. *)
Definition lib (names : list fname) (fails : nat -> bool) (X : Type) (c : op nat X)
  (w : world) : (exn + X) * world :=
  let turn := fst w in
  if fails turn then (inl (Injected turn), (S turn, snd w))
  else let (r, pos) := answer names c (snd w) in (r, (S turn, pos)).

Definition ctx (cm : nat) (w : world) : world := w.

Definition run_notebook (names : list fname) (fails : nat -> bool)
  : (exn + unit) * world * list (entry nat exn) :=
  run nat exn world (lib names fails) ctx ctx (notebook nat) (0%nat, 0%nat).

Definition never (turn : nat) : bool := false.
Definition at_turn (k turn : nat) : bool := (turn =? k)%nat.


Definition trace (names : list fname) (fails : nat -> bool) : list (entry nat exn) :=
  snd (run_notebook names fails).

(** How a run ends: its result, the length of its trace and the last [n]
    entries of the trace. *)
Definition ending (names : list fname) (fails : nat -> bool) (n : nat)
  : (exn + unit) * nat * list (entry nat exn) :=
  let r := run_notebook names fails in
  (fst (fst r), length (snd r), skipn (length (snd r) - n) (snd r)).

Ltac by_computation :=
  match goal with
  | |- ?a = ?b => exact (@eq_refl _ b <: a = b)
  end.


(** [backward] raising on the first batch of the first epoch (call 51):
    the notebook ends with that exception and the 52 calls made so far. *)
Lemma backward_raises :
  ending Literals.example_images (at_turn 51) 1
  = (inl (Injected 51), 52%nat, [Called (Backward nat 220%nat) (inl (Injected 51))]).
Proof. by_computation. Qed.

(** The backbone raising on the first batch of the embedding loop (call
    2838): the notebook ends with that exception, and only the [with]
    statement is left after it. *)
Lemma backbone_raises_under_no_grad :
  ending Literals.example_images (at_turn 2838) 2
  = (inl (Injected 2838), 2841%nat,
     [Called (Call nat 13%nat 23%nat) (inl (Injected 2838)); Exited 22%nat]).
Proof. by_computation. Qed.

(** The file of the first thumbnail cannot be opened (call 2906): the
    notebook ends there with the exception of [Image.open]. *)
Lemma thumbnail_file_missing :
  ending Literals.example_images (at_turn 2906) 1
  = (inl (Injected 2906), 2909%nat,
     [Called (Image_open nat
                (Paths.join Paths.path_to_data
                   (nth 4 Literals.example_images String.EmptyString)))
             (inl (Injected 2906))]).
Proof. by_computation. Qed.

(** The last example image is not in the directory: [filenames.index]
    raises ValueError and the notebook ends with it. *)
Lemma example_not_listed :
  ending (firstn 4 Literals.example_images) never 1
  = (inl ValueError, 3086%nat,
     [Called (List_index nat (firstn 4 Literals.example_images)
                (nth 4 Literals.example_images String.EmptyString))
             (inl ValueError)]).
Proof. by_computation. Qed.

(** One batch against the small library: 25 calls, [backward] the
    seventeenth, and both averages moved by a tenth of 0.01. *)
Lemma batch_of_two_views :
  length (snd (run nat exn world (lib Literals.example_images never) ctx ctx
                 (train_batch nat (mkSimSiam nat 13%nat 14%nat 15%nat) 16%nat 18%nat Literals.cpu
                    (0, 0) (20%nat, 21%nat))
                 (0%nat, 0%nat)))
  = 25%nat
  /\ nth_error (snd (run nat exn world (lib Literals.example_images never) ctx ctx
                       (train_batch nat (mkSimSiam nat 13%nat 14%nat 15%nat) 16%nat 18%nat
                          Literals.cpu (0, 0) (20%nat, 21%nat))
                       (0%nat, 0%nat))) 16
     = Some (Called (Backward nat 220%nat) (inr tt)).
Proof.
  destruct (run nat exn world (lib Literals.example_images never) ctx ctx
              (train_batch nat (mkSimSiam nat 13%nat 14%nat 15%nat) 16%nat 18%nat Literals.cpu
                 (0, 0) (20%nat, 21%nat))
              (0%nat, 0%nat)) as [[[e | avgs'] w'] t] eqn:Hrun.
  - vm_compute in Hrun. discriminate Hrun.
  - destruct (batch_calls nat exn world (lib Literals.example_images never) ctx ctx
                _ _ _ _ _ _ _ _ _ _ Hrun)
      as (x0 & x1 & y0 & f0 & z0 & p0 & d0 & y1 & f1 & z1 & p1 & d1 & l0 & l1 & l
          & loss & o1 & o2 & s1 & s2 & loss_item & std_item & Ht & _).
    cbn [snd]. split; [now rewrite Ht|].
    vm_compute in Hrun. injection Hrun as _ _ <-. reflexivity.
Defined.

End TinyNotebook.
